(** * STAMPS bulk generator: validation and batch XML serialization

    A shallow embedding of the renderer modules of the repository
    (the two [validator.js] variants, [generator.js] and the attachment
    resolver built in [app.js]) together with the properties the
    specification states about them.

    Conventions of the embedding.
    - A JavaScript string is the list of its UTF-16 code units
      ([jsstring]); [.length] is the length of that list and
      [new Blob([s]).size] is the length of its UTF-8 encoding.
    - A JavaScript value is a [jsval].  Numbers are the integer-valued
      ones (cells come out of the spreadsheet reader as text, and the
      code only ever compares against the literals 0 and 1).
    - An object is an association list from property names to values;
      a missing property reads as [JUndefined].
    - A call that can raise (the validator calls [.trim()] on whatever
      truthy value the attachment cell holds) returns a [completion]. *)

From Stdlib Require Import ZArith NArith List String Ascii Lia Bool.
From Stdlib Require Import DecimalString.
From stdpp Require Import base list gmap strings.
Import ListNotations.

Local Open Scope Z_scope.

(* ================================================================== *)
(** ** JavaScript strings *)
(* ================================================================== *)

(** A UTF-16 code unit, in [0, 65535]. *)
Definition codeunit := N.
Definition jsstring := list codeunit.

(** An ASCII literal of the source as a [jsstring]. *)
Definition lit (s : string) : jsstring :=
  map N_of_ascii (list_ascii_of_string s).

(** The double quote, U+0022. *)
Definition dquote : jsstring := [34%N].

Definition isHighSurrogate (c : codeunit) : bool :=
  ((55296 <=? c) && (c <=? 56319))%N.
Definition isLowSurrogate (c : codeunit) : bool :=
  ((56320 <=? c) && (c <=? 57343))%N.

(** The code point of a surrogate pair. *)
Definition pairCodePoint (hi lo : codeunit) : N :=
  (65536 + (hi - 55296) * 1024 + (lo - 56320))%N.

(** UTF-8 bytes of one scalar value. *)
Definition utf8Bytes (cp : N) : list N :=
  (if cp <? 128 then [cp]
   else if cp <? 2048 then
     [N.lor 192 (N.shiftr cp 6); N.lor 128 (N.land cp 63)]
   else if cp <? 65536 then
     [N.lor 224 (N.shiftr cp 12);
      N.lor 128 (N.land (N.shiftr cp 6) 63);
      N.lor 128 (N.land cp 63)]
   else
     [N.lor 240 (N.shiftr cp 18);
      N.lor 128 (N.land (N.shiftr cp 12) 63);
      N.lor 128 (N.land (N.shiftr cp 6) 63);
      N.lor 128 (N.land cp 63)])%N.

(** What the [Blob] constructor does with a string part: the string is
    read as scalar values (a surrogate pair is one value, an unpaired
    surrogate becomes U+FFFD) and each is encoded as UTF-8. *)
Fixpoint utf8Encode (s : jsstring) : list N :=
  match s with
  | [] => []
  | c :: rest =>
      if isHighSurrogate c then
        match rest with
        | d :: rest' =>
            if isLowSurrogate d
            then utf8Bytes (pairCodePoint c d) ++ utf8Encode rest'
            else utf8Bytes 65533 ++ utf8Encode rest
        | [] => utf8Bytes 65533
        end
      else if isLowSurrogate c then utf8Bytes 65533 ++ utf8Encode rest
      else utf8Bytes c ++ utf8Encode rest
  end.

(** [new Blob([s]).size] *)
Definition blobSize (s : jsstring) : Z := Z.of_nat (length (utf8Encode s)).

(** [s.length] *)
Definition strLength (s : jsstring) : Z := Z.of_nat (length s).

(** WhiteSpace and LineTerminator code units, the set [trim] strips. *)
Definition isWhiteSpace (c : codeunit) : bool :=
  ((9 <=? c) && (c <=? 13) || (c =? 32) || (c =? 160) || (c =? 5760)
   || (8192 <=? c) && (c <=? 8202) || (c =? 8232) || (c =? 8233)
   || (c =? 8239) || (c =? 8287) || (c =? 12288) || (c =? 65279))%N.

Fixpoint trimStart (s : jsstring) : jsstring :=
  match s with
  | [] => []
  | c :: rest => if isWhiteSpace c then trimStart rest else s
  end.

Definition trimEnd (s : jsstring) : jsstring := rev (trimStart (rev s)).

(** [s.trim()] *)
Definition trim (s : jsstring) : jsstring := trimEnd (trimStart s).

(** [s.replace(/c/g, by)] for a one-character pattern. *)
Fixpoint replaceAll (c : codeunit) (by_ : jsstring) (s : jsstring) : jsstring :=
  match s with
  | [] => []
  | x :: rest =>
      (if (x =? c)%N then by_ else [x]) ++ replaceAll c by_ rest
  end.

Fixpoint startsWith (pre s : jsstring) : bool :=
  match pre, s with
  | [], _ => true
  | p :: pre', x :: s' => (p =? x)%N && startsWith pre' s'
  | _ :: _, [] => false
  end.

Definition isDigit (c : codeunit) : bool := ((48 <=? c) && (c <=? 57))%N.

(* ------------------------------------------------------------------ *)
(** *** Values *)

#[warnings="-register-all"]
Inductive jsval :=
| JUndefined
| JNull
| JBool (b : bool)
| JNum (n : Z)
| JStr (s : jsstring)
| JObj (props : list (string * jsval)).

Definition jsobject := list (string * jsval).

(** Truthiness, as tested by [if (v)], [!v], [a || b] and [a && b]. *)
Definition truthy (v : jsval) : bool :=
  match v with
  | JUndefined | JNull => false
  | JBool b => b
  | JNum n => negb (n =? 0)
  | JStr s => match s with [] => false | _ => true end
  | JObj _ => true
  end.

(** [a || b] *)
Definition jsOr (a b : jsval) : jsval := if truthy a then a else b.

(** Number to string, for integers: an optional minus sign and the
    decimal digits. *)
Definition numberToString (n : Z) : jsstring :=
  lit (NilZero.string_of_int (Z.to_int n)).

(** [String(v)], also the conversion applied by template literals and by
    [RegExp.prototype.test]. *)
Definition ToString (v : jsval) : jsstring :=
  match v with
  | JUndefined => lit "undefined"
  | JNull => lit "null"
  | JBool true => lit "true"
  | JBool false => lit "false"
  | JNum n => numberToString n
  | JStr s => s
  | JObj _ => lit "[object Object]"
  end.

Fixpoint lookupProp (props : jsobject) (key : string) : jsval :=
  match props with
  | [] => JUndefined
  | (k, v) :: rest => if String.eqb k key then v else lookupProp rest key
  end.

(** [v[key]] for a [v] that is neither [null] nor [undefined].  None of
    the property names the program reads is defined on a built-in
    prototype, so a primitive answers [undefined]. *)
Definition getMember (v : jsval) (key : string) : jsval :=
  match v with
  | JObj props => lookupProp props key
  | _ => JUndefined
  end.

(** [v?.key] *)
Definition getMemberOpt (v : jsval) (key : string) : jsval :=
  match v with
  | JUndefined | JNull => JUndefined
  | _ => getMember v key
  end.

(** The outcome of a call that may raise. *)
Inductive completion (A : Type) :=
| Normal (a : A)
| Throw.
Arguments Normal {A} a.
Arguments Throw {A}.

Definition bind {A B} (c : completion A) (k : A -> completion B) : completion B :=
  match c with
  | Normal a => k a
  | Throw => Throw
  end.

(** [v.trim()]: defined on strings, a [TypeError] on the other values
    that can reach it (a number, a boolean and a plain object have no
    [trim] method; reading a property of [null] or [undefined] raises). *)
Definition callTrim (v : jsval) : completion jsstring :=
  match v with
  | JStr s => Normal (trim s)
  | _ => Throw
  end.

Notation "x <- c ;; k" := (bind c (fun x => k))
  (at level 100, c at next level, right associativity).

(* ================================================================== *)
(** ** The attachment store *)
(* ================================================================== *)

(** An entry of the [Map] the application fills on upload
    ([state.attachmentFiles.set(filename, { data, file, size })]): the
    base64 text and the byte size of the file. *)
Record Attachment := { data : jsval; fileSize : Z }.

#[global] Instance jsstring_eq_dec : EqDecision jsstring := _.
#[global] Instance jsstring_countable : Countable jsstring := _.

(** [attachmentFiles && attachmentFiles.has(filename)]; [None] stands for
    a store that was not passed. *)
Definition storeHas (attachmentFiles : option (gmap jsstring Attachment))
    (filename : jsstring) : bool :=
  match attachmentFiles with
  | Some m => match m !! filename with Some _ => true | None => false end
  | None => false
  end.

(* ================================================================== *)
(** ** Validation *)
(* ================================================================== *)

Inductive ErrorType :=
| MISSING_FIELD | INVALID_DATE | INVALID_NUMBER
| MISSING_FILE | MISSING_ATTACHMENT | MISSING_ID.

Definition ErrorType_eqb (a b : ErrorType) : bool :=
  match a, b with
  | MISSING_FIELD, MISSING_FIELD | INVALID_DATE, INVALID_DATE
  | INVALID_NUMBER, INVALID_NUMBER | MISSING_FILE, MISSING_FILE
  | MISSING_ATTACHMENT, MISSING_ATTACHMENT | MISSING_ID, MISSING_ID => true
  | _, _ => false
  end.

Record Issue := {
  rowNumber : jsval;
  fieldName : string;
  errorType : ErrorType;
  message : jsstring
}.

Record Report := {
  valid : bool;
  validCount : Z;
  errorCount : Z;
  warningCount : Z;
  errors : list Issue;
  warnings : list Issue
}.

(** [path.split('.')] *)
Fixpoint splitDot (path : string) : list string :=
  match path with
  | EmptyString => [EmptyString]
  | String c rest =>
      if Ascii.eqb c "."%char then EmptyString :: splitDot rest
      else match splitDot rest with
           | h :: t => String c h :: t
           | [] => [String c EmptyString]
           end
  end.

Fixpoint getNestedValue_loop (current : jsval) (parts : list string) : jsval :=
  match parts with
  | [] => current
  | part :: rest =>
      match current with
      | JUndefined | JNull => JUndefined
      | _ => getNestedValue_loop (getMember current part) rest
      end
  end.

Definition getNestedValue (obj : jsval) (path : string) : jsval :=
  getNestedValue_loop obj (splitDot path).

(** Regular expressions of the shape [^a{n}b{m}...$]: a sequence of
    atoms, each repeated an exact number of times, anchored at both
    ends (no flags, so [$] is the end of the input and [\d] is 0-9). *)
Inductive atom := Digit | Char (c : codeunit).
Definition regex := list (atom * nat).

Definition matchAtom (a : atom) (c : codeunit) : bool :=
  match a with
  | Digit => isDigit c
  | Char x => (c =? x)%N
  end.

Fixpoint matchRep (a : atom) (n : nat) (s : jsstring) : option jsstring :=
  match n with
  | O => Some s
  | S n' =>
      match s with
      | c :: rest => if matchAtom a c then matchRep a n' rest else None
      | [] => None
      end
  end.

Fixpoint matchSeq (r : regex) (s : jsstring) : bool :=
  match r with
  | [] => match s with [] => true | _ :: _ => false end
  | (a, n) :: r' =>
      match matchRep a n s with
      | Some rest => matchSeq r' rest
      | None => false
      end
  end.

(** [r.test(v)] *)
Definition regexTest (r : regex) (v : jsval) : bool := matchSeq r (ToString v).

(** [/^\d{2}\/\d{2}\/\d{4}$/] *)
Definition DATE_REGEX : regex :=
  [(Digit, 2%nat); (Char 47%N, 1%nat); (Digit, 2%nat); (Char 47%N, 1%nat);
   (Digit, 4%nat)].

(** [isNaN(parseFloat(v))]: [parseFloat] skips leading white space and
    reads the longest prefix that is a decimal literal; the result is
    [NaN] exactly when there is none, that is when what follows an
    optional sign is neither [Infinity], nor a digit, nor a dot and a
    digit. *)
Definition parseFloatIsNaN (v : jsval) : bool :=
  let s := trimStart (ToString v) in
  let s := match s with
           | c :: rest => if ((c =? 43) || (c =? 45))%N then rest else s
           | [] => s
           end in
  negb (startsWith (lit "Infinity") s
        || match s with
           | c :: rest =>
               isDigit c
               || ((c =? 46)%N
                   && match rest with d :: _ => isDigit d | [] => false end)
           | [] => false
           end).

Definition isUndefined (v : jsval) : bool :=
  match v with JUndefined => true | _ => false end.
Definition isNull (v : jsval) : bool :=
  match v with JNull => true | _ => false end.
Definition isEmptyString (v : jsval) : bool :=
  match v with JStr [] => true | _ => false end.

(** [type === '1' || type === 1] *)
Definition isOne (v : jsval) : bool :=
  match v with
  | JStr [c] => (c =? 49)%N
  | JNum n => n =? 1
  | _ => false
  end.

(** [type === '0' || type === 0] *)
Definition isZero (v : jsval) : bool :=
  match v with
  | JStr [c] => (c =? 48)%N
  | JNum n => n =? 0
  | _ => false
  end.

Fixpoint lookupName (table : list (string * string)) (key : string) : option string :=
  match table with
  | [] => None
  | (k, v) :: rest => if String.eqb k key then Some v else lookupName rest key
  end.

(** The part of [validateAll] the two validator modules have in common:
    everything but the mandatory field list, the display names and the
    type-dependent party checks. *)
Section ValidatorCore.

Variable MANDATORY_FIELDS : list string.
Variable displayNames : list (string * string).
(** The checks of one party ([who] is [transferor] or [transferee]):
    the errors and the warnings they push. *)
Variable partyChecks : string -> jsobject -> jsval -> list Issue * list Issue.

(** [displayNames[fieldPath] || fieldPath] *)
Definition getFieldDisplayName (fieldPath : string) : jsstring :=
  match lookupName displayNames fieldPath with
  | Some EmptyString | None => lit fieldPath
  | Some n => lit n
  end.

Definition mandatoryChecks (record : jsobject) (rowNumber : jsval) : list Issue :=
  flat_map (fun fieldPath =>
    let value := getNestedValue (JObj record) fieldPath in
    if isUndefined value || isNull value || isEmptyString value then
      [ {| rowNumber := rowNumber;
           fieldName := fieldPath;
           errorType := MISSING_FIELD;
           message := lit "Missing required field: "
                      ++ getFieldDisplayName fieldPath |} ]
    else []) MANDATORY_FIELDS.

Definition dateFields : list string := ["instrumentDate"; "instrumentDateReceive"].

Definition dateChecks (record : jsobject) (rowNumber : jsval) : list Issue :=
  flat_map (fun field =>
    let value := lookupProp record field in
    if truthy value && negb (regexTest DATE_REGEX value) then
      [ {| rowNumber := rowNumber;
           fieldName := field;
           errorType := INVALID_DATE;
           message := lit "Invalid date format for "
                      ++ getFieldDisplayName field
                      ++ lit ". Expected DD/MM/YYYY, got: "
                      ++ ToString value |} ]
    else []) dateFields.

Definition numericFields : list string :=
  ["principal"; "subsidiary"; "typeOfInstrument"; "consideration"; "noOfCopy"].

Definition numericChecks (record : jsobject) (rowNumber : jsval) : list Issue :=
  flat_map (fun field =>
    let value := lookupProp record field in
    if negb (isUndefined value) && negb (isEmptyString value)
       && parseFloatIsNaN value then
      [ {| rowNumber := rowNumber;
           fieldName := field;
           errorType := INVALID_NUMBER;
           message := lit "Non-numeric value for "
                      ++ getFieldDisplayName field ++ lit ": "
                      ++ ToString value |} ]
    else []) numericFields.

(** The attachment block: the errors and warnings it pushes, or the
    [TypeError] of [record.attachment.trim()]. *)
Definition attachmentCheck (record : jsobject)
    (attachmentFiles : option (gmap jsstring Attachment)) (rowNumber : jsval)
    : completion (list Issue * list Issue) :=
  if truthy (lookupProp record "attachment") then
    filename <- callTrim (lookupProp record "attachment") ;;
    let exists_ := storeHas attachmentFiles filename in
    if negb exists_ then
      Normal ([ {| rowNumber := rowNumber;
                   fieldName := "attachment";
                   errorType := MISSING_FILE;
                   message := lit "Attachment file not uploaded: "
                              ++ filename |} ], [])
    else Normal ([], [])
  else
    Normal ([], [ {| rowNumber := rowNumber;
                     fieldName := "attachment";
                     errorType := MISSING_ATTACHMENT;
                     message := lit "No attachment specified for this record" |} ]).

(** The body of the [for (const record of mappedData)] loop: the
    [rowErrors] and [rowWarnings] of one record, in push order. *)
Definition validateRecord (record : jsobject)
    (attachmentFiles : option (gmap jsstring Attachment))
    : completion (list Issue * list Issue) :=
  let rowNumber := lookupProp record "_rowNumber" in
  let e1 := mandatoryChecks record rowNumber in
  let e2 := dateChecks record rowNumber in
  let w1 := numericChecks record rowNumber in
  a <- attachmentCheck record attachmentFiles rowNumber ;;
  let p1 := partyChecks "transferor" record rowNumber in
  let p2 := partyChecks "transferee" record rowNumber in
  Normal (e1 ++ e2 ++ fst a ++ fst p1 ++ fst p2,
          w1 ++ snd a ++ snd p1 ++ snd p2).

(** The loop, threading [errors], [warnings] and [validCount]. *)
Fixpoint validateLoop (mappedData : list jsobject)
    (attachmentFiles : option (gmap jsstring Attachment))
    (errors_ warnings_ : list Issue) (validCount_ : Z)
    : completion (list Issue * list Issue * Z) :=
  match mappedData with
  | [] => Normal (errors_, warnings_, validCount_)
  | record :: rest =>
      row <- validateRecord record attachmentFiles ;;
      validateLoop rest attachmentFiles
        (errors_ ++ fst row) (warnings_ ++ snd row)
        (if (length (fst row) =? 0)%nat then validCount_ + 1 else validCount_)
  end.

Definition validateAll (mappedData : list jsobject)
    (attachmentFiles : option (gmap jsstring Attachment)) : completion Report :=
  st <- validateLoop mappedData attachmentFiles [] [] 0 ;;
  let '(errors_, warnings_, validCount_) := st in
  Normal {| valid := (length errors_ =? 0)%nat;
            validCount := validCount_;
            errorCount := Z.of_nat (length errors_);
            warningCount := Z.of_nat (length warnings_);
            errors := errors_;
            warnings := warnings_ |}.

End ValidatorCore.

(** An issue pushed by a party check. *)
Definition partyIssue (rowNumber : jsval) (who field : string) (ty : ErrorType)
    (msg : jsstring) : Issue :=
  {| rowNumber := rowNumber;
     fieldName := who +:+ "." +:+ field;
     errorType := ty;
     message := msg |}.

(** *** The validator that reports missing identities as errors

    The first [validator.js]: the long mandatory list (address and phone
    included) and [MISSING_FIELD] errors from the party checks. *)
Module ValidatorStrict.

Definition MANDATORY_FIELDS : list string :=
  [ "refNo"; "instrumentDate"; "principal"; "typeOfInstrumentOthers";
    "transferor.type"; "transferor.name";
    "transferor.street1"; "transferor.street2"; "transferor.postcode";
    "transferor.city"; "transferor.state"; "transferor.country";
    "transferor.telNo";
    "transferee.type"; "transferee.name";
    "transferee.street1"; "transferee.street2"; "transferee.postcode";
    "transferee.city"; "transferee.state"; "transferee.country";
    "transferee.telNo" ].

Definition displayNames : list (string * string) :=
  [ ("refNo", "Reference Number");
    ("instrumentDate", "Date Signed");
    ("instrumentDateReceive", "Date Received");
    ("principal", "Principal/Subsidiary");
    ("typeOfInstrumentOthers", "Agreement Name");
    ("typeOfInstrument", "Instrument Type");
    ("transferor.type", "Transferor Type");
    ("transferor.name", "Transferor Name");
    ("transferor.icNo", "Transferor IC");
    ("transferor.rocNo", "Transferor ROC");
    ("transferor.busType", "Transferor Business Type");
    ("transferor.nationality", "Transferor Nationality");
    ("transferor.passportNo", "Transferor Passport");
    ("transferor.passportCountry", "Transferor Passport Country");
    ("transferor.street1", "Transferor Address Line 1");
    ("transferor.street2", "Transferor Address Line 2");
    ("transferor.postcode", "Transferor Postcode");
    ("transferor.city", "Transferor City");
    ("transferor.state", "Transferor State");
    ("transferor.country", "Transferor Country");
    ("transferor.telNo", "Transferor Phone");
    ("transferee.type", "Transferee Type");
    ("transferee.name", "Transferee Name");
    ("transferee.icNo", "Transferee IC");
    ("transferee.rocNo", "Transferee ROC");
    ("transferee.busType", "Transferee Business Type");
    ("transferee.nationality", "Transferee Nationality");
    ("transferee.passportNo", "Transferee Passport");
    ("transferee.passportCountry", "Transferee Passport Country");
    ("transferee.street1", "Transferee Address Line 1");
    ("transferee.street2", "Transferee Address Line 2");
    ("transferee.postcode", "Transferee Postcode");
    ("transferee.city", "Transferee City");
    ("transferee.state", "Transferee State");
    ("transferee.country", "Transferee Country");
    ("transferee.telNo", "Transferee Phone");
    ("consideration", "Consideration Amount");
    ("noOfCopy", "Number of Copies");
    ("attachment", "Attachment") ].

(** The [if (record.transferor) { ... }] block and its twin for the
    transferee; the two differ in the party name only. *)
Definition partyChecks (who : string) (record : jsobject) (rowNumber : jsval)
    : list Issue * list Issue :=
  let party := lookupProp record who in
  if truthy party then
    let type := getMember party "type" in
    if isOne type then
      ((if negb (truthy (getMember party "rocNo")) then
          [partyIssue rowNumber who "rocNo" MISSING_FIELD
             (lit "Company " ++ lit who ++ lit " requires ROC Number")]
        else [])
       ++
       (if negb (truthy (getMember party "busType")) then
          [partyIssue rowNumber who "busType" MISSING_FIELD
             (lit "Company " ++ lit who
              ++ lit " requires Business Type (1=Local, 2=Foreign)")]
        else []), [])
    else if isZero type then
      let hasIC := getMember party "icNo" in
      let hasPassport := getMember party "passportNo" in
      if negb (truthy hasIC) && negb (truthy hasPassport) then
        ([partyIssue rowNumber who "icNo" MISSING_FIELD
            (lit "Individual " ++ lit who
             ++ lit " requires IC Number (citizen) or Passport (non-citizen)")],
         [])
      else if truthy hasIC then
        (if negb (truthy (getMember party "nationality")) then
           [partyIssue rowNumber who "nationality" MISSING_FIELD
              (lit "Citizen " ++ lit who ++ lit " requires Nationality (set to 1)")]
         else [], [])
      else if truthy hasPassport then
        (if negb (truthy (getMember party "passportCountry")) then
           [partyIssue rowNumber who "passportCountry" MISSING_FIELD
              (lit "Non-citizen " ++ lit who
               ++ lit " requires Passport Country Code")]
         else [], [])
      else ([], [])
    else ([], [])
  else ([], []).

Definition validateRecord := validateRecord MANDATORY_FIELDS displayNames partyChecks.
Definition validateAll := validateAll MANDATORY_FIELDS displayNames partyChecks.

End ValidatorStrict.

(** *** The validator that reports missing identities as warnings

    The second [validator.js]: the short mandatory list and [MISSING_ID]
    warnings from the party checks. *)
Module ValidatorLenient.

Definition MANDATORY_FIELDS : list string :=
  [ "refNo"; "instrumentDate"; "instrumentDateReceive"; "principal";
    "typeOfInstrument"; "transferor.type"; "transferor.name";
    "transferee.type"; "transferee.name"; "consideration"; "noOfCopy" ].

Definition displayNames : list (string * string) :=
  [ ("refNo", "Reference Number");
    ("instrumentDate", "Date Signed");
    ("instrumentDateReceive", "Date Received");
    ("principal", "Principal");
    ("typeOfInstrument", "Instrument Type");
    ("transferor.type", "Transferor Type");
    ("transferor.name", "Transferor Name");
    ("transferor.icNo", "Transferor IC");
    ("transferor.rocNo", "Transferor ROC");
    ("transferee.type", "Transferee Type");
    ("transferee.name", "Transferee Name");
    ("transferee.icNo", "Transferee IC");
    ("transferee.rocNo", "Transferee ROC");
    ("consideration", "Consideration Amount");
    ("noOfCopy", "Number of Copies");
    ("attachment", "Attachment") ].

Definition partyChecks (who : string) (record : jsobject) (rowNumber : jsval)
    : list Issue * list Issue :=
  let party := lookupProp record who in
  if truthy party then
    let type := getMember party "type" in
    if isZero type then
      if negb (truthy (getMember party "icNo"))
         && negb (truthy (getMember party "pasportNo")) then
        ([], [partyIssue rowNumber who "icNo" MISSING_ID
                (lit "Individual " ++ lit who
                 ++ lit " should have IC or Passport number")])
      else ([], [])
    else if isOne type then
      if negb (truthy (getMember party "rocNo")) then
        ([], [partyIssue rowNumber who "rocNo" MISSING_ID
                (lit "Company " ++ lit who ++ lit " should have ROC number")])
      else ([], [])
    else ([], [])
  else ([], []).

Definition validateRecord := validateRecord MANDATORY_FIELDS displayNames partyChecks.
Definition validateAll := validateAll MANDATORY_FIELDS displayNames partyChecks.

End ValidatorLenient.

(* ================================================================== *)
(** ** XML generation *)
(* ================================================================== *)

(** [29 * 1024 * 1024] *)
Definition MAX_BATCH_SIZE : Z := 29 * 1024 * 1024.

Definition newline : jsstring := [10%N].

Definition XML_HEADER : jsstring :=
  lit "<?xml version=" ++ dquote ++ lit "1.0" ++ dquote
  ++ lit " encoding=" ++ dquote ++ lit "UTF-8" ++ dquote ++ lit "?>" ++ newline
  ++ lit "<bulkstamping>" ++ newline
  ++ lit "    <applicationType>43</applicationType>".

Definition XML_FOOTER : jsstring := newline ++ lit "</bulkstamping>".

(** The five replacements of [escapeXml], in the order of the source. *)
Definition escapeXml (str : jsval) : jsstring :=
  match str with
  | JNull | JUndefined => []
  | _ =>
      replaceAll 39%N (lit "&apos;")
        (replaceAll 34%N (lit "&quot;")
           (replaceAll 62%N (lit "&gt;")
              (replaceAll 60%N (lit "&lt;")
                 (replaceAll 38%N (lit "&amp;") (ToString str)))))
  end.

(** The template literal of [generateInstrumentXml]. *)
Definition instrumentTemplate (record : jsobject)
    (attachmentName attachmentBase64 : jsval) : jsstring :=
    lit "
    <instrument>
        <refNo>"
    ++ escapeXml (jsOr (lookupProp record "refNo") (JStr []))
    ++ lit "</refNo>
        <instrumentDate>"
    ++ escapeXml (jsOr (lookupProp record "instrumentDate") (JStr []))
    ++ lit "</instrumentDate>
        <instrumentDateReceive>"
    ++ escapeXml (jsOr (lookupProp record "instrumentDateReceive") (JStr []))
    ++ lit "</instrumentDateReceive>
        <principal>"
    ++ escapeXml (jsOr (lookupProp record "principal") (JStr []))
    ++ lit "</principal>
        <subsidiary>"
    ++ escapeXml (jsOr (lookupProp record "subsidiary") (JStr []))
    ++ lit "</subsidiary>
        <typeOfInstrument>"
    ++ escapeXml (jsOr (lookupProp record "typeOfInstrument") (JStr []))
    ++ lit "</typeOfInstrument>
        <typeOfInstrumentOthers>"
    ++ escapeXml (jsOr (lookupProp record "typeOfInstrumentOthers") (JStr []))
    ++ lit "</typeOfInstrumentOthers>
        <transferor>
            <type>"
    ++ escapeXml (jsOr (getMemberOpt (lookupProp record "transferor") "type") (JStr []))
    ++ lit "</type>
            <name>"
    ++ escapeXml (jsOr (getMemberOpt (lookupProp record "transferor") "name") (JStr []))
    ++ lit "</name>
            <nationality>"
    ++ escapeXml (jsOr (getMemberOpt (lookupProp record "transferor") "nationality") (JStr []))
    ++ lit "</nationality>
            <icNo>"
    ++ escapeXml (jsOr (getMemberOpt (lookupProp record "transferor") "icNo") (JStr []))
    ++ lit "</icNo>
            <pasportNo>"
    ++ escapeXml (jsOr (getMemberOpt (lookupProp record "transferor") "pasportNo") (JStr []))
    ++ lit "</pasportNo>
            <pasportCountry>"
    ++ escapeXml (jsOr (getMemberOpt (lookupProp record "transferor") "pasportCountry") (JStr []))
    ++ lit "</pasportCountry>
            <rocNo>"
    ++ escapeXml (jsOr (getMemberOpt (lookupProp record "transferor") "rocNo") (JStr []))
    ++ lit "</rocNo>
            <busType>"
    ++ escapeXml (jsOr (getMemberOpt (lookupProp record "transferor") "busType") (JStr []))
    ++ lit "</busType>
            <incomeTaxNo>"
    ++ escapeXml (jsOr (getMemberOpt (lookupProp record "transferor") "incomeTaxNo") (JStr []))
    ++ lit "</incomeTaxNo>
            <incomeTaxBranch>"
    ++ escapeXml (jsOr (getMemberOpt (lookupProp record "transferor") "incomeTaxBranch") (JStr []))
    ++ lit "</incomeTaxBranch>
            <street1>"
    ++ escapeXml (jsOr (getMemberOpt (lookupProp record "transferor") "street1") (JStr []))
    ++ lit "</street1>
            <street2>"
    ++ escapeXml (jsOr (getMemberOpt (lookupProp record "transferor") "street2") (JStr []))
    ++ lit "</street2>
            <street3>"
    ++ escapeXml (jsOr (getMemberOpt (lookupProp record "transferor") "street3") (JStr []))
    ++ lit "</street3>
            <postcode>"
    ++ escapeXml (jsOr (getMemberOpt (lookupProp record "transferor") "postcode") (JStr []))
    ++ lit "</postcode>
            <city>"
    ++ escapeXml (jsOr (getMemberOpt (lookupProp record "transferor") "city") (JStr []))
    ++ lit "</city>
            <state>"
    ++ escapeXml (jsOr (getMemberOpt (lookupProp record "transferor") "state") (JStr []))
    ++ lit "</state>
            <country>"
    ++ escapeXml (jsOr (getMemberOpt (lookupProp record "transferor") "country") (JStr []))
    ++ lit "</country>
            <telNo>"
    ++ escapeXml (jsOr (getMemberOpt (lookupProp record "transferor") "telNo") (JStr []))
    ++ lit "</telNo>
            <email>"
    ++ escapeXml (jsOr (getMemberOpt (lookupProp record "transferor") "email") (JStr []))
    ++ lit "</email>
        </transferor>
        <transferee>
            <type>"
    ++ escapeXml (jsOr (getMemberOpt (lookupProp record "transferee") "type") (JStr []))
    ++ lit "</type>
            <name>"
    ++ escapeXml (jsOr (getMemberOpt (lookupProp record "transferee") "name") (JStr []))
    ++ lit "</name>
            <nationality>"
    ++ escapeXml (jsOr (getMemberOpt (lookupProp record "transferee") "nationality") (JStr []))
    ++ lit "</nationality>
            <icNo>"
    ++ escapeXml (jsOr (getMemberOpt (lookupProp record "transferee") "icNo") (JStr []))
    ++ lit "</icNo>
            <pasportNo>"
    ++ escapeXml (jsOr (getMemberOpt (lookupProp record "transferee") "pasportNo") (JStr []))
    ++ lit "</pasportNo>
            <pasportCountry>"
    ++ escapeXml (jsOr (getMemberOpt (lookupProp record "transferee") "pasportCountry") (JStr []))
    ++ lit "</pasportCountry>
            <rocNo>"
    ++ escapeXml (jsOr (getMemberOpt (lookupProp record "transferee") "rocNo") (JStr []))
    ++ lit "</rocNo>
            <busType>"
    ++ escapeXml (jsOr (getMemberOpt (lookupProp record "transferee") "busType") (JStr []))
    ++ lit "</busType>
            <incomeTaxNo>"
    ++ escapeXml (jsOr (getMemberOpt (lookupProp record "transferee") "incomeTaxNo") (JStr []))
    ++ lit "</incomeTaxNo>
            <incomeTaxBranch>"
    ++ escapeXml (jsOr (getMemberOpt (lookupProp record "transferee") "incomeTaxBranch") (JStr []))
    ++ lit "</incomeTaxBranch>
            <street1>"
    ++ escapeXml (jsOr (getMemberOpt (lookupProp record "transferee") "street1") (JStr []))
    ++ lit "</street1>
            <street2>"
    ++ escapeXml (jsOr (getMemberOpt (lookupProp record "transferee") "street2") (JStr []))
    ++ lit "</street2>
            <street3>"
    ++ escapeXml (jsOr (getMemberOpt (lookupProp record "transferee") "street3") (JStr []))
    ++ lit "</street3>
            <postcode>"
    ++ escapeXml (jsOr (getMemberOpt (lookupProp record "transferee") "postcode") (JStr []))
    ++ lit "</postcode>
            <city>"
    ++ escapeXml (jsOr (getMemberOpt (lookupProp record "transferee") "city") (JStr []))
    ++ lit "</city>
            <state>"
    ++ escapeXml (jsOr (getMemberOpt (lookupProp record "transferee") "state") (JStr []))
    ++ lit "</state>
            <country>"
    ++ escapeXml (jsOr (getMemberOpt (lookupProp record "transferee") "country") (JStr []))
    ++ lit "</country>
            <telNo>"
    ++ escapeXml (jsOr (getMemberOpt (lookupProp record "transferee") "telNo") (JStr []))
    ++ lit "</telNo>
            <email>"
    ++ escapeXml (jsOr (getMemberOpt (lookupProp record "transferee") "email") (JStr []))
    ++ lit "</email>
        </transferee>
        <consideration>"
    ++ escapeXml (jsOr (lookupProp record "consideration") (JStr []))
    ++ lit "</consideration>
        <duration>"
    ++ escapeXml (jsOr (lookupProp record "duration") (JStr []))
    ++ lit "</duration>
        <durationDesc>"
    ++ escapeXml (jsOr (lookupProp record "durationDesc") (JStr []))
    ++ lit "</durationDesc>
        <colLand>"
    ++ escapeXml (jsOr (lookupProp record "colLand") (JStr []))
    ++ lit "</colLand>
        <colLandDesc>"
    ++ escapeXml (jsOr (lookupProp record "colLandDesc") (JStr []))
    ++ lit "</colLandDesc>
        <colShare>"
    ++ escapeXml (jsOr (lookupProp record "colShare") (JStr []))
    ++ lit "</colShare>
        <colDeposit>"
    ++ escapeXml (jsOr (lookupProp record "colDeposit") (JStr []))
    ++ lit "</colDeposit>
        <colOthers>"
    ++ escapeXml (jsOr (lookupProp record "colOthers") (JStr []))
    ++ lit "</colOthers>
        <colOthersDesc>"
    ++ escapeXml (jsOr (lookupProp record "colOthersDesc") (JStr []))
    ++ lit "</colOthersDesc>
        <noOfCopy>"
    ++ escapeXml (jsOr (lookupProp record "noOfCopy") (JStr []))
    ++ lit "</noOfCopy>
        <exemption>"
    ++ escapeXml (jsOr (lookupProp record "exemption") (JStr []))
    ++ lit "</exemption>
        <exemptionOthers>"
    ++ escapeXml (jsOr (lookupProp record "exemptionOthers") (JStr []))
    ++ lit "</exemptionOthers>
        <remession>"
    ++ escapeXml (jsOr (lookupProp record "remession") (JStr []))
    ++ lit "</remession>
        <remessionOthers>"
    ++ escapeXml (jsOr (lookupProp record "remessionOthers") (JStr []))
    ++ lit "</remessionOthers>
        <attachment name="
    ++ dquote
    ++ escapeXml attachmentName
    ++ dquote
    ++ lit ">"
    ++ ToString attachmentBase64
    ++ lit "</attachment>
    </instrument>".

(** [getAttachmentBase64(attachmentName.trim()) || ''] inside its
    [try]: a raised error, from [trim] or from the resolver, leaves the
    empty string. *)
Definition fetchAttachment (attachmentName : jsval)
    (getAttachmentBase64 : jsstring -> completion jsval) : jsval :=
  if truthy attachmentName then
    match (filename <- callTrim attachmentName ;; getAttachmentBase64 filename) with
    | Normal v => jsOr v (JStr [])
    | Throw => JStr []
    end
  else JStr [].

Definition generateInstrumentXml (record : jsobject)
    (getAttachmentBase64 : jsstring -> completion jsval) : jsstring :=
  let attachmentName := jsOr (lookupProp record "attachment") (JStr []) in
  let attachmentBase64 := fetchAttachment attachmentName getAttachmentBase64 in
  instrumentTemplate record attachmentName attachmentBase64.

(** The resolver [startGeneration] passes to [generateXml]: the [data]
    of the stored attachment, or the empty string when the store has no
    such key. *)
Module App.
Definition getAttachmentBase64 (attachmentFiles : gmap jsstring Attachment)
    (filename : jsstring) : completion jsval :=
  Normal (match attachmentFiles !! filename with
          | Some attachment => data attachment
          | None => JStr []
          end).
End App.

(** The running batch. *)
Module CurrentBatch.
Record t := {
  instruments : list jsstring;
  size : Z;
  recordCount : Z
}.
End CurrentBatch.

(** A finalized batch. *)
Module OutputBatch.
Record t := {
  filename : jsstring;
  content : jsstring;
  size : Z;
  recordCount : Z
}.
End OutputBatch.

Definition emptyBatch : CurrentBatch.t :=
  {| CurrentBatch.instruments := [];
     CurrentBatch.size := strLength XML_HEADER + strLength XML_FOOTER;
     CurrentBatch.recordCount := 0 |}.

Definition finalizeBatch (batch : CurrentBatch.t) (batchNumber : Z) : OutputBatch.t :=
  let content := XML_HEADER ++ concat (CurrentBatch.instruments batch) ++ XML_FOOTER in
  {| OutputBatch.filename :=
       if batchNumber =? 1 then lit "Output.xml"
       else lit "Output_Batch_" ++ numberToString batchNumber ++ lit ".xml";
     OutputBatch.content := content;
     OutputBatch.size := blobSize content;
     OutputBatch.recordCount := CurrentBatch.recordCount batch |}.

Section GenerateXml.

Variable getAttachmentBase64 : jsstring -> completion jsval.

(** The [for] loop of [generateXml] over the records still to come,
    threading [batches] and [currentBatch].  The optional progress
    callback only observes the loop and is left out. *)
Fixpoint generateXml_loop (mappedData : list jsobject)
    (batches : list OutputBatch.t) (currentBatch : CurrentBatch.t)
    : list OutputBatch.t * CurrentBatch.t :=
  match mappedData with
  | [] => (batches, currentBatch)
  | record :: rest =>
      let instrumentXml := generateInstrumentXml record getAttachmentBase64 in
      let instrumentSize := blobSize instrumentXml in
      let '(batches, currentBatch) :=
        if (CurrentBatch.size currentBatch + instrumentSize >? MAX_BATCH_SIZE)
           && (0 <? length (CurrentBatch.instruments currentBatch))%nat
        then (batches ++ [finalizeBatch currentBatch (Z.of_nat (length batches) + 1)],
              emptyBatch)
        else (batches, currentBatch) in
      generateXml_loop rest batches
        {| CurrentBatch.instruments :=
             CurrentBatch.instruments currentBatch ++ [instrumentXml];
           CurrentBatch.size := CurrentBatch.size currentBatch + instrumentSize;
           CurrentBatch.recordCount := CurrentBatch.recordCount currentBatch + 1 |}
  end.

Definition generateXml (mappedData : list jsobject) : list OutputBatch.t :=
  let '(batches, currentBatch) := generateXml_loop mappedData [] emptyBatch in
  if (0 <? length (CurrentBatch.instruments currentBatch))%nat
  then batches ++ [finalizeBatch currentBatch (Z.of_nat (length batches) + 1)]
  else batches.

End GenerateXml.

(** Unescaping, as a reader of the document does it: one pass from the
    left in which each of the five predefined entity references and each
    numeric character reference is replaced by the character it stands
    for; [skip] counts the code units of a reference still to be passed
    over. *)
Definition entities : list (jsstring * codeunit) :=
  [ (lit "&amp;", 38%N); (lit "&lt;", 60%N); (lit "&gt;", 62%N);
    (lit "&quot;", 34%N); (lit "&apos;", 39%N) ].

Fixpoint entityAt (table : list (jsstring * codeunit)) (s : jsstring)
    : option (codeunit * nat) :=
  match table with
  | [] => None
  | (name, c) :: rest =>
      if startsWith name s then Some (c, length name) else entityAt rest s
  end.

(** The code units of a code point. *)
Definition codeUnitsOf (cp : N) : jsstring :=
  (if cp <? 65536 then [cp]
   else [55296 + (cp - 65536) / 1024; 56320 + (cp - 65536) mod 1024])%N.

Definition decimalDigit (c : codeunit) : option N :=
  if isDigit c then Some (c - 48)%N else None.

Definition hexDigit (c : codeunit) : option N :=
  if isDigit c then Some (c - 48)%N
  else if ((97 <=? c) && (c <=? 102))%N then Some (c - 87)%N
  else if ((65 <=? c) && (c <=? 70))%N then Some (c - 55)%N
  else None.

(** Digits up to a semicolon: the number read and the count of code
    units passed, the semicolon included. *)
Fixpoint readDigits (digit : codeunit -> option N) (base acc : N) (seen : nat)
    (s : jsstring) : option (N * nat) :=
  match s with
  | [] => None
  | c :: rest =>
      if (c =? 59)%N then
        match seen with O => None | S _ => Some (acc, S seen) end
      else
        match digit c with
        | Some d => readDigits digit base (acc * base + d)%N (S seen) rest
        | None => None
        end
  end.

(** A numeric character reference, hexadecimal or decimal, at the head
    of [s]. *)
Definition charRefAt (s : jsstring) : option (jsstring * nat) :=
  if startsWith (lit "&#x") s then
    match readDigits hexDigit 16 0 0 (skipn 3 s) with
    | Some (cp, n) => Some (codeUnitsOf cp, (3 + n)%nat)
    | None => None
    end
  else if startsWith (lit "&#") s then
    match readDigits decimalDigit 10 0 0 (skipn 2 s) with
    | Some (cp, n) => Some (codeUnitsOf cp, (2 + n)%nat)
    | None => None
    end
  else None.

Definition referenceAt (s : jsstring) : option (jsstring * nat) :=
  match entityAt entities s with
  | Some (c, n) => Some ([c], n)
  | None => charRefAt s
  end.

Fixpoint unescapeFrom (skip : nat) (s : jsstring) : jsstring :=
  match s with
  | [] => []
  | c :: rest =>
      match skip with
      | S k => unescapeFrom k rest
      | O =>
          match referenceAt s with
          | Some (chars, len) => chars ++ unescapeFrom (len - 1) rest
          | None => c :: unescapeFrom 0 rest
          end
      end
  end.

Definition xmlUnescape (s : jsstring) : jsstring := unescapeFrom 0 s.

(* ================================================================== *)
(** ** Notions used to state the properties *)
(* ================================================================== *)

(** What [escapeXml] does to one code unit. *)
Definition escapeChar (c : codeunit) : jsstring :=
  (if c =? 38 then lit "&amp;"
   else if c =? 60 then lit "&lt;"
   else if c =? 62 then lit "&gt;"
   else if c =? 34 then lit "&quot;"
   else if c =? 39 then lit "&apos;"
   else [c])%N.

(** A string that a preceding high surrogate cannot pair with. *)
Definition noLeadingLow (s : jsstring) : Prop :=
  match s with
  | d :: _ => isLowSurrogate d = false
  | [] => True
  end.

(** The byte sizes of a list of fragments, summed. *)
Fixpoint fragmentsSize (l : list jsstring) : Z :=
  match l with
  | [] => 0
  | s :: rest => blobSize s + fragmentsSize rest
  end.

(** The value of the [size] accumulator of a running batch holding the
    fragments [l]. *)
Definition accumulated (l : list jsstring) : Z :=
  strLength XML_HEADER + strLength XML_FOOTER + fragmentsSize l.

(** [b] is the document of the group of records [g]. *)
Definition batchOf (getAttachmentBase64 : jsstring -> completion jsval)
    (g : list jsobject) (b : OutputBatch.t) : Prop :=
  g <> []
  /\ OutputBatch.content b =
       XML_HEADER
       ++ concat (map (fun r => generateInstrumentXml r getAttachmentBase64) g)
       ++ XML_FOOTER
  /\ OutputBatch.recordCount b = Z.of_nat (length g)
  /\ OutputBatch.size b = blobSize (OutputBatch.content b)
  /\ OutputBatch.size b =
       accumulated (map (fun r => generateInstrumentXml r getAttachmentBase64) g)
  /\ (1 < OutputBatch.recordCount b -> OutputBatch.size b <= MAX_BATCH_SIZE).

(** The running batch [cur] after the records [g] went into it. *)
Definition holds (getAttachmentBase64 : jsstring -> completion jsval)
    (g : list jsobject) (cur : CurrentBatch.t) : Prop :=
  CurrentBatch.instruments cur
  = map (fun r => generateInstrumentXml r getAttachmentBase64) g
  /\ CurrentBatch.size cur
     = accumulated (map (fun r => generateInstrumentXml r getAttachmentBase64) g)
  /\ CurrentBatch.recordCount cur = Z.of_nat (length g)
  /\ ((2 <= length g)%nat -> CurrentBatch.size cur <= MAX_BATCH_SIZE).

(** The name of the [k]-th finalized batch, counting from 1. *)
Definition batchName (k : nat) : jsstring :=
  match k with
  | 1%nat => lit "Output.xml"
  | _ => lit "Output_Batch_" ++ numberToString (Z.of_nat k) ++ lit ".xml"
  end.

(** The [recordCount] fields of a list of batches, summed. *)
Fixpoint sumRecordCount (bs : list OutputBatch.t) : Z :=
  match bs with
  | [] => 0
  | b :: rest => OutputBatch.recordCount b + sumRecordCount rest
  end.

(** The two validator modules, to state a property of both at once. *)
Inductive validator := Strict | Lenient.

Definition validateRecordOf (v : validator) :=
  match v with
  | Strict => ValidatorStrict.validateRecord
  | Lenient => ValidatorLenient.validateRecord
  end.

Definition validateAllOf (v : validator) :=
  match v with
  | Strict => ValidatorStrict.validateAll
  | Lenient => ValidatorLenient.validateAll
  end.

(** The rows (errors and warnings of one record) with no error. *)
Fixpoint countValid (rows : list (list Issue * list Issue)) : Z :=
  match rows with
  | [] => 0
  | row :: rest =>
      (match fst row with [] => 1 | _ :: _ => 0 end) + countValid rest
  end.

(** The issues of a list with a given type and field. *)
Fixpoint countIssues (ty : ErrorType) (field : string) (l : list Issue) : nat :=
  match l with
  | [] => 0
  | i :: rest =>
      ((if ErrorType_eqb (errorType i) ty && String.eqb (fieldName i) field
        then 1 else 0) + countIssues ty field rest)%nat
  end.

(** Two digits, a slash, two digits, a slash, four digits. *)
Definition isDDMMYYYY (s : jsstring) : Prop :=
  exists d1 d2 m1 m2 y1 y2 y3 y4,
    s = [d1; d2; 47%N; m1; m2; 47%N; y1; y2; y3; y4]
    /\ Forall (fun c => isDigit c = true) [d1; d2; m1; m2; y1; y2; y3; y4].

(** The issue the attachment block pushes for a file that was not
    uploaded, and the one for a record that names none. *)
Definition missingFileIssue (record : jsobject) (filename : jsstring) : Issue :=
  {| rowNumber := lookupProp record "_rowNumber";
     fieldName := "attachment";
     errorType := MISSING_FILE;
     message := lit "Attachment file not uploaded: " ++ filename |}.

Definition missingAttachmentIssue (record : jsobject) : Issue :=
  {| rowNumber := lookupProp record "_rowNumber";
     fieldName := "attachment";
     errorType := MISSING_ATTACHMENT;
     message := lit "No attachment specified for this record" |}.

(** The report lists the issues of the rows, row after row. *)
Definition madeOf (rep : Report) (rows : list (list Issue * list Issue)) : Prop :=
  errors rep = concat (map fst rows) /\ warnings rep = concat (map snd rows).

(** The attachment rule for one record and its row.  A named attachment
    is a non-empty string; it is looked up under its trimmed name. *)
Definition attachmentRule (st : option (gmap jsstring Attachment))
    (r : jsobject) (row : list Issue * list Issue) : Prop :=
  (forall s, lookupProp r "attachment" = JStr s -> s <> [] ->
     storeHas st (trim s) = false ->
     In (missingFileIssue r (trim s)) (fst row)
     /\ (forall i, In i (snd row) -> errorType i <> MISSING_ATTACHMENT)
     /\ (forall m, st = Some m ->
           generateInstrumentXml r (App.getAttachmentBase64 m)
           = instrumentTemplate r (JStr s) (JStr [])))
  /\ (truthy (lookupProp r "attachment") = false ->
      In (missingAttachmentIssue r) (snd row)
      /\ (forall i, In i (fst row) ->
            errorType i <> MISSING_FILE /\ errorType i <> MISSING_ATTACHMENT)
      /\ (forall getAttachmentBase64,
            generateInstrumentXml r getAttachmentBase64
            = instrumentTemplate r (JStr []) (JStr []))).

(** The end of a fragment whose attachment element has the name [name]
    and no text. *)
Definition emptyAttachmentElement (name : jsval) : jsstring :=
  lit "<attachment name=" ++ dquote ++ escapeXml name ++ dquote
  ++ lit "></attachment>" ++ newline ++ lit "    </instrument>".

(** The rule for a company transferor without a registration number:
    an issue on [transferor.rocNo], an error of the strict validator and
    a warning of the lenient one. *)
Definition companyRule (v : validator)
    (r : jsobject) (row : list Issue * list Issue) : Prop :=
  forall party type rocNo,
    lookupProp r "transferor" = JObj party ->
    lookupProp party "type" = type ->
    type = JStr (lit "1") \/ type = JNum 1 ->
    lookupProp party "rocNo" = rocNo ->
    rocNo = JUndefined \/ rocNo = JNull \/ rocNo = JStr [] ->
    exists i,
      In i (fst row ++ snd row)
      /\ rowNumber i = lookupProp r "_rowNumber"
      /\ fieldName i = "transferor.rocNo"
      /\ (errorType i = MISSING_FIELD \/ errorType i = MISSING_ID)
      /\ match v with
         | Strict => In i (fst row) /\ errorType i = MISSING_FIELD
         | Lenient => In i (snd row) /\ errorType i = MISSING_ID
         end.

(** The rule for the two date fields of a record. *)
Definition dateRule (r : jsobject) (row : list Issue * list Issue) : Prop :=
  forall field, In field dateFields ->
    (forall s, lookupProp r field = JStr s -> isDDMMYYYY s ->
       countIssues INVALID_DATE field (fst row) = 0%nat
       /\ countIssues INVALID_DATE field (snd row) = 0%nat)
    /\ (forall s, lookupProp r field = JStr s -> s <> [] -> ~ isDDMMYYYY s ->
          countIssues INVALID_DATE field (fst row) = 1%nat
          /\ countIssues INVALID_DATE field (snd row) = 0%nat)
    /\ (lookupProp r field = JUndefined \/ lookupProp r field = JNull
        \/ lookupProp r field = JStr [] ->
          countIssues INVALID_DATE field (fst row) = 0%nat
          /\ countIssues INVALID_DATE field (snd row) = 0%nat).

(** The rule for an attachment cell that holds white space only. *)
Definition blankAttachmentRule (r : jsobject) (row : list Issue * list Issue) : Prop :=
  forall s, lookupProp r "attachment" = JStr s -> s <> [] ->
    Forall (fun c => isWhiteSpace c = true) s ->
    trim s = []
    /\ In (missingFileIssue r []) (fst row)
    /\ (forall i, In i (snd row) -> errorType i <> MISSING_ATTACHMENT).

(* ------------------------------------------------------------------ *)
(** *** Sample data *)

(** A company transferor without registration number, a well-formed
    and an ill-formed date, and an attachment that was not uploaded. *)
Definition sampleCompany : jsobject :=
  [ ("_rowNumber", JNum 2);
    ("refNo", JStr (lit "REF001"));
    ("instrumentDate", JStr (lit "15/12/2024"));
    ("instrumentDateReceive", JStr (lit "2024-12-16"));
    ("principal", JStr (lit "-1"));
    ("transferor", JObj [("type", JStr (lit "1")); ("name", JStr (lit "ACME & CO"))]);
    ("transferee", JObj [("type", JNum 0); ("icNo", JStr (lit "800101145566"))]);
    ("attachment", JStr (lit " missing.pdf ")) ].

(** A record whose attachment cell holds two spaces. *)
Definition sampleBlank : jsobject :=
  [ ("_rowNumber", JNum 3);
    ("refNo", JStr (lit "REF002"));
    ("attachment", JStr (lit "  ")) ].

(** A record that names no attachment. *)
Definition sampleBare : jsobject :=
  [ ("_rowNumber", JNum 4); ("refNo", JStr (lit "REF003")) ].

Definition sampleStore : gmap jsstring Attachment :=
  <[ lit "present.pdf" := {| data := JStr (lit "QUJD"); fileSize := 3 |} ]> ∅.

(** A record whose attachment is a file of [n] letters A in base64. *)
Definition sampleBig : jsobject :=
  [ ("_rowNumber", JNum 5); ("attachment", JStr (lit "big.pdf")) ].

Definition bigStore (n : nat) : gmap jsstring Attachment :=
  <[ lit "big.pdf" := {| data := JStr (repeat 65%N n); fileSize := Z.of_nat n |} ]> ∅.

(* ================================================================== *)
(** ** Notions used to state further properties *)
(* ================================================================== *)

(** Consecutive groups are cut only when needed: the first record of a
    group did not fit into the batch of the group before it. *)
Definition cutWhenFull (getAttachmentBase64 : jsstring -> completion jsval)
    (groups : list (list jsobject)) : Prop :=
  forall k g r t,
    groups !! k = Some g ->
    groups !! S k = Some (r :: t) ->
    MAX_BATCH_SIZE
    < accumulated (map (fun x => generateInstrumentXml x getAttachmentBase64) g)
      + blobSize (generateInstrumentXml r getAttachmentBase64).

(** The occurrences of a code unit in a string. *)
Fixpoint countChar (c : codeunit) (s : jsstring) : nat :=
  match s with
  | [] => 0%nat
  | x :: rest => ((if (x =? c)%N then 1 else 0) + countChar c rest)%nat
  end.

(** The characters [escapeXml] replaces, the ampersand apart. *)
Definition isMarkup (c : codeunit) : bool :=
  ((c =? 60) || (c =? 62) || (c =? 34) || (c =? 39))%N.

(** The class [runValidation] gives an issue in the list it renders:
    [error] for the three blocking types, [warning] for the others. *)
Definition issueClass (issue : Issue) : string :=
  match errorType issue with
  | MISSING_FIELD | INVALID_DATE | MISSING_FILE => "error"
  | _ => "warning"
  end.

(** An attachment cell on which [.trim()] is not defined: a truthy
    value that is not a string. *)
Definition badAttachmentCell (r : jsobject) : bool :=
  truthy (lookupProp r "attachment")
  && match lookupProp r "attachment" with JStr _ => false | _ => true end.




(** The rule for the numeric fields of a record: text that starts with
    a digit is accepted whatever follows, [null] is reported, an absent
    or empty cell is not, and the report is never an error. *)
Definition numericRule (r : jsobject) (row : list Issue * list Issue) : Prop :=
  forall field, In field numericFields ->
    countIssues INVALID_NUMBER field (fst row) = 0%nat
    /\ (forall c s, lookupProp r field = JStr (c :: s) -> isDigit c = true ->
          countIssues INVALID_NUMBER field (snd row) = 0%nat)
    /\ (lookupProp r field = JUndefined \/ lookupProp r field = JStr [] ->
          countIssues INVALID_NUMBER field (snd row) = 0%nat)
    /\ (lookupProp r field = JNull ->
          countIssues INVALID_NUMBER field (snd row) = 1%nat)
    /\ countIssues INVALID_NUMBER field (snd row)
       = (if negb (isUndefined (lookupProp r field))
             && negb (isEmptyString (lookupProp r field))
             && parseFloatIsNaN (lookupProp r field)
          then 1%nat else 0%nat).

(** After a run without errors, a named attachment is in the store and
    its data is the text of the attachment element. *)
Definition embeddedRule (m : gmap jsstring Attachment) (r : jsobject) : Prop :=
  forall s, lookupProp r "attachment" = JStr s -> s <> [] ->
    exists a,
      m !! trim s = Some a
      /\ generateInstrumentXml r (App.getAttachmentBase64 m)
         = instrumentTemplate r (JStr s) (jsOr (data a) (JStr [])).

(** A record the lenient validator accepts when [present.pdf] is in the
    store. *)
Definition sampleValid : jsobject :=
  [ ("_rowNumber", JNum 2);
    ("refNo", JStr (lit "REF001"));
    ("instrumentDate", JStr (lit "15/12/2024"));
    ("instrumentDateReceive", JStr (lit "16/12/2024"));
    ("principal", JStr (lit "-1"));
    ("typeOfInstrument", JStr (lit "1"));
    ("transferor", JObj [("type", JStr (lit "1")); ("name", JStr (lit "ACME & CO"));
                         ("rocNo", JStr (lit "123456-X"))]);
    ("transferee", JObj [("type", JStr (lit "0")); ("name", JStr (lit "ALI BIN ABU"));
                         ("icNo", JStr (lit "800101145566"))]);
    ("consideration", JStr (lit "100000.00"));
    ("noOfCopy", JStr (lit "1"));
    ("subsidiary", JNull);
    ("attachment", JStr (lit " present.pdf ")) ].

(* ================================================================== *)
(** ** The parser: from rows to records *)
(* ================================================================== *)





(** [s.padStart(n, c)] for a filler of one character. *)
Definition padStart (n : nat) (c : codeunit) (s : jsstring) : jsstring :=
  repeat c (n - length s) ++ s.

(** What [formatDate] reads off a valid [Date]: [getDate()],
    [getMonth()] and [getFullYear()]. *)
Record DateFields := { getDate : Z; getMonth : Z; getFullYear : Z }.

Section Parser.

(** [new Date(value)]: [None] when [getTime()] is [NaN].  How text is
  read as a date is left to the engine, so it is a parameter.  A cell
  that already is a [Date] object does not occur among [jsval]. *)
Variable newDate : jsval -> option DateFields.

Definition formatDate (value : jsval) : jsval :=
if negb (truthy value) then JStr []
else if match value with JStr _ => true | _ => false end
        && regexTest DATE_REGEX value
then value
else
  match newDate value with
  | None => value
  | Some date =>
      let day := padStart 2 48%N (numberToString (getDate date)) in
      let month := padStart 2 48%N (numberToString (getMonth date + 1)) in
      let year := getFullYear date in
      JStr (day ++ lit "/" ++ month ++ lit "/" ++ numberToString year)
  end.







End Parser.

(* ================================================================== *)
(** ** The application: required attachments and uploads *)
(* ================================================================== *)

Fixpoint strEqb (a b : jsstring) : bool :=
  match a, b with
  | [], [] => true
  | x :: a', y :: b' => (x =? y)%N && strEqb a' b'
  | _, _ => false
  end.

(** [array.includes(filename)] *)
Definition arrayIncludes (l : list jsstring) (filename : jsstring) : bool :=
  existsb (strEqb filename) l.

(** The [forEach] of [extractRequiredAttachments]: the trimmed names of
    the rows, each once, in the order of first mention. *)
Fixpoint extractRequiredLoop (rows : list jsobject) (required : list jsstring)
    : completion (list jsstring) :=
  match rows with
  | [] => Normal required
  | row :: rest =>
      let attachment := lookupProp row "attachment" in
      if truthy attachment then
        trimmed <- callTrim attachment ;;
        if truthy (JStr trimmed) then
          filename <- callTrim attachment ;;
          if negb (arrayIncludes required filename)
          then extractRequiredLoop rest (required ++ [filename])
          else extractRequiredLoop rest required
        else extractRequiredLoop rest required
      else extractRequiredLoop rest required
  end.

(** [s.split(sep)] for a separator of one character. *)
Fixpoint splitOn (sep : codeunit) (s : jsstring) : list jsstring :=
  match s with
  | [] => [[]]
  | c :: rest =>
      if (c =? sep)%N then [] :: splitOn sep rest
      else match splitOn sep rest with
           | h :: t => (c :: h) :: t
           | [] => [[c]]
           end
  end.

(** A file picked by the user: its name, the data URL the [FileReader]
    produces for it, and its size. *)
Record PickedFile := { pickedName : jsstring; dataUrl : jsstring; pickedSize : Z }.

(** [reader.result.split(',')[1]] *)
Definition readFileAsBase64 (file : PickedFile) : jsval :=
  match splitOn 44%N (dataUrl file) with
  | _ :: part :: _ => JStr part
  | _ => JUndefined
  end.

Module AppState.

(** The part of [state] the attachment step works on, and whether the
  button to the next step is disabled. *)
Record t := {
mappedData : option (list jsobject);
requiredAttachments : list jsstring;
attachmentFiles : gmap jsstring Attachment;
matchedCount : Z;
missingCount : Z;
proceedDisabled : bool
}.

Definition extractRequiredAttachments (state : t) : completion t :=
match mappedData state with
| None =>
    Normal {| mappedData := mappedData state;
              requiredAttachments := [];
              attachmentFiles := ∅;
              matchedCount := matchedCount state;
              missingCount := missingCount state;
              proceedDisabled := proceedDisabled state |}
| Some rows =>
    required <- extractRequiredLoop rows [] ;;
    Normal {| mappedData := mappedData state;
              requiredAttachments := required;
              attachmentFiles := ∅;
              matchedCount := 0;
              missingCount := Z.of_nat (length required);
              proceedDisabled := proceedDisabled state |}
end.

(** The [forEach] of [updateAttachmentStatus]. *)
Fixpoint countStatus (required : list jsstring) (files : gmap jsstring Attachment)
  (matched missing : Z) : Z * Z :=
match required with
| [] => (matched, missing)
| filename :: rest =>
    match files !! filename with
    | Some _ => countStatus rest files (matched + 1) missing
    | None => countStatus rest files matched (missing + 1)
    end
end.

Definition updateProceedButton (state : t) : t :=
let hasData :=
  match mappedData state with
  | Some rows => (0 <? length rows)%nat
  | None => false
  end in
let attachmentsOk :=
  (length (requiredAttachments state) =? 0)%nat || (missingCount state =? 0) in
{| mappedData := mappedData state;
   requiredAttachments := requiredAttachments state;
   attachmentFiles := attachmentFiles state;
   matchedCount := matchedCount state;
   missingCount := missingCount state;
   proceedDisabled := negb (hasData && attachmentsOk) |}.

Definition updateAttachmentStatus (state : t) : t :=
let counts := countStatus (requiredAttachments state) (attachmentFiles state) 0 0 in
updateProceedButton
  {| mappedData := mappedData state;
     requiredAttachments := requiredAttachments state;
     attachmentFiles := attachmentFiles state;
     matchedCount := fst counts;
     missingCount := snd counts;
     proceedDisabled := proceedDisabled state |}.

(** The [for (const file of files)] loop of [handleAttachmentUpload]. *)
Fixpoint storeFiles (files : list PickedFile) (store : gmap jsstring Attachment)
  : gmap jsstring Attachment :=
match files with
| [] => store
| file :: rest =>
    storeFiles rest
      (<[ pickedName file :=
            {| data := readFileAsBase64 file; fileSize := pickedSize file |} ]> store)
end.

(** [handleAttachmentUpload]: nothing for an empty selection; otherwise
  the files are stored, each read succeeding, and the list is rendered
  again, which updates the counts and the button (the page has the
  list element, so [renderRequiredFilesList] does not return early). *)
Definition handleAttachmentUpload (state : t) (files : list PickedFile) : t :=
match files with
| [] => state
| _ :: _ =>
    updateAttachmentStatus
      {| mappedData := mappedData state;
         requiredAttachments := requiredAttachments state;
         attachmentFiles := storeFiles files (attachmentFiles state);
         matchedCount := matchedCount state;
         missingCount := missingCount state;
         proceedDisabled := proceedDisabled state |}
end.


End AppState.

(** [escapeHtml] of the application: four replacements, the apostrophe
    is left as it is. *)
Definition escapeHtml (str : jsval) : jsstring :=
  match str with
  | JNull | JUndefined => []
  | _ =>
      replaceAll 34%N (lit "&quot;")
        (replaceAll 62%N (lit "&gt;")
           (replaceAll 60%N (lit "&lt;")
              (replaceAll 38%N (lit "&amp;") (ToString str))))
  end.

(* ------------------------------------------------------------------ *)
(** *** Notions used to state properties of the parser *)







Definition twoDigits (n : Z) : bool :=
  match padStart 2 48%N (numberToString n) with
  | [a; b] => isDigit a && isDigit b
  | _ => false
  end.

Definition fourDigits (n : Z) : bool :=
  match numberToString n with
  | [a; b; c; d] => isDigit a && isDigit b && isDigit c && isDigit d
  | _ => false
  end.

(** A date that an engine can return: a day of the month, a month
    counted from 0, and a year of four digits. *)
Definition plausibleDate (d : DateFields) : Prop :=
  1 <= getDate d <= 31 /\ 0 <= getMonth d <= 11 /\ 1000 <= getFullYear d <= 9999.

(** An engine that reads ISO text of the first of January 2024 only. *)
Definition sampleNewDate (v : jsval) : option DateFields :=
  match v with
  | JStr s =>
      if strEqb s (lit "2024-01-01")
      then Some {| getDate := 1; getMonth := 0; getFullYear := 2024 |}
      else None
  | _ => None
  end.


(* ------------------------------------------------------------------ *)
(** *** Notions used to state properties of the application *)

(** The file a record asks for: its attachment cell, trimmed, when the
    cell is text that is not white space only. *)
Definition requiredName (r : jsobject) : option jsstring :=
  match lookupProp r "attachment" with
  | JStr s => match trim s with [] => None | n => Some n end
  | _ => None
  end.

(** The entry [handleAttachmentUpload] stores for a file. *)
Definition entryOf (file : PickedFile) : Attachment :=
  {| data := readFileAsBase64 file; fileSize := pickedSize file |}.

(** The last file of a selection that has the given name. *)
Definition lastNamed (files : list PickedFile) (name : jsstring) : option PickedFile :=
  find (fun f => strEqb (pickedName f) name) (rev files).

(** What [escapeHtml] does to one code unit. *)
Definition escapeHtmlChar (c : codeunit) : jsstring :=
  (if c =? 38 then lit "&amp;"
   else if c =? 60 then lit "&lt;"
   else if c =? 62 then lit "&gt;"
   else if c =? 34 then lit "&quot;"
   else [c])%N.

(** Two files picked together, the second twice, and the state after
    a sheet of two records naming them was parsed. *)
Definition sampleFiles : list PickedFile :=
  [ {| pickedName := lit "a.pdf";
       dataUrl := lit "data:application/pdf;base64,QUJD";
       pickedSize := 3 |};
    {| pickedName := lit "b.pdf";
       dataUrl := lit "data:application/pdf;base64,REVG";
       pickedSize := 3 |};
    {| pickedName := lit "b.pdf";
       dataUrl := lit "data:application/pdf;base64,R0hJ";
       pickedSize := 3 |} ].

Definition sampleRecords : list jsobject :=
  [ [("_rowNumber", JNum 2); ("attachment", JStr (lit " a.pdf "))];
    [("_rowNumber", JNum 3); ("attachment", JStr (lit "b.pdf"))];
    [("_rowNumber", JNum 4); ("attachment", JStr (lit "a.pdf"))];
    [("_rowNumber", JNum 5); ("attachment", JStr (lit "  "))] ].

Definition initialState : AppState.t :=
  {| AppState.mappedData := None;
     AppState.requiredAttachments := [];
     AppState.attachmentFiles := ∅;
     AppState.matchedCount := 0;
     AppState.missingCount := 0;
     AppState.proceedDisabled := true |}.


(* ================================================================== *)
(** * Properties *)
(* ================================================================== *)

Ltac split_ands := repeat match goal with |- _ /\ _ => split end.

Ltac party_cases H :=
  repeat match type of H with
         | context [if ?b then _ else _] => destruct b
         end;
  cbn [fst snd In app] in H.

(* ------------------------------------------------------------------ *)
(** ** The embedding on concrete inputs *)

Example utf8Encode_latin : utf8Encode [233%N] = [195%N; 169%N].
Proof. reflexivity. Qed.

Example utf8Encode_euro : utf8Encode [8364%N] = [226%N; 130%N; 172%N].
Proof. reflexivity. Qed.

Example utf8Encode_pair :
  utf8Encode [55357%N; 56832%N] = [240%N; 159%N; 152%N; 128%N].
Proof. reflexivity. Qed.

Example utf8Encode_lone_surrogate :
  utf8Encode [55357%N; 65%N] = [239%N; 191%N; 189%N; 65%N].
Proof. reflexivity. Qed.

(** Characters and bytes differ outside ASCII, and a pair split over two
    strings is longer than the pair. *)
Example blobSize_not_length :
  strLength [8364%N] = 1 /\ blobSize [8364%N] = 3
  /\ blobSize [55357%N] + blobSize [56832%N] = 6
  /\ blobSize ([55357%N] ++ [56832%N]) = 4.
Proof. vm_compute. repeat split. Qed.

Example envelope_size :
  strLength XML_HEADER = 95 /\ blobSize XML_HEADER = 95
  /\ strLength XML_FOOTER = 16 /\ blobSize XML_FOOTER = 16.
Proof. vm_compute. repeat split. Qed.

Example trim_example : trim (lit "  a b.pdf  ") = lit "a b.pdf".
Proof. reflexivity. Qed.

Example numberToString_examples :
  numberToString 0 = lit "0" /\ numberToString 12 = lit "12"
  /\ numberToString (-3) = lit "-3".
Proof. vm_compute. repeat split. Qed.

Example splitDot_example : splitDot "transferor.type" = ["transferor"; "type"].
Proof. reflexivity. Qed.

Example getNestedValue_examples :
  getNestedValue (JObj sampleCompany) "transferor.name" = JStr (lit "ACME & CO")
  /\ getNestedValue (JObj sampleCompany) "transferor.rocNo" = JUndefined
  /\ getNestedValue (JObj sampleBare) "transferor.name" = JUndefined.
Proof. vm_compute. repeat split. Qed.

Example DATE_REGEX_examples :
  regexTest DATE_REGEX (JStr (lit "15/12/2024")) = true
  /\ regexTest DATE_REGEX (JStr (lit "15/12/2024 ")) = false
  /\ regexTest DATE_REGEX (JStr (lit "5/12/2024")) = false
  /\ regexTest DATE_REGEX (JStr (lit "2024-12-16")) = false
  /\ regexTest DATE_REGEX (JNum 15122024) = false.
Proof. vm_compute. repeat split. Qed.

Example parseFloat_examples :
  parseFloatIsNaN (JStr (lit "  -1")) = false
  /\ parseFloatIsNaN (JStr (lit "12abc")) = false
  /\ parseFloatIsNaN (JStr (lit ".5")) = false
  /\ parseFloatIsNaN (JStr (lit "abc")) = true
  /\ parseFloatIsNaN (JStr (lit "-")) = true
  /\ parseFloatIsNaN JNull = true
  /\ parseFloatIsNaN (JNum 7) = false.
Proof. vm_compute. repeat split. Qed.

Example escapeXml_example :
  escapeXml (JStr (lit "ACME & CO <x>")) = lit "ACME &amp; CO &lt;x&gt;"
  /\ escapeXml (JNum 43) = lit "43"
  /\ xmlUnescape (lit "&lt;a&#65;&#x42;&amp;amp;") = lit "<aAB&amp;".
Proof. vm_compute. repeat split. Qed.

(** The issues the two validators report for [sampleCompany], by field
    and type: the errors, then the warnings. *)
Example strict_issues_of_sampleCompany :
  match ValidatorStrict.validateRecord sampleCompany (Some sampleStore) with
  | Normal (es, ws) =>
      skipn 16 (map (fun i => (fieldName i, errorType i)) es)
      = [ ("instrumentDateReceive", INVALID_DATE);
          ("attachment", MISSING_FILE);
          ("transferor.rocNo", MISSING_FIELD);
          ("transferor.busType", MISSING_FIELD);
          ("transferee.nationality", MISSING_FIELD) ]
      /\ ws = []
  | Throw => False
  end.
Proof. vm_compute. split; reflexivity. Qed.

Example lenient_issues_of_sampleCompany :
  match ValidatorLenient.validateRecord sampleCompany (Some sampleStore) with
  | Normal (es, ws) =>
      map (fun i => (fieldName i, errorType i)) es
      = [ ("typeOfInstrument", MISSING_FIELD);
          ("transferee.name", MISSING_FIELD);
          ("consideration", MISSING_FIELD);
          ("noOfCopy", MISSING_FIELD);
          ("instrumentDateReceive", INVALID_DATE);
          ("attachment", MISSING_FILE) ]
      /\ map (fun i => (fieldName i, errorType i)) ws
         = [ ("transferor.rocNo", MISSING_ID) ]
  | Throw => False
  end.
Proof. vm_compute. split; reflexivity. Qed.

(** The validators raise on an attachment cell that holds a number. *)
Example validateAll_raises :
  ValidatorStrict.validateAll [[("attachment", JNum 7)]] None = Throw
  /\ ValidatorLenient.validateAll [[("attachment", JNum 7)]] None = Throw.
Proof. split; reflexivity. Qed.

(** Three small records go into one batch. *)
Example three_small_records :
  map (fun b => (OutputBatch.filename b, OutputBatch.recordCount b))
    (generateXml (App.getAttachmentBase64 sampleStore)
       [sampleCompany; sampleBlank; sampleBare])
  = [(lit "Output.xml", 3)].
Proof. vm_compute. reflexivity. Qed.

(* ================================================================== *)
(** ** Escaping *)
(* ================================================================== *)

Section Escaping.

Local Abbreviation escapeString := (fun s => escapeXml (JStr s)).

Lemma replaceAll_app c r a b :
  replaceAll c r (a ++ b) = replaceAll c r a ++ replaceAll c r b.
Proof.
  induction a as [|x a IH]; simpl; [reflexivity|].
  rewrite IH, app_assoc. reflexivity.
Qed.

Lemma replaceAll_single_ne c r x :
  x <> c -> replaceAll c r [x] = [x].
Proof.
  intros H. cbn [replaceAll]. rewrite (proj2 (N.eqb_neq x c) H). reflexivity.
Qed.

Lemma escapeString_cons x s :
  escapeString (x :: s) = escapeChar x ++ escapeString s.
Proof.
  unfold escapeXml, ToString.
  change (replaceAll 38%N (lit "&amp;") (x :: s))
    with ((if (x =? 38)%N then lit "&amp;" else [x])
          ++ replaceAll 38%N (lit "&amp;") s).
  rewrite !replaceAll_app. f_equal.
  unfold escapeChar.
  destruct (N.eqb_spec x 38) as [->|H38]; [reflexivity|].
  destruct (N.eqb_spec x 60) as [->|H60]; [reflexivity|].
  destruct (N.eqb_spec x 62) as [->|H62]; [reflexivity|].
  destruct (N.eqb_spec x 34) as [->|H34]; [reflexivity|].
  destruct (N.eqb_spec x 39) as [->|H39]; [reflexivity|].
  rewrite !replaceAll_single_ne by assumption. reflexivity.
Qed.

Lemma escapeString_flat_map s : escapeString s = flat_map escapeChar s.
Proof.
  induction s as [|x s IH]; [reflexivity|].
  rewrite escapeString_cons, IH. reflexivity.
Qed.

Lemma entityAt_not_amp x t : x <> 38%N -> entityAt entities (x :: t) = None.
Proof.
  intros H.
  assert (E : forall pre, startsWith (38%N :: pre) (x :: t) = false).
  { intros pre. cbn [startsWith].
    rewrite (proj2 (N.eqb_neq 38 x)) by congruence. reflexivity. }
  unfold entities. cbn [entityAt].
  change (lit "&amp;") with (38%N :: lit "amp;").
  change (lit "&lt;") with (38%N :: lit "lt;").
  change (lit "&gt;") with (38%N :: lit "gt;").
  change (lit "&quot;") with (38%N :: lit "quot;").
  change (lit "&apos;") with (38%N :: lit "apos;").
  rewrite !E. reflexivity.
Qed.

Lemma referenceAt_not_amp x t : x <> 38%N -> referenceAt (x :: t) = None.
Proof.
  intros H. unfold referenceAt, charRefAt.
  rewrite entityAt_not_amp by assumption.
  change (lit "&#x") with (38%N :: lit "#x").
  change (lit "&#") with (38%N :: lit "#").
  cbn [startsWith].
  rewrite (proj2 (N.eqb_neq 38 x)) by congruence. reflexivity.
Qed.

Lemma unescape_escapeChar x t :
  unescapeFrom 0 (escapeChar x ++ t) = x :: unescapeFrom 0 t.
Proof.
  unfold escapeChar.
  destruct (N.eqb_spec x 38) as [->|H38]; [reflexivity|].
  destruct (N.eqb_spec x 60) as [->|H60]; [reflexivity|].
  destruct (N.eqb_spec x 62) as [->|H62]; [reflexivity|].
  destruct (N.eqb_spec x 34) as [->|H34]; [reflexivity|].
  destruct (N.eqb_spec x 39) as [->|H39]; [reflexivity|].
  change ([x] ++ t) with (x :: t).
  cbn [unescapeFrom]. rewrite referenceAt_not_amp by assumption. reflexivity.
Qed.

Lemma unescape_escapeString s : xmlUnescape (escapeString s) = s.
Proof.
  unfold xmlUnescape. rewrite escapeString_flat_map.
  induction s as [|x s IH]; [reflexivity|].
  simpl flat_map. rewrite unescape_escapeChar, IH. reflexivity.
Qed.

End Escaping.

(** C7. Escaping a string with [escapeXml] and then unescaping the
    result gives the string back; what [escapeXml] produces is the
    string with each of the five reserved characters replaced by its
    entity reference; and [null] and [undefined] escape to the empty
    string, not to their names. *)
Theorem escapeXml_roundtrip :
  (forall s : jsstring, xmlUnescape (escapeXml (JStr s)) = s)
  /\ (forall s : jsstring, escapeXml (JStr s) = flat_map escapeChar s)
  /\ escapeXml JNull = []
  /\ escapeXml JUndefined = []
  /\ escapeXml JNull <> lit "null"
  /\ escapeXml JUndefined <> lit "undefined".
Proof.
  repeat split.
  - intros s. apply unescape_escapeString.
  - intros s. apply escapeString_flat_map.
  - discriminate.
  - discriminate.
Qed.

(* ================================================================== *)
(** ** Byte sizes *)
(* ================================================================== *)

Section Utf8.

Lemma utf8Encode_single_app c b :
  noLeadingLow b -> utf8Encode (c :: b) = utf8Encode [c] ++ utf8Encode b.
Proof.
  intros Hb. cbn [utf8Encode].
  destruct (isHighSurrogate c).
  - destruct b as [|d b']; [rewrite app_nil_r; reflexivity|].
    cbn in Hb. rewrite Hb. reflexivity.
  - destruct (isLowSurrogate c); rewrite <- app_assoc; reflexivity.
Qed.

Lemma utf8Encode_cons2 c d rest :
  utf8Encode (c :: d :: rest) =
  if isHighSurrogate c then
    if isLowSurrogate d
    then utf8Bytes (pairCodePoint c d) ++ utf8Encode rest
    else utf8Bytes 65533 ++ utf8Encode (d :: rest)
  else if isLowSurrogate c then utf8Bytes 65533 ++ utf8Encode (d :: rest)
  else utf8Bytes c ++ utf8Encode (d :: rest).
Proof. reflexivity. Qed.

Lemma utf8Encode_app_aux b :
  noLeadingLow b ->
  forall a,
    utf8Encode (a ++ b) = utf8Encode a ++ utf8Encode b
    /\ forall c, utf8Encode (c :: a ++ b) = utf8Encode (c :: a) ++ utf8Encode b.
Proof.
  intros Hb. induction a as [|x a [IHr IHq]].
  - split; [reflexivity|]. intros c. apply utf8Encode_single_app, Hb.
  - split; [apply IHq|]. intros c.
    change ((x :: a) ++ b) with (x :: a ++ b).
    rewrite !(utf8Encode_cons2 c x).
    destruct (isHighSurrogate c).
    + destruct (isLowSurrogate x).
      * rewrite IHr, app_assoc. reflexivity.
      * rewrite (IHq x), app_assoc. reflexivity.
    + destruct (isLowSurrogate c);
        rewrite (IHq x), app_assoc; reflexivity.
Qed.

Lemma utf8Encode_app a b :
  noLeadingLow b -> utf8Encode (a ++ b) = utf8Encode a ++ utf8Encode b.
Proof. intros Hb. apply (utf8Encode_app_aux b Hb a). Qed.

Lemma blobSize_app a b :
  noLeadingLow b -> blobSize (a ++ b) = blobSize a + blobSize b.
Proof.
  intros Hb. unfold blobSize. rewrite utf8Encode_app by assumption.
  rewrite length_app. lia.
Qed.

Lemma blobSize_nonneg s : 0 <= blobSize s.
Proof. unfold blobSize. lia. Qed.

End Utf8.

(* ================================================================== *)
(** ** The batching loop *)
(* ================================================================== *)

Section Batching.

Variable getAttachmentBase64 : jsstring -> completion jsval.

Local Abbreviation frag := (fun r => generateInstrumentXml r getAttachmentBase64).

Lemma fragment_starts_with_newline record :
  exists t, generateInstrumentXml record getAttachmentBase64 = 10%N :: t.
Proof.
  unfold generateInstrumentXml, instrumentTemplate.
  eexists. reflexivity.
Qed.

Lemma fragments_start_with_newline (g : list jsobject) :
  Forall (fun s => exists t, s = 10%N :: t) (map frag g).
Proof.
  induction g as [|r g IH]; constructor; [|assumption].
  apply fragment_starts_with_newline.
Qed.

Lemma fragmentsSize_app l x :
  fragmentsSize (l ++ [x]) = fragmentsSize l + blobSize x.
Proof.
  induction l as [|y l IH]; cbn [fragmentsSize app]; lia.
Qed.

Lemma fragmentsSize_nonneg l : 0 <= fragmentsSize l.
Proof.
  induction l as [|y l IH]; cbn [fragmentsSize]; [lia|].
  pose proof (blobSize_nonneg y). lia.
Qed.

Lemma fragmentsSize_In l x : In x l -> blobSize x <= fragmentsSize l.
Proof.
  induction l as [|y l IH]; intros Hin; [destruct Hin|].
  cbn [fragmentsSize].
  pose proof (blobSize_nonneg y).
  pose proof (fragmentsSize_nonneg l) as Hn.
  destruct Hin as [->|Hin]; [lia|].
  specialize (IH Hin). lia.
Qed.

Lemma concat_footer_noLeadingLow l :
  Forall (fun s => exists t, s = 10%N :: t) l ->
  noLeadingLow (concat l ++ XML_FOOTER).
Proof.
  intros Hl. destruct Hl as [|s l [t ->] _]; reflexivity.
Qed.

Lemma blobSize_concat_footer l :
  Forall (fun s => exists t, s = 10%N :: t) l ->
  blobSize (concat l ++ XML_FOOTER) = fragmentsSize l + blobSize XML_FOOTER.
Proof.
  induction 1 as [|s l Hs Hl IH]; [cbn [concat app fragmentsSize]; lia|].
  cbn [concat fragmentsSize]. rewrite <- app_assoc.
  rewrite blobSize_app by (apply concat_footer_noLeadingLow; assumption).
  rewrite IH. lia.
Qed.

(** The size recomputed from the finished document is the size the
    loop accumulated: the envelope is ASCII, so its character count is
    its byte count, and a fragment starts with a line feed, so no
    surrogate pair forms across a join. *)
Lemma content_size l :
  Forall (fun s => exists t, s = 10%N :: t) l ->
  blobSize (XML_HEADER ++ concat l ++ XML_FOOTER) = accumulated l.
Proof.
  intros Hl.
  rewrite blobSize_app by (apply concat_footer_noLeadingLow; assumption).
  rewrite blobSize_concat_footer by assumption.
  unfold accumulated.
  replace (blobSize XML_HEADER) with (strLength XML_HEADER) by (vm_compute; reflexivity).
  replace (blobSize XML_FOOTER) with (strLength XML_FOOTER) by (vm_compute; reflexivity).
  lia.
Qed.

Lemma holds_empty : holds getAttachmentBase64 [] emptyBatch.
Proof.
  unfold holds, emptyBatch, accumulated.
  cbn [CurrentBatch.instruments CurrentBatch.size CurrentBatch.recordCount
       map fragmentsSize length].
  split_ands; try lia; reflexivity.
Qed.

Lemma finalize_batchOf g cur n :
  holds getAttachmentBase64 g cur -> g <> [] ->
  batchOf getAttachmentBase64 g (finalizeBatch cur n).
Proof.
  intros (Hi & Hs & Hc & Hb) Hg.
  assert (Hsize : blobSize (XML_HEADER ++ concat (map frag g) ++ XML_FOOTER)
                  = accumulated (map frag g))
    by (apply content_size, fragments_start_with_newline).
  unfold batchOf, finalizeBatch.
  cbn [OutputBatch.content OutputBatch.size OutputBatch.recordCount].
  rewrite Hi, Hc.
  split_ands; [assumption | reflexivity | reflexivity | reflexivity
              | exact Hsize |].
  intros H1. rewrite Hsize, <- Hs. apply Hb. lia.
Qed.

Lemma generateXml_loop_spec rs :
  forall batches cur gs g,
    Forall2 (batchOf getAttachmentBase64) gs batches ->
    holds getAttachmentBase64 g cur ->
    exists gs' g',
      Forall2 (batchOf getAttachmentBase64) gs'
        (fst (generateXml_loop getAttachmentBase64 rs batches cur))
      /\ holds getAttachmentBase64 g' (snd (generateXml_loop getAttachmentBase64 rs batches cur))
      /\ concat gs' ++ g' = concat gs ++ g ++ rs.
Proof.
  induction rs as [|r rest IH]; intros batches cur gs g Hgs Hcur.
  - exists gs, g. cbn [generateXml_loop fst snd]. rewrite app_nil_r. auto.
  - cbn [generateXml_loop].
    destruct ((CurrentBatch.size cur + blobSize (frag r) >? MAX_BATCH_SIZE)
              && (0 <? length (CurrentBatch.instruments cur))%nat) eqn:Hcond.
    + apply andb_true_iff in Hcond as [_ Hlen].
      apply Nat.ltb_lt in Hlen.
      assert (Hg : g <> []).
      { intros ->. destruct Hcur as (Hi & _). rewrite Hi in Hlen.
      cbn [map length] in Hlen. lia. }
      destruct (IH (batches ++ [finalizeBatch cur (Z.of_nat (length batches) + 1)])
                  {| CurrentBatch.instruments := [] ++ [frag r];
                     CurrentBatch.size :=
                       strLength XML_HEADER + strLength XML_FOOTER + blobSize (frag r);
                     CurrentBatch.recordCount := 0 + 1 |}
                  (gs ++ [g]) [r]) as (gs' & g' & H1 & H2 & H3).
      * apply Forall2_app; [assumption|].
        constructor; [|constructor]. apply finalize_batchOf; assumption.
      * unfold holds, accumulated.
        cbn [CurrentBatch.instruments CurrentBatch.size
             CurrentBatch.recordCount map fragmentsSize length app].
        split_ands; try lia; reflexivity.
      * exists gs', g'. split_ands; try assumption.
        rewrite H3, concat_app. cbn [concat app].
        rewrite app_nil_r, <- app_assoc. reflexivity.
    + destruct Hcur as (Hi & Hs & Hc & Hb).
      destruct (IH batches
                  {| CurrentBatch.instruments := CurrentBatch.instruments cur ++ [frag r];
                     CurrentBatch.size := CurrentBatch.size cur + blobSize (frag r);
                     CurrentBatch.recordCount := CurrentBatch.recordCount cur + 1 |}
                  gs (g ++ [r])) as (gs' & g' & H1 & H2 & H3).
      * assumption.
      * unfold holds. cbn [CurrentBatch.instruments CurrentBatch.size
                             CurrentBatch.recordCount].
        rewrite map_app, length_app. cbn [map length].
        unfold accumulated in *. rewrite fragmentsSize_app.
        split_ands; try (rewrite ?Hi, ?Hs, ?Hc; lia); [rewrite Hi; reflexivity|].
        intros Hlen.
        apply andb_false_iff in Hcond as [Hcond|Hcond].
        -- rewrite Z.gtb_ltb in Hcond. apply Z.ltb_ge in Hcond.
           exact Hcond.
        -- apply Nat.ltb_ge in Hcond. rewrite Hi, length_map in Hcond. lia.
      * exists gs', g'. split_ands; try assumption.
        rewrite H3, <- app_assoc. reflexivity.
Qed.

(** The batches of [generateXml] are the documents of consecutive,
    non-empty groups of the input. *)
Lemma generateXml_structure rs :
  exists gs,
    concat gs = rs
    /\ Forall2 (batchOf getAttachmentBase64) gs (generateXml getAttachmentBase64 rs).
Proof.
  destruct (generateXml_loop_spec rs [] emptyBatch [] [])
    as (gs' & g' & H1 & H2 & H3); [constructor | apply holds_empty |].
  unfold generateXml.
  destruct (generateXml_loop getAttachmentBase64 rs [] emptyBatch) as [batches cur].
  cbn [fst snd concat app] in *.
  destruct (0 <? length (CurrentBatch.instruments cur))%nat eqn:Hlen.
  - apply Nat.ltb_lt in Hlen.
    assert (Hg : g' <> []).
    { intros ->. destruct H2 as (Hi & _). rewrite Hi in Hlen.
      cbn [map length] in Hlen. lia. }
    exists (gs' ++ [g']). split.
    + rewrite concat_app. cbn [concat]. rewrite app_nil_r. exact H3.
    + apply Forall2_app; [assumption|].
      constructor; [|constructor]. apply finalize_batchOf; assumption.
  - apply Nat.ltb_ge in Hlen.
    assert (Hg : g' = []).
    { destruct H2 as (Hi & _). rewrite Hi, length_map in Hlen.
      destruct g'; [reflexivity|cbn [length] in Hlen; lia]. }
    subst g'. rewrite app_nil_r in H3. exists gs'. split; assumption.
Qed.

End Batching.

Section BatchProperties.

Variable getAttachmentBase64 : jsstring -> completion jsval.

Local Abbreviation frag := (fun r => generateInstrumentXml r getAttachmentBase64).

Lemma batchOf_bounds gs bs :
Forall2 (batchOf getAttachmentBase64) gs bs ->
Forall (fun b => 1 <= OutputBatch.recordCount b
                 /\ (1 < OutputBatch.recordCount b ->
                     OutputBatch.size b <= MAX_BATCH_SIZE)) bs.
Proof.
induction 1 as [|g b gs bs Hb _ IH]; constructor; [|exact IH].
destruct Hb as (Hg & _ & Hc & _ & _ & Hbound).
split; [|exact Hbound].
rewrite Hc. destruct g; [congruence|cbn [length]; lia].
Qed.

Lemma batchOf_oversized gs bs :
Forall2 (batchOf getAttachmentBase64) gs bs ->
Forall (fun g => forall r, In r g ->
                 MAX_BATCH_SIZE < blobSize (frag r) -> g = [r]) gs.
Proof.
induction 1 as [|g b gs bs Hb _ IH]; constructor; [|exact IH].
destruct Hb as (Hg & _ & Hc & _ & Hacc & Hbound).
intros r Hin Hbig.
assert (Hle : blobSize (frag r) <= OutputBatch.size b).
{ rewrite Hacc. unfold accumulated.
  pose proof (fragmentsSize_In (map frag g) (frag r) (in_map frag g r Hin)).
  cbv beta in *. unfold strLength. lia. }
destruct g as [|r1 [|r2 g]].
- destruct Hin.
- destruct Hin as [->|[]]. reflexivity.
- exfalso. cbn [length] in Hc.
  assert (OutputBatch.size b <= MAX_BATCH_SIZE) by (apply Hbound; lia).
  cbv beta in *. lia.
Qed.

Lemma batchOf_counts gs bs :
Forall2 (batchOf getAttachmentBase64) gs bs ->
sumRecordCount bs = Z.of_nat (length (concat gs)).
Proof.
induction 1 as [|g b gs bs Hb _ IH]; [reflexivity|].
destruct Hb as (_ & _ & Hc & _).
cbn [sumRecordCount concat]. rewrite length_app, IH, Hc. lia.
Qed.

Lemma finalizeBatch_name cur (n : nat) :
OutputBatch.filename (finalizeBatch cur (Z.of_nat n + 1)) = batchName (S n).
Proof.
unfold finalizeBatch. cbn [OutputBatch.filename].
destruct n as [|m]; [reflexivity|].
replace (Z.of_nat (S m) + 1 =? 1) with false by (symmetry; apply Z.eqb_neq; lia).
replace (Z.of_nat (S m) + 1) with (Z.of_nat (S (S m))) by lia.
reflexivity.
Qed.

Lemma names_snoc batches cur :
map OutputBatch.filename batches = map batchName (seq 1 (length batches)) ->
map OutputBatch.filename
  (batches ++ [finalizeBatch cur (Z.of_nat (length batches) + 1)])
= map batchName
    (seq 1 (length (batches ++ [finalizeBatch cur (Z.of_nat (length batches) + 1)]))).
Proof.
intros H. rewrite length_app. cbn [length].
rewrite Nat.add_1_r, seq_S, !map_app, H. cbn [map].
rewrite finalizeBatch_name. reflexivity.
Qed.

Lemma generateXml_loop_names rs :
forall batches cur,
  map OutputBatch.filename batches = map batchName (seq 1 (length batches)) ->
  map OutputBatch.filename
    (fst (generateXml_loop getAttachmentBase64 rs batches cur))
  = map batchName
      (seq 1 (length (fst (generateXml_loop getAttachmentBase64 rs batches cur)))).
Proof.
induction rs as [|r rest IH]; intros batches cur H; [exact H|].
cbn [generateXml_loop].
destruct ((CurrentBatch.size cur + blobSize (frag r) >? MAX_BATCH_SIZE)
          && (0 <? length (CurrentBatch.instruments cur))%nat).
- apply IH, names_snoc, H.
- apply IH, H.
Qed.

End BatchProperties.

Lemma generateXml_names getAttachmentBase64 rs :
  map OutputBatch.filename (generateXml getAttachmentBase64 rs)
  = map batchName (seq 1 (length (generateXml getAttachmentBase64 rs))).
Proof.
  unfold generateXml.
  pose proof (generateXml_loop_names getAttachmentBase64 rs [] emptyBatch eq_refl) as H.
  destruct (generateXml_loop getAttachmentBase64 rs [] emptyBatch) as [bs cur].
  cbn [fst] in H.
  destruct (0 <? length (CurrentBatch.instruments cur))%nat.
  - apply names_snoc, H.
  - exact H.
Qed.


(** C1. Whatever the records and the resolver, a batch of
    [generateXml] holding more than one record is at most
    [MAX_BATCH_SIZE] bytes long, so a batch that is longer holds exactly
    one record; and a record whose fragment alone is longer than
    [MAX_BATCH_SIZE] is the only record of its batch, whose content is
    the envelope around that whole fragment. *)
Theorem oversized_record_alone :
  forall (getAttachmentBase64 : jsstring -> completion jsval)
         (mappedData : list jsobject),
    let batches := generateXml getAttachmentBase64 mappedData in
    Forall (fun b => 1 < OutputBatch.recordCount b ->
                     OutputBatch.size b <= MAX_BATCH_SIZE) batches
    /\ Forall (fun b => MAX_BATCH_SIZE < OutputBatch.size b ->
                        OutputBatch.recordCount b = 1) batches
    /\ exists groups : list (list jsobject),
         concat groups = mappedData
         /\ Forall2 (fun g b =>
              OutputBatch.content b =
                XML_HEADER
                ++ concat (map (fun r => generateInstrumentXml r getAttachmentBase64) g)
                ++ XML_FOOTER
              /\ OutputBatch.recordCount b = Z.of_nat (length g)
              /\ OutputBatch.size b = blobSize (OutputBatch.content b))
              groups batches
         /\ Forall (fun g => forall r, In r g ->
              MAX_BATCH_SIZE < blobSize (generateInstrumentXml r getAttachmentBase64) ->
              g = [r]) groups.
Proof.
  intros getB64 rs batches.
  destruct (generateXml_structure getB64 rs) as (gs & Hcat & Hgs).
  fold batches in Hgs.
  pose proof (batchOf_bounds getB64 gs batches Hgs) as Hb.
  split; [|split].
  - eapply Forall_impl; [exact Hb|]. intros b [_ H]. exact H.
  - eapply Forall_impl; [exact Hb|]. intros b [H1 H2] Hbig.
    destruct (Z.eq_dec (OutputBatch.recordCount b) 1) as [E|E]; [exact E|].
    assert (OutputBatch.size b <= MAX_BATCH_SIZE) by (apply H2; lia). lia.
  - exists gs. split; [exact Hcat|]. split.
    + eapply Forall2_impl; [exact Hgs|].
      intros g b (_ & Hc & Hn & Hs & _). auto.
    + apply (batchOf_oversized getB64 gs batches Hgs).
Qed.

(** C2. The batches of [generateXml] cut the input into consecutive
    non-empty groups: the groups concatenated are the input, in order,
    the k-th batch is the envelope around the fragments of the k-th
    group, in order, its [recordCount] is the size of the group, and the
    counts add up to the number of input records. *)
Theorem batches_partition_input :
  forall (getAttachmentBase64 : jsstring -> completion jsval)
         (mappedData : list jsobject),
    let batches := generateXml getAttachmentBase64 mappedData in
    sumRecordCount batches = Z.of_nat (length mappedData)
    /\ exists groups : list (list jsobject),
         concat groups = mappedData
         /\ Forall2 (fun g b =>
              g <> []
              /\ OutputBatch.content b =
                   XML_HEADER
                   ++ concat (map (fun r => generateInstrumentXml r getAttachmentBase64) g)
                   ++ XML_FOOTER
              /\ OutputBatch.recordCount b = Z.of_nat (length g))
              groups batches.
Proof.
  intros getB64 rs batches.
  destruct (generateXml_structure getB64 rs) as (gs & Hcat & Hgs).
  fold batches in Hgs. split.
  - rewrite (batchOf_counts getB64 gs batches Hgs), Hcat. reflexivity.
  - exists gs. split; [exact Hcat|].
    eapply Forall2_impl; [exact Hgs|].
    intros g b (Hg & Hc & Hn & _). auto.
Qed.

(** C8. The first batch of [generateXml] is named [Output.xml] and the
    k-th one, for k from 2 on, [Output_Batch_k.xml] with k in decimal. *)
Theorem batch_filenames :
  forall (getAttachmentBase64 : jsstring -> completion jsval)
         (mappedData : list jsobject),
    let batches := generateXml getAttachmentBase64 mappedData in
    map OutputBatch.filename batches = map batchName (seq 1 (length batches))
    /\ batchName 1 = lit "Output.xml"
    /\ batchName 2 = lit "Output_Batch_2.xml"
    /\ batchName 10 = lit "Output_Batch_10.xml".
Proof.
  intros getB64 rs batches. split; [|repeat split].
  apply generateXml_names.
Qed.

(** C9. The [size] of every batch of [generateXml] is the number of
    bytes of the UTF-8 encoding of its [content]; it is also the value
    the loop accumulated for the batch, the envelope counted in
    characters and the fragments in bytes. *)
Theorem batch_size_is_utf8_length :
  forall (getAttachmentBase64 : jsstring -> completion jsval)
         (mappedData : list jsobject),
    let batches := generateXml getAttachmentBase64 mappedData in
    Forall (fun b => OutputBatch.size b
                     = Z.of_nat (length (utf8Encode (OutputBatch.content b))))
           batches
    /\ exists groups : list (list jsobject),
         concat groups = mappedData
         /\ Forall2 (fun g b =>
              OutputBatch.size b =
                strLength XML_HEADER + strLength XML_FOOTER
                + fragmentsSize
                    (map (fun r => generateInstrumentXml r getAttachmentBase64) g))
              groups batches.
Proof.
  intros getB64 rs batches.
  destruct (generateXml_structure getB64 rs) as (gs & Hcat & Hgs).
  fold batches in Hgs. split.
  - clear Hcat. induction Hgs as [|g b gs' bs Hb _ IH]; constructor; [|exact IH].
    destruct Hb as (_ & _ & _ & Hs & _). exact Hs.
  - exists gs. split; [exact Hcat|].
    eapply Forall2_impl; [exact Hgs|].
    intros g b (_ & _ & _ & _ & Hacc & _). exact Hacc.
Qed.

(* ================================================================== *)
(** ** The validation loop *)
(* ================================================================== *)

Section ValidatorFacts.

Variable MANDATORY_FIELDS : list string.
Variable displayNames : list (string * string).
Variable partyChecks : string -> jsobject -> jsval -> list Issue * list Issue.

Hypothesis party_errors_kind :
forall who r rn i, In i (fst (partyChecks who r rn)) -> errorType i = MISSING_FIELD.
Hypothesis party_warnings_kind :
forall who r rn i, In i (snd (partyChecks who r rn)) -> errorType i = MISSING_ID.

Local Abbreviation validateRecord' := (validateRecord MANDATORY_FIELDS displayNames partyChecks).
Local Abbreviation validateAll' := (validateAll MANDATORY_FIELDS displayNames partyChecks).

Lemma mandatory_kind r rn i :
In i (mandatoryChecks MANDATORY_FIELDS displayNames r rn) ->
errorType i = MISSING_FIELD.
Proof.
unfold mandatoryChecks. rewrite in_flat_map. intros (f & _ & Hi).
destruct (_ || _); [|destruct Hi].
destruct Hi as [<-|[]]. reflexivity.
Qed.

Lemma date_kind r rn i :
In i (dateChecks displayNames r rn) -> errorType i = INVALID_DATE.
Proof.
unfold dateChecks. rewrite in_flat_map. intros (f & _ & Hi).
destruct (_ && _); [|destruct Hi].
destruct Hi as [<-|[]]. reflexivity.
Qed.

Lemma numeric_kind r rn i :
In i (numericChecks displayNames r rn) -> errorType i = INVALID_NUMBER.
Proof.
unfold numericChecks. rewrite in_flat_map. intros (f & _ & Hi).
destruct (_ && _); [|destruct Hi].
destruct Hi as [<-|[]]. reflexivity.
Qed.

Lemma attachmentCheck_missing_file r st s :
lookupProp r "attachment" = JStr s -> s <> [] ->
storeHas st (trim s) = false ->
attachmentCheck r st (lookupProp r "_rowNumber")
= Normal ([missingFileIssue r (trim s)], []).
Proof.
intros Hs Hne Hst. unfold attachmentCheck. rewrite Hs.
destruct s as [|c s]; [congruence|].
cbn [truthy callTrim bind]. rewrite Hst. reflexivity.
Qed.

Lemma attachmentCheck_present r st s :
lookupProp r "attachment" = JStr s -> s <> [] ->
storeHas st (trim s) = true ->
attachmentCheck r st (lookupProp r "_rowNumber") = Normal ([], []).
Proof.
intros Hs Hne Hst. unfold attachmentCheck. rewrite Hs.
destruct s as [|c s]; [congruence|].
cbn [truthy callTrim bind]. rewrite Hst. reflexivity.
Qed.

Lemma attachmentCheck_unnamed r st :
truthy (lookupProp r "attachment") = false ->
attachmentCheck r st (lookupProp r "_rowNumber")
= Normal ([], [missingAttachmentIssue r]).
Proof. intros H. unfold attachmentCheck. rewrite H. reflexivity. Qed.

(** The attachment block raises exactly on a truthy value that is not a
  string. *)
Lemma attachmentCheck_returns r st rn :
(truthy (lookupProp r "attachment") = false
 \/ exists s, lookupProp r "attachment" = JStr s) ->
exists a, attachmentCheck r st rn = Normal a.
Proof.
unfold attachmentCheck. intros [H|[s H]].
- rewrite H. eauto.
- rewrite H. destruct (truthy (JStr s)); [|eauto].
  cbn [callTrim bind]. destruct (negb _); eauto.
Qed.

Lemma validateRecord_inv r st es ws :
validateRecord' r st = Normal (es, ws) ->
exists ae aw,
  attachmentCheck r st (lookupProp r "_rowNumber") = Normal (ae, aw)
  /\ es = mandatoryChecks MANDATORY_FIELDS displayNames r (lookupProp r "_rowNumber")
          ++ dateChecks displayNames r (lookupProp r "_rowNumber")
          ++ ae
          ++ fst (partyChecks "transferor" r (lookupProp r "_rowNumber"))
          ++ fst (partyChecks "transferee" r (lookupProp r "_rowNumber"))
  /\ ws = numericChecks displayNames r (lookupProp r "_rowNumber")
          ++ aw
          ++ snd (partyChecks "transferor" r (lookupProp r "_rowNumber"))
          ++ snd (partyChecks "transferee" r (lookupProp r "_rowNumber")).
Proof.
unfold validateRecord.
destruct (attachmentCheck r st (lookupProp r "_rowNumber")) as [[ae aw]|];
  cbn [bind fst snd]; [|discriminate].
intros H. injection H as <- <-. exists ae, aw. auto.
Qed.

Lemma validateRecord_returns r st :
(truthy (lookupProp r "attachment") = false
 \/ exists s, lookupProp r "attachment" = JStr s) ->
exists row, validateRecord' r st = Normal row.
Proof.
intros H. unfold validateRecord.
destruct (attachmentCheck_returns r st (lookupProp r "_rowNumber") H) as [a ->].
cbn [bind]. eauto.
Qed.

Lemma validateLoop_spec rs st :
forall es ws vc res,
  validateLoop MANDATORY_FIELDS displayNames partyChecks rs st es ws vc = Normal res ->
  exists rows,
    Forall2 (fun r row => validateRecord' r st = Normal row) rs rows
    /\ res = (es ++ concat (map fst rows), ws ++ concat (map snd rows),
              vc + countValid rows).
Proof.
induction rs as [|r rest IH]; intros es ws vc res H.
- cbn [validateLoop] in H. injection H as <-. exists [].
  split; [constructor|]. cbn [map concat countValid].
  rewrite !app_nil_r, Z.add_0_r. reflexivity.
- cbn [validateLoop] in H.
  destruct (validateRecord' r st) as [row|] eqn:Hrow; cbn [bind] in H; [|discriminate].
  apply IH in H as (rows & Hrows & ->).
  exists (row :: rows). split; [constructor; assumption|].
  cbn [map concat countValid]. rewrite <- !app_assoc.
  f_equal.
  destruct (fst row); cbn [length Nat.eqb]; lia.
Qed.

Lemma validateLoop_returns rs st :
Forall (fun r => truthy (lookupProp r "attachment") = false
                 \/ exists s, lookupProp r "attachment" = JStr s) rs ->
forall es ws vc,
  exists res,
    validateLoop MANDATORY_FIELDS displayNames partyChecks rs st es ws vc = Normal res.
Proof.
induction 1 as [|r rest Hr _ IH]; intros es ws vc; cbn [validateLoop]; [eauto|].
destruct (validateRecord_returns r st Hr) as [row ->]. cbn [bind]. apply IH.
Qed.

(** The report is made of the rows of the records, in input order. *)
Lemma validateAll_rows rs st rep :
validateAll' rs st = Normal rep ->
exists rows,
  Forall2 (fun r row => validateRecord' r st = Normal row) rs rows
  /\ errors rep = concat (map fst rows)
  /\ warnings rep = concat (map snd rows)
  /\ validCount rep = countValid rows
  /\ errorCount rep = Z.of_nat (length (errors rep))
  /\ warningCount rep = Z.of_nat (length (warnings rep))
  /\ valid rep = (length (errors rep) =? 0)%nat.
Proof.
unfold validateAll.
destruct (validateLoop _ _ _ rs st [] [] 0) as [[[es ws] vc]|] eqn:Hloop;
  cbn [bind]; [|discriminate].
intros H. injection H as <-.
apply validateLoop_spec in Hloop as (rows & Hrows & Heq).
injection Heq as -> -> ->.
exists rows. cbn [errors warnings validCount errorCount warningCount valid app].
split_ands; try reflexivity; try assumption.
Qed.

Lemma validateAll_returns rs st :
Forall (fun r => truthy (lookupProp r "attachment") = false
                 \/ exists s, lookupProp r "attachment" = JStr s) rs ->
exists rep, validateAll' rs st = Normal rep.
Proof.
intros H. unfold validateAll.
destruct (validateLoop_returns rs st H [] [] 0) as [[[es ws] vc] ->].
cbn [bind]. eauto.
Qed.

Lemma countValid_bounds rows : 0 <= countValid rows <= Z.of_nat (length rows).
Proof.
induction rows as [|row rows IH]; cbn [countValid length]; [lia|].
destruct (fst row); lia.
Qed.

Lemma countValid_all rows :
countValid rows = Z.of_nat (length rows) <-> concat (map fst rows) = [].
Proof.
induction rows as [|row rows IH]; cbn [countValid length map concat]; [tauto|].
pose proof (countValid_bounds rows).
destruct (fst row) as [|i l]; cbn [app].
- rewrite <- IH. lia.
- split; [lia|discriminate].
Qed.

Lemma attachmentCheck_kinds r st rn ae aw :
attachmentCheck r st rn = Normal (ae, aw) ->
(forall i, In i ae -> errorType i = MISSING_FILE)
/\ (forall i, In i aw -> errorType i = MISSING_ATTACHMENT).
Proof.
unfold attachmentCheck.
destruct (truthy _).
- destruct (callTrim _) as [f|]; cbn [bind]; [|discriminate].
  destruct (negb _); intros H; injection H as <- <-;
    split; intros i Hi; cbn [In] in Hi; intuition (subst; reflexivity).
- intros H; injection H as <- <-.
  split; intros i Hi; cbn [In] in Hi; intuition (subst; reflexivity).
Qed.

(** The severity table: what can be among the errors and among the
  warnings of a record. *)
Lemma row_kinds r st es ws :
validateRecord' r st = Normal (es, ws) ->
(forall i, In i es ->
   errorType i = MISSING_FIELD \/ errorType i = INVALID_DATE
   \/ errorType i = MISSING_FILE)
/\ (forall i, In i ws ->
      errorType i = INVALID_NUMBER \/ errorType i = MISSING_ATTACHMENT
      \/ errorType i = MISSING_ID).
Proof.
intros H. apply validateRecord_inv in H as (ae & aw & Ha & -> & ->).
apply attachmentCheck_kinds in Ha as [Hae Haw].
split; intros i Hi; rewrite !in_app_iff in Hi.
- destruct Hi as [Hi|[Hi|[Hi|[Hi|Hi]]]];
    eauto using mandatory_kind, date_kind.
- destruct Hi as [Hi|[Hi|[Hi|Hi]]];
    eauto using numeric_kind.
Qed.

Lemma row_missing_file r st es ws s :
validateRecord' r st = Normal (es, ws) ->
lookupProp r "attachment" = JStr s -> s <> [] ->
storeHas st (trim s) = false ->
In (missingFileIssue r (trim s)) es
/\ (forall i, In i ws -> errorType i <> MISSING_ATTACHMENT).
Proof.
intros H Hs Hne Hst.
apply validateRecord_inv in H as (ae & aw & Ha & -> & ->).
rewrite (attachmentCheck_missing_file r st s Hs Hne Hst) in Ha.
injection Ha as <- <-. split.
- rewrite !in_app_iff. right. right. left. left. reflexivity.
- intros i Hi. rewrite !in_app_iff in Hi.
  destruct Hi as [Hi|[Hi|[Hi|Hi]]].
  + rewrite (numeric_kind _ _ _ Hi). discriminate.
  + destruct Hi.
  + rewrite (party_warnings_kind _ _ _ _ Hi). discriminate.
  + rewrite (party_warnings_kind _ _ _ _ Hi). discriminate.
Qed.

Lemma row_unnamed r st es ws :
validateRecord' r st = Normal (es, ws) ->
truthy (lookupProp r "attachment") = false ->
In (missingAttachmentIssue r) ws
/\ (forall i, In i es ->
      errorType i <> MISSING_FILE /\ errorType i <> MISSING_ATTACHMENT).
Proof.
intros H Hf.
apply validateRecord_inv in H as (ae & aw & Ha & -> & ->).
rewrite (attachmentCheck_unnamed r st Hf) in Ha.
injection Ha as <- <-. split.
- rewrite !in_app_iff. right. left. left. reflexivity.
- intros i Hi. rewrite !in_app_iff in Hi.
  destruct Hi as [Hi|[Hi|[Hi|[Hi|Hi]]]].
  + rewrite (mandatory_kind _ _ _ Hi). split; discriminate.
  + rewrite (date_kind _ _ _ Hi). split; discriminate.
  + destruct Hi.
  + rewrite (party_errors_kind _ _ _ _ Hi). split; discriminate.
  + rewrite (party_errors_kind _ _ _ _ Hi). split; discriminate.
Qed.

Lemma countIssues_app ty f l1 l2 :
countIssues ty f (l1 ++ l2) = (countIssues ty f l1 + countIssues ty f l2)%nat.
Proof.
induction l1 as [|i l1 IH]; cbn [countIssues app]; [reflexivity|].
rewrite IH. lia.
Qed.

Lemma countIssues_other_kind ty f k l :
(forall i, In i l -> errorType i = k) -> k <> ty -> countIssues ty f l = 0%nat.
Proof.
intros Hk Hne. induction l as [|i l IH]; [reflexivity|].
cbn [countIssues]. rewrite IH by (intros j Hj; apply Hk; right; exact Hj).
rewrite (Hk i) by (left; reflexivity).
destruct k, ty; try congruence; reflexivity.
Qed.

Lemma dateChecks_count r rn field :
In field dateFields ->
countIssues INVALID_DATE field (dateChecks displayNames r rn)
= if truthy (lookupProp r field)
     && negb (regexTest DATE_REGEX (lookupProp r field))
  then 1%nat else 0%nat.
Proof.
unfold dateChecks, dateFields. cbn [flat_map app].
intros [<-|[<-|[]]];
  destruct (truthy (lookupProp r "instrumentDate")
            && negb (regexTest DATE_REGEX (lookupProp r "instrumentDate")));
  destruct (truthy (lookupProp r "instrumentDateReceive")
            && negb (regexTest DATE_REGEX (lookupProp r "instrumentDateReceive")));
  reflexivity.
Qed.

(** The [INVALID_DATE] issues of a record for one of the date fields:
  one error when the value is truthy and fails the pattern, none
  otherwise, and never a warning. *)
Lemma row_dates r st es ws field :
validateRecord' r st = Normal (es, ws) ->
In field dateFields ->
countIssues INVALID_DATE field es
= (if truthy (lookupProp r field)
      && negb (regexTest DATE_REGEX (lookupProp r field))
   then 1%nat else 0%nat)
/\ countIssues INVALID_DATE field ws = 0%nat.
Proof.
intros H Hf.
apply validateRecord_inv in H as (ae & aw & Ha & -> & ->).
apply attachmentCheck_kinds in Ha as [Hae Haw].
rewrite !countIssues_app, (dateChecks_count _ _ _ Hf).
rewrite (countIssues_other_kind _ _ MISSING_FIELD (mandatoryChecks _ _ _ _))
  by (eauto using mandatory_kind || discriminate).
rewrite (countIssues_other_kind _ _ MISSING_FILE ae) by (assumption || discriminate).
rewrite !(countIssues_other_kind _ _ MISSING_FIELD (fst _))
  by (eauto using party_errors_kind || discriminate).
rewrite (countIssues_other_kind _ _ INVALID_NUMBER (numericChecks _ _ _))
  by (eauto using numeric_kind || discriminate).
rewrite (countIssues_other_kind _ _ MISSING_ATTACHMENT aw) by (assumption || discriminate).
rewrite !(countIssues_other_kind _ _ MISSING_ID (snd _))
  by (eauto using party_warnings_kind || discriminate).
split; lia.
Qed.

End ValidatorFacts.

(* ------------------------------------------------------------------ *)
(** *** The date pattern *)

Lemma DATE_REGEX_matches s : matchSeq DATE_REGEX s = true <-> isDDMMYYYY s.
Proof.
  unfold DATE_REGEX, isDDMMYYYY. split.
  - intros H.
    destruct s as [|d1 [|d2 [|c1 [|m1 [|m2 [|c2 [|y1 [|y2 [|y3 [|y4 [|x s]]]]]]]]]]];
      cbn [matchSeq matchRep matchAtom] in H;
      repeat match type of H with
             | context [if ?b then _ else _] => destruct b eqn:?; try discriminate
             end;
      try discriminate.
    repeat match goal with
           | E : (_ =? _)%N = true |- _ => apply N.eqb_eq in E; subst
           end.
    exists d1, d2, m1, m2, y1, y2, y3, y4. split; [reflexivity|].
    repeat constructor; assumption.
  - intros (d1 & d2 & m1 & m2 & y1 & y2 & y3 & y4 & -> & Hd).
    repeat match goal with
           | H : Forall _ (_ :: _) |- _ => inversion H; subst; clear H
           end.
    repeat (cbn [matchSeq matchRep matchAtom]; rewrite ?N.eqb_refl;
            match goal with
            | E : isDigit _ = true |- _ => rewrite E; clear E
            end).
    reflexivity.
Qed.

(* ------------------------------------------------------------------ *)
(** *** The party checks of the two validators *)

Lemma strict_party_errors_kind who r rn i :
  In i (fst (ValidatorStrict.partyChecks who r rn)) -> errorType i = MISSING_FIELD.
Proof.
  unfold ValidatorStrict.partyChecks. intros H. party_cases H.
  all: intuition (subst; reflexivity).
Qed.

Lemma strict_party_warnings_kind who r rn i :
  In i (snd (ValidatorStrict.partyChecks who r rn)) -> errorType i = MISSING_ID.
Proof.
  unfold ValidatorStrict.partyChecks. intros H. party_cases H.
  all: intuition (subst; reflexivity).
Qed.

Lemma lenient_party_errors_kind who r rn i :
  In i (fst (ValidatorLenient.partyChecks who r rn)) -> errorType i = MISSING_FIELD.
Proof.
  unfold ValidatorLenient.partyChecks. intros H. party_cases H.
  all: intuition (subst; reflexivity).
Qed.

Lemma lenient_party_warnings_kind who r rn i :
  In i (snd (ValidatorLenient.partyChecks who r rn)) -> errorType i = MISSING_ID.
Proof.
  unfold ValidatorLenient.partyChecks. intros H. party_cases H.
  all: intuition (subst; reflexivity).
Qed.

Lemma isOne_not_isZero v : isOne v = true -> isZero v = false.
Proof.
  destruct v as [| | |n|[|c [|? ?]]|]; cbn [isOne isZero]; try discriminate.
  - intros H. apply Z.eqb_eq in H. subst. reflexivity.
  - intros H. apply N.eqb_eq in H. subst. reflexivity.
Qed.

Lemma strict_company_without_roc r rn party :
  lookupProp r "transferor" = JObj party ->
  isOne (lookupProp party "type") = true ->
  truthy (lookupProp party "rocNo") = false ->
  exists i, In i (fst (ValidatorStrict.partyChecks "transferor" r rn))
            /\ rowNumber i = rn
            /\ fieldName i = "transferor.rocNo"
            /\ errorType i = MISSING_FIELD.
Proof.
  intros Ht H1 Hroc. unfold ValidatorStrict.partyChecks.
  rewrite Ht. cbn [truthy getMember]. rewrite H1, Hroc. cbn [negb fst app].
  eexists. split; [left; reflexivity|]. cbn [partyIssue rowNumber fieldName errorType].
  auto.
Qed.

Lemma lenient_company_without_roc r rn party :
  lookupProp r "transferor" = JObj party ->
  isOne (lookupProp party "type") = true ->
  truthy (lookupProp party "rocNo") = false ->
  exists i, In i (snd (ValidatorLenient.partyChecks "transferor" r rn))
            /\ rowNumber i = rn
            /\ fieldName i = "transferor.rocNo"
            /\ errorType i = MISSING_ID.
Proof.
  intros Ht H1 Hroc. unfold ValidatorLenient.partyChecks.
  rewrite Ht. cbn [truthy getMember].
  rewrite (isOne_not_isZero _ H1), H1, Hroc. cbn [negb snd].
  eexists. split; [left; reflexivity|]. cbn [partyIssue rowNumber fieldName errorType].
  auto.
Qed.

(* ------------------------------------------------------------------ *)
(** *** Trimming *)

Lemma trimStart_whitespace s :
  Forall (fun c => isWhiteSpace c = true) s -> trimStart s = [].
Proof.
  induction 1 as [|c s Hc _ IH]; [reflexivity|].
  cbn [trimStart]. rewrite Hc. exact IH.
Qed.

Lemma trim_whitespace s :
  Forall (fun c => isWhiteSpace c = true) s -> trim s = [].
Proof.
  intros H. unfold trim. rewrite (trimStart_whitespace s H). reflexivity.
Qed.

(* ================================================================== *)
(** ** Properties of the validators *)
(* ================================================================== *)

Lemma validateAllOf_rows v rs st rep :
  validateAllOf v rs st = Normal rep ->
  exists rows,
    Forall2 (fun r row => validateRecordOf v r st = Normal row) rs rows
    /\ errors rep = concat (map fst rows)
    /\ warnings rep = concat (map snd rows)
    /\ validCount rep = countValid rows
    /\ errorCount rep = Z.of_nat (length (errors rep))
    /\ warningCount rep = Z.of_nat (length (warnings rep))
    /\ valid rep = (length (errors rep) =? 0)%nat.
Proof. destruct v; apply validateAll_rows. Qed.

(** Both validators return a report when every attachment cell is a
    string or a falsy value. *)
Lemma validateAllOf_returns v rs st :
  Forall (fun r => truthy (lookupProp r "attachment") = false
                   \/ exists s, lookupProp r "attachment" = JStr s) rs ->
  exists rep, validateAllOf v rs st = Normal rep.
Proof. destruct v; apply validateAll_returns. Qed.

(** A rule that holds of every row holds of the report. *)
Lemma report_rule (P : jsobject -> list Issue * list Issue -> Prop) v rs st rep :
  (forall r row, validateRecordOf v r st = Normal row -> P r row) ->
  validateAllOf v rs st = Normal rep ->
  exists rows, madeOf rep rows /\ Forall2 P rs rows.
Proof.
  intros HP H.
  apply validateAllOf_rows in H as (rows & Hrows & He & Hw & _).
  exists rows. split; [split; assumption|].
  eapply Forall2_impl; [exact Hrows|]. exact HP.
Qed.

Lemma row_missing_file_of v r st es ws s :
  validateRecordOf v r st = Normal (es, ws) ->
  lookupProp r "attachment" = JStr s -> s <> [] ->
  storeHas st (trim s) = false ->
  In (missingFileIssue r (trim s)) es
  /\ (forall i, In i ws -> errorType i <> MISSING_ATTACHMENT).
Proof.
  destruct v.
  - apply row_missing_file, strict_party_warnings_kind.
  - apply row_missing_file, lenient_party_warnings_kind.
Qed.

Lemma row_unnamed_of v r st es ws :
  validateRecordOf v r st = Normal (es, ws) ->
  truthy (lookupProp r "attachment") = false ->
  In (missingAttachmentIssue r) ws
  /\ (forall i, In i es ->
        errorType i <> MISSING_FILE /\ errorType i <> MISSING_ATTACHMENT).
Proof.
  destruct v.
  - apply row_unnamed, strict_party_errors_kind.
  - apply row_unnamed, lenient_party_errors_kind.
Qed.

Lemma row_dates_of v r st es ws field :
  validateRecordOf v r st = Normal (es, ws) ->
  In field dateFields ->
  countIssues INVALID_DATE field es
  = (if truthy (lookupProp r field)
        && negb (regexTest DATE_REGEX (lookupProp r field))
     then 1%nat else 0%nat)
  /\ countIssues INVALID_DATE field ws = 0%nat.
Proof.
  destruct v.
  - apply row_dates;
      [apply strict_party_errors_kind | apply strict_party_warnings_kind].
  - apply row_dates;
      [apply lenient_party_errors_kind | apply lenient_party_warnings_kind].
Qed.

(* ------------------------------------------------------------------ *)
(** *** Fragments without attachment data *)

Lemma fragment_missing_in_store r m s :
  lookupProp r "attachment" = JStr s -> s <> [] ->
  m !! trim s = None ->
  generateInstrumentXml r (App.getAttachmentBase64 m) = instrumentTemplate r (JStr s) (JStr []).
Proof.
  intros Hs Hne Hm. unfold generateInstrumentXml, fetchAttachment. rewrite Hs.
  destruct s as [|c s]; [congruence|].
  cbn [jsOr truthy callTrim bind]. unfold App.getAttachmentBase64. rewrite Hm.
  reflexivity.
Qed.

Lemma fragment_unnamed r getAttachmentBase64 :
  truthy (lookupProp r "attachment") = false ->
  generateInstrumentXml r getAttachmentBase64
  = instrumentTemplate r (JStr []) (JStr []).
Proof.
  intros H. unfold generateInstrumentXml, fetchAttachment, jsOr. rewrite H.
  reflexivity.
Qed.

Lemma suffix_step (a x s : jsstring) :
  (exists pre, x = pre ++ s) -> exists pre, a ++ x = pre ++ s.
Proof. intros [p ->]. exists (a ++ p). apply app_assoc. Qed.

Lemma template_empty_attachment r name :
  exists pre,
    instrumentTemplate r name (JStr []) = pre ++ emptyAttachmentElement name.
Proof.
  unfold instrumentTemplate, emptyAttachmentElement.
  do 118 apply suffix_step.
  exists (lit "</remessionOthers>" ++ newline ++ lit "        ").
  reflexivity.
Qed.

Lemma generateXml_single getAttachmentBase64 r :
  exists b,
    generateXml getAttachmentBase64 [r] = [b]
    /\ OutputBatch.filename b = lit "Output.xml"
    /\ OutputBatch.recordCount b = 1
    /\ OutputBatch.content b
       = XML_HEADER ++ generateInstrumentXml r getAttachmentBase64 ++ XML_FOOTER.
Proof.
  unfold generateXml. cbn [generateXml_loop].
  unfold emptyBatch at 2. cbn [CurrentBatch.instruments length].
  rewrite andb_false_r.
  cbn [CurrentBatch.instruments CurrentBatch.size CurrentBatch.recordCount
       emptyBatch app length Nat.ltb Nat.leb].
  eexists. split; [reflexivity|].
  unfold finalizeBatch.
  cbn [OutputBatch.filename OutputBatch.recordCount OutputBatch.content
       CurrentBatch.instruments CurrentBatch.recordCount concat].
  rewrite app_nil_r. split_ands; reflexivity.
Qed.

(* ------------------------------------------------------------------ *)
(** *** Two oversized records *)

(** Two records whose fragments are each longer than the maximum come
    out as two batches of one record, both longer than the maximum. *)
Lemma two_oversized_records getAttachmentBase64 r1 r2 :
  MAX_BATCH_SIZE < blobSize (generateInstrumentXml r1 getAttachmentBase64) ->
  MAX_BATCH_SIZE < blobSize (generateInstrumentXml r2 getAttachmentBase64) ->
  exists b1 b2,
    generateXml getAttachmentBase64 [r1; r2] = [b1; b2]
    /\ OutputBatch.filename b1 = lit "Output.xml"
    /\ OutputBatch.filename b2 = lit "Output_Batch_2.xml"
    /\ OutputBatch.recordCount b1 = 1 /\ OutputBatch.recordCount b2 = 1
    /\ MAX_BATCH_SIZE < OutputBatch.size b1
    /\ MAX_BATCH_SIZE < OutputBatch.size b2.
Proof.
  intros Hbig1 Hbig2.
  pose proof (generateXml_names getAttachmentBase64 [r1; r2]) as Hnames.
  destruct (generateXml_structure getAttachmentBase64 [r1; r2]) as (gs & Hcat & Hgs).
  pose proof (batchOf_oversized getAttachmentBase64 gs _ Hgs) as Hov.
  assert (Hsize : forall r b,
             MAX_BATCH_SIZE < blobSize (generateInstrumentXml r getAttachmentBase64) ->
             batchOf getAttachmentBase64 [r] b ->
             OutputBatch.recordCount b = 1 /\ MAX_BATCH_SIZE < OutputBatch.size b).
  { intros r b Hr (_ & _ & Hc & _ & Hacc & _). split; [exact Hc|].
    rewrite Hacc. unfold accumulated, strLength. cbn [map fragmentsSize]. lia. }
  destruct Hgs as [|g1 b1 gs1 bs1 Hb1 Hgs1]; [discriminate|].
  inversion Hov as [|? ? Hov1 Hovs1]; subst.
  destruct g1 as [|x g1]; [destruct Hb1 as (Hne & _); congruence|].
  cbn [concat app] in Hcat. injection Hcat as -> Hcat.
  pose proof (Hov1 r1 (or_introl eq_refl) Hbig1) as E1. injection E1 as ->.
  cbn [app] in Hcat.
  destruct Hgs1 as [|g2 b2 gs2 bs2 Hb2 Hgs2]; [discriminate|].
  inversion Hovs1 as [|? ? Hov2 Hovs2]; subst.
  destruct g2 as [|y g2]; [destruct Hb2 as (Hne & _); congruence|].
  cbn [concat app] in Hcat. injection Hcat as -> Hcat.
  pose proof (Hov2 r2 (or_introl eq_refl) Hbig2) as E2. injection E2 as ->.
  cbn [app] in Hcat.
  destruct Hgs2 as [|g3 b3 gs3 bs3 Hb3 Hgs3].
  - cbn [map length seq] in Hnames. injection Hnames as Hn1 Hn2.
    destruct (Hsize r1 b1 Hbig1 Hb1) as [Hc1 Hs1].
    destruct (Hsize r2 b2 Hbig2 Hb2) as [Hc2 Hs2].
    exists b1, b2. split_ands; auto.
  - destruct g3 as [|z g3]; [destruct Hb3 as (Hne & _); congruence|].
    discriminate.
Qed.

Lemma blobSize_letters n : blobSize (repeat 65%N n) = Z.of_nat n.
Proof.
  unfold blobSize. induction n as [|n IH]; [reflexivity|].
  cbn [repeat]. change (utf8Encode (65%N :: repeat 65%N n))
    with (65%N :: utf8Encode (repeat 65%N n)).
  cbn [length]. lia.
Qed.

Lemma sampleBig_fragment_size n :
  Z.of_nat n
  <= blobSize (generateInstrumentXml sampleBig (App.getAttachmentBase64 (bigStore n))).
Proof.
  destruct n as [|n]; [apply blobSize_nonneg|].
  assert (Hfrag : generateInstrumentXml sampleBig
                    (App.getAttachmentBase64 (bigStore (S n)))
                  = instrumentTemplate sampleBig (JStr (lit "big.pdf"))
                      (JStr (repeat 65%N (S n)))).
  { unfold generateInstrumentXml, fetchAttachment.
    change (jsOr (lookupProp sampleBig "attachment") (JStr []))
      with (JStr (lit "big.pdf")).
    change (truthy (JStr (lit "big.pdf"))) with true. cbv iota.
    change (callTrim (JStr (lit "big.pdf"))) with (Normal (lit "big.pdf")).
    cbn [bind]. unfold App.getAttachmentBase64, bigStore.
    rewrite lookup_insert_eq. reflexivity. }
  rewrite Hfrag.
  assert (Hsplit : exists pre,
             instrumentTemplate sampleBig (JStr (lit "big.pdf"))
               (JStr (repeat 65%N (S n)))
             = pre ++ (repeat 65%N (S n)
                       ++ lit "</attachment>" ++ newline ++ lit "    </instrument>")).
  { unfold instrumentTemplate. do 123 apply suffix_step.
    exists []. reflexivity. }
  destruct Hsplit as [pre ->].
  rewrite blobSize_app by reflexivity.
  rewrite blobSize_app by reflexivity.
  rewrite blobSize_letters.
  pose proof (blobSize_nonneg pre).
  pose proof (blobSize_nonneg (lit "</attachment>" ++ newline ++ lit "    </instrument>")).
  lia.
Qed.

(** Batches of one record that exceed the maximum do occur. *)
Lemma oversized_batches_exist :
  exists getAttachmentBase64 r b1 b2,
    generateXml getAttachmentBase64 [r; r] = [b1; b2]
    /\ OutputBatch.filename b1 = lit "Output.xml"
    /\ OutputBatch.filename b2 = lit "Output_Batch_2.xml"
    /\ OutputBatch.recordCount b1 = 1 /\ OutputBatch.recordCount b2 = 1
    /\ MAX_BATCH_SIZE < OutputBatch.size b1
    /\ MAX_BATCH_SIZE < OutputBatch.size b2.
Proof.
  exists (App.getAttachmentBase64 (bigStore (S (Z.to_nat MAX_BATCH_SIZE)))), sampleBig.
  assert (Hbig : MAX_BATCH_SIZE
                 < blobSize (generateInstrumentXml sampleBig
                     (App.getAttachmentBase64 (bigStore (S (Z.to_nat MAX_BATCH_SIZE)))))).
  { pose proof (sampleBig_fragment_size (S (Z.to_nat MAX_BATCH_SIZE))).
    assert (0 <= MAX_BATCH_SIZE) by (unfold MAX_BATCH_SIZE; lia). lia. }
  apply two_oversized_records; exact Hbig.
Qed.

(** C3. In the report of either validator, [valid] holds exactly when
    [errors] is empty, and [errorCount] is 0 exactly when [validCount]
    is the number of records; [validCount] counts the records whose row
    has no error, whatever its warnings. *)
Theorem report_valid_iff :
  forall (v : validator) (mappedData : list jsobject)
         (attachmentFiles : option (gmap jsstring Attachment)) (rep : Report),
    validateAllOf v mappedData attachmentFiles = Normal rep ->
    (valid rep = true <-> errors rep = [])
    /\ (errorCount rep = 0 <-> validCount rep = Z.of_nat (length mappedData))
    /\ exists rows,
         Forall2 (fun r row => validateRecordOf v r attachmentFiles = Normal row)
           mappedData rows
         /\ madeOf rep rows
         /\ validCount rep = countValid rows.
Proof.
  intros v rs st rep H.
  apply validateAllOf_rows in H
    as (rows & Hrows & He & Hw & Hvc & Hec & _ & Hvalid).
  assert (Hlen : length rows = length rs)
    by (symmetry; eapply Forall2_length; exact Hrows).
  split; [|split].
  - rewrite Hvalid, Nat.eqb_eq. destruct (errors rep); cbn [length]; split;
      intros; congruence || lia.
  - rewrite Hec, Hvc, <- Hlen, countValid_all, <- He.
    destruct (errors rep); cbn [length]; split; intros; congruence || lia.
  - exists rows. split; [exact Hrows|]. split; [split; assumption|exact Hvc].
Qed.

Lemma report_valid_iff_witness :
  exists rep,
    validateAllOf Lenient [sampleCompany; sampleBare] (Some sampleStore) = Normal rep
    /\ (valid rep = true <-> errors rep = [])
    /\ (errorCount rep = 0 <-> validCount rep = 2).
Proof.
  eexists. split; [vm_compute; reflexivity|].
  destruct (report_valid_iff Lenient [sampleCompany; sampleBare] (Some sampleStore) _
              ltac:(vm_compute; reflexivity)) as (H1 & H2 & _).
  split; [exact H1 | exact H2].
Defined.

(** C4. For every record of the input of either validator: when the
    attachment cell is a non-empty string whose trimmed value is not a
    key of the store, the row has the [MISSING_FILE] issue among its
    errors (and no [MISSING_ATTACHMENT] warning), and the fragment
    generated with the resolver of that store is the template with no
    attachment text; when the cell is absent or falsy, the row has the
    [MISSING_ATTACHMENT] issue among its warnings and no attachment
    issue among its errors, and the fragment is the template with an
    empty name and no text.  Such a fragment ends with an attachment
    element without text, and a one-record input yields one batch. *)
Theorem attachment_presence :
  forall (v : validator) (mappedData : list jsobject)
         (attachmentFiles : option (gmap jsstring Attachment)) (rep : Report),
    validateAllOf v mappedData attachmentFiles = Normal rep ->
    (exists rows,
       madeOf rep rows /\ Forall2 (attachmentRule attachmentFiles) mappedData rows)
    /\ (forall r name, exists pre,
          instrumentTemplate r name (JStr []) = pre ++ emptyAttachmentElement name)
    /\ (forall getAttachmentBase64 r, exists b,
          generateXml getAttachmentBase64 [r] = [b]
          /\ OutputBatch.filename b = lit "Output.xml"
          /\ OutputBatch.recordCount b = 1
          /\ OutputBatch.content b
             = XML_HEADER ++ generateInstrumentXml r getAttachmentBase64 ++ XML_FOOTER).
Proof.
  intros v rs st rep H. split; [|split].
  - apply (report_rule (attachmentRule st) v rs st rep); [|exact H].
    intros r [es ws] Hrow. split.
    + intros s Hs Hne Hst.
      destruct (row_missing_file_of v r st es ws s Hrow Hs Hne Hst) as [H1 H2].
      split_ands; [exact H1 | exact H2 |].
      intros m ->. apply fragment_missing_in_store; try assumption.
      unfold storeHas in Hst. destruct (m !! trim s); [discriminate|reflexivity].
    + intros Hf.
      destruct (row_unnamed_of v r st es ws Hrow Hf) as [H1 H2].
      split_ands; [exact H1 | exact H2 |].
      intros g. apply fragment_unnamed, Hf.
  - apply template_empty_attachment.
  - intros g r. apply generateXml_single.
Qed.

Lemma attachment_presence_witness :
  exists rep,
    validateAllOf Strict [sampleCompany; sampleBare] (Some sampleStore) = Normal rep
    /\ In (missingFileIssue sampleCompany (lit "missing.pdf")) (errors rep)
    /\ In (missingAttachmentIssue sampleBare) (warnings rep)
    /\ generateInstrumentXml sampleCompany (App.getAttachmentBase64 sampleStore)
       = instrumentTemplate sampleCompany (JStr (lit " missing.pdf ")) (JStr []).
Proof.
  eexists. split; [vm_compute; reflexivity|].
  destruct (attachment_presence Strict [sampleCompany; sampleBare]
              (Some sampleStore) _ ltac:(vm_compute; reflexivity))
    as ((rows & [He Hw] & Hrows) & _).
  inversion Hrows as [|? row1 ? rows1 [H1 _] Hrows1]; subst.
  inversion Hrows1 as [|? row2 ? rows2 [_ H2] Hrows2]; subst.
  inversion Hrows2; subst.
  destruct (H1 (lit " missing.pdf ") eq_refl ltac:(discriminate)
              ltac:(vm_compute; reflexivity)) as (Hfile & _ & Hfrag).
  destruct (H2 eq_refl) as (Hnone & _).
  change (trim (lit " missing.pdf ")) with (lit "missing.pdf") in Hfile.
  rewrite He, Hw. cbn [map concat]. rewrite !in_app_iff.
  split; [left; exact Hfile|]. split; [right; left; exact Hnone|].
  apply Hfrag. reflexivity.
Defined.

(** C5. For every record of the input of either validator whose
    transferor has type ['1'] or [1] and a [rocNo] that is absent,
    [null] or empty, the row has an issue on [transferor.rocNo] for the
    row number of the record: a [MISSING_FIELD] error of the strict
    validator, a [MISSING_ID] warning of the lenient one. *)
Theorem company_without_roc_flagged :
  forall (v : validator) (mappedData : list jsobject)
         (attachmentFiles : option (gmap jsstring Attachment)) (rep : Report),
    validateAllOf v mappedData attachmentFiles = Normal rep ->
    exists rows,
      madeOf rep rows /\ Forall2 (companyRule v) mappedData rows.
Proof.
  intros v rs st rep H.
  apply (report_rule (companyRule v) v rs st rep); [|exact H].
  intros r [es ws] Hrow party type rocNo Hparty Htype Hone Hroc Hempty.
  assert (H1 : isOne (lookupProp party "type") = true)
    by (rewrite Htype; destruct Hone as [->| ->]; reflexivity).
  assert (H0 : truthy (lookupProp party "rocNo") = false)
    by (rewrite Hroc; destruct Hempty as [->|[->| ->]]; reflexivity).
  cbn [fst snd]. destruct v.
  - apply validateRecord_inv in Hrow as (ae & aw & _ & -> & ->).
    destruct (strict_company_without_roc r (lookupProp r "_rowNumber") party
                Hparty H1 H0) as (i & Hi & Hrn & Hfn & Hty).
    exists i. split_ands; auto; rewrite ?in_app_iff; auto 12.
  - apply validateRecord_inv in Hrow as (ae & aw & _ & -> & ->).
    destruct (lenient_company_without_roc r (lookupProp r "_rowNumber") party
                Hparty H1 H0) as (i & Hi & Hrn & Hfn & Hty).
    exists i. split_ands; auto; rewrite ?in_app_iff; auto 12.
Qed.

Lemma company_without_roc_flagged_witness :
  exists rep,
    validateAllOf Lenient [sampleCompany] None = Normal rep
    /\ exists i,
         In i (warnings rep)
         /\ rowNumber i = JNum 2
         /\ fieldName i = "transferor.rocNo"
         /\ errorType i = MISSING_ID.
Proof.
  eexists. split; [vm_compute; reflexivity|].
  destruct (company_without_roc_flagged Lenient [sampleCompany] None _
              ltac:(vm_compute; reflexivity)) as (rows & [He Hw] & Hrows).
  inversion Hrows as [|? row1 ? rows1 H1 Hrows1]; subst.
  inversion Hrows1; subst.
  destruct (H1 [("type", JStr (lit "1")); ("name", JStr (lit "ACME & CO"))]
              (JStr (lit "1")) JUndefined eq_refl eq_refl (or_introl eq_refl)
              eq_refl (or_introl eq_refl))
    as (i & _ & Hrn & Hfn & _ & Hin & Hty).
  exists i. rewrite Hw. cbn [map concat]. rewrite app_nil_r. auto.
Defined.

(** C6. For every record of the input of either validator and each of
    [instrumentDate] and [instrumentDateReceive]: a string of the form
    two digits, slash, two digits, slash, four digits gives no
    [INVALID_DATE] issue on the field; any other non-empty string gives
    exactly one, among the errors; an absent, [null] or empty value
    gives none. *)
Theorem date_format_check :
  forall (v : validator) (mappedData : list jsobject)
         (attachmentFiles : option (gmap jsstring Attachment)) (rep : Report),
    validateAllOf v mappedData attachmentFiles = Normal rep ->
    exists rows,
      madeOf rep rows /\ Forall2 dateRule mappedData rows.
Proof.
  intros v rs st rep H.
  apply (report_rule dateRule v rs st rep); [|exact H].
  intros r [es ws] Hrow field Hfield.
  destruct (row_dates_of v r st es ws field Hrow Hfield) as [He Hw].
  cbn [fst snd]. rewrite He, Hw. split_ands.
  - intros s -> Hs. apply DATE_REGEX_matches in Hs.
    unfold regexTest. cbn [ToString]. rewrite Hs, andb_false_r. auto.
  - intros s -> Hne Hs.
    assert (Hm : matchSeq DATE_REGEX s = false).
    { destruct (matchSeq DATE_REGEX s) eqn:E; [|reflexivity].
      exfalso. apply Hs, DATE_REGEX_matches, E. }
    unfold regexTest. cbn [ToString]. rewrite Hm.
    destruct s; [congruence|]. auto.
  - intros [->|[->| ->]]; auto.
Qed.

Lemma date_format_check_witness :
  exists rep,
    validateAllOf Strict [sampleCompany] None = Normal rep
    /\ countIssues INVALID_DATE "instrumentDate" (errors rep) = 0%nat
    /\ countIssues INVALID_DATE "instrumentDateReceive" (errors rep) = 1%nat.
Proof.
  eexists. split; [vm_compute; reflexivity|].
  destruct (date_format_check Strict [sampleCompany] None _
              ltac:(vm_compute; reflexivity)) as (rows & [He Hw] & Hrows).
  inversion Hrows as [|? row1 ? rows1 H1 Hrows1]; subst.
  inversion Hrows1; subst.
  rewrite He. cbn [map concat]. rewrite app_nil_r. split.
  - destruct (H1 "instrumentDate" (or_introl eq_refl)) as (Hok & _).
    apply (Hok (lit "15/12/2024") eq_refl).
    apply DATE_REGEX_matches. reflexivity.
  - destruct (H1 "instrumentDateReceive" (or_intror (or_introl eq_refl)))
      as (_ & Hbad & _).
    apply (Hbad (lit "2024-12-16") eq_refl); [discriminate|].
    intros Hm. apply DATE_REGEX_matches in Hm. discriminate Hm.
Defined.

(** C10. For every record of the input of either validator whose
    attachment cell is a non-empty string of white space, when the
    store has no entry under the empty name: the trimmed name is empty,
    the row has the [MISSING_FILE] issue for the empty name among its
    errors and no [MISSING_ATTACHMENT] warning. *)
Theorem blank_attachment_is_missing_file :
  forall (v : validator) (mappedData : list jsobject)
         (attachmentFiles : option (gmap jsstring Attachment)) (rep : Report),
    validateAllOf v mappedData attachmentFiles = Normal rep ->
    storeHas attachmentFiles [] = false ->
    exists rows,
      madeOf rep rows /\ Forall2 blankAttachmentRule mappedData rows.
Proof.
  intros v rs st rep H Hst.
  apply (report_rule blankAttachmentRule v rs st rep); [|exact H].
  intros r [es ws] Hrow s Hs Hne Hws.
  pose proof (trim_whitespace s Hws) as Htrim.
  split; [exact Htrim|].
  rewrite <- Htrim. cbn [fst snd].
  apply (row_missing_file_of v r st es ws s Hrow Hs Hne).
  rewrite Htrim. exact Hst.
Qed.

Lemma blank_attachment_is_missing_file_witness :
  exists rep,
    validateAllOf Strict [sampleBlank] (Some sampleStore) = Normal rep
    /\ storeHas (Some sampleStore) [] = false
    /\ In (missingFileIssue sampleBlank []) (errors rep).
Proof.
  eexists. split; [vm_compute; reflexivity|].
  split; [vm_compute; reflexivity|].
  destruct (blank_attachment_is_missing_file Strict [sampleBlank] (Some sampleStore) _
              ltac:(vm_compute; reflexivity) ltac:(vm_compute; reflexivity))
    as (rows & [He Hw] & Hrows).
  inversion Hrows as [|? row1 ? rows1 H1 Hrows1]; subst.
  inversion Hrows1; subst.
  destruct (H1 (lit "  ") eq_refl ltac:(discriminate)
              ltac:(repeat constructor)) as (_ & Hin & _).
  rewrite He. cbn [map concat]. rewrite app_nil_r. exact Hin.
Defined.

(* ================================================================== *)
(** * Further properties *)
(* ================================================================== *)

(* ------------------------------------------------------------------ *)
(** ** Batching *)

Section MoreBatching.

Variable getAttachmentBase64 : jsstring -> completion jsval.

Local Abbreviation frag := (fun r => generateInstrumentXml r getAttachmentBase64).

Lemma cutWhenFull_snoc gs g r :
cutWhenFull getAttachmentBase64 (gs ++ [g]) ->
MAX_BATCH_SIZE < accumulated (map frag g) + blobSize (frag r) ->
cutWhenFull getAttachmentBase64 ((gs ++ [g]) ++ [[r]]).
Proof.
intros Hcut Hbig k g1 r1 t1 H1 H2.
apply lookup_app_Some in H2 as [H2|[Hlen H2]].
- apply (Hcut k g1 r1 t1); [|exact H2].
  apply lookup_app_Some in H1 as [H1|[Hlen H1]]; [exact H1|].
  apply lookup_lt_Some in H2. lia.
- destruct (S k - length (gs ++ [g]))%nat as [|n] eqn:E; [|destruct n; discriminate].
  cbn in H2. injection H2 as <- <-.
  assert (Hk : k = length gs) by (rewrite length_app in *; cbn [length] in *; lia).
  subst k. rewrite <- app_assoc in H1. rewrite lookup_app_r in H1 by lia.
  rewrite Nat.sub_diag in H1. cbn in H1. injection H1 as <-. exact Hbig.
Qed.

Lemma cutWhenFull_extend gs g t :
(g = [] -> gs = []) ->
cutWhenFull getAttachmentBase64 (gs ++ [g]) ->
cutWhenFull getAttachmentBase64 (gs ++ [g ++ t]).
Proof.
intros Hg Hcut k g1 r1 t1 H1 H2.
apply lookup_app_Some in H1 as [H1|[Hlen H1]].
- apply lookup_app_Some in H2 as [H2|[Hlen2 H2]].
  + apply (Hcut k g1 r1 t1); apply lookup_app_Some; left; assumption.
  + destruct (S k - length gs)%nat as [|n] eqn:E; [|destruct n; discriminate].
    cbn in H2. injection H2 as H2.
    destruct g as [|x g'].
    * rewrite (Hg eq_refl) in H1. discriminate.
    * cbn [app] in H2. injection H2 as <- <-.
      apply (Hcut k g1 x g'); apply lookup_app_Some.
      -- left. exact H1.
      -- right. split; [lia|]. rewrite E. reflexivity.
- apply lookup_lt_Some in H2. rewrite length_app in H2. cbn [length] in H2. lia.
Qed.

Lemma generateXml_loop_cut rs :
forall batches cur gs g,
  Forall2 (batchOf getAttachmentBase64) gs batches ->
  holds getAttachmentBase64 g cur ->
  cutWhenFull getAttachmentBase64 (gs ++ [g]) ->
  (g = [] -> gs = []) ->
  exists gs' g',
    Forall2 (batchOf getAttachmentBase64) gs'
      (fst (generateXml_loop getAttachmentBase64 rs batches cur))
    /\ holds getAttachmentBase64 g'
         (snd (generateXml_loop getAttachmentBase64 rs batches cur))
    /\ concat gs' ++ g' = concat gs ++ g ++ rs
    /\ cutWhenFull getAttachmentBase64 (gs' ++ [g'])
    /\ (g' = [] -> gs' = []).
Proof.
induction rs as [|r rest IH]; intros batches cur gs g Hgs Hcur Hcut Hg.
- exists gs, g. cbn [generateXml_loop fst snd]. rewrite app_nil_r. auto.
- cbn [generateXml_loop].
  destruct ((CurrentBatch.size cur + blobSize (frag r) >? MAX_BATCH_SIZE)
            && (0 <? length (CurrentBatch.instruments cur))%nat) eqn:Hcond.
  + apply andb_true_iff in Hcond as [Hover Hlen].
    apply Nat.ltb_lt in Hlen.
    assert (Hne : g <> []).
    { intros ->. destruct Hcur as (Hi & _). rewrite Hi in Hlen.
      cbn [map length] in Hlen. lia. }
    assert (Hbig : MAX_BATCH_SIZE < accumulated (map frag g) + blobSize (frag r)).
    { destruct Hcur as (_ & Hs & _). rewrite <- Hs.
      rewrite Z.gtb_ltb in Hover. apply Z.ltb_lt in Hover. exact Hover. }
    destruct (IH (batches ++ [finalizeBatch cur (Z.of_nat (length batches) + 1)])
                {| CurrentBatch.instruments := [] ++ [frag r];
                   CurrentBatch.size :=
                     strLength XML_HEADER + strLength XML_FOOTER + blobSize (frag r);
                   CurrentBatch.recordCount := 0 + 1 |}
                (gs ++ [g]) [r]) as (gs' & g' & H1 & H2 & H3 & H4 & H5).
    * apply Forall2_app; [assumption|].
      constructor; [|constructor]. apply finalize_batchOf; assumption.
    * unfold holds, accumulated.
      cbn [CurrentBatch.instruments CurrentBatch.size
           CurrentBatch.recordCount map fragmentsSize length app].
      split_ands; try lia; reflexivity.
    * apply cutWhenFull_snoc; assumption.
    * discriminate.
    * exists gs', g'. split_ands; try assumption.
      rewrite H3, concat_app. cbn [concat app].
      rewrite app_nil_r, <- app_assoc. reflexivity.
  + pose proof Hcur as (Hi & Hs & Hc & Hb).
    destruct (IH batches
                {| CurrentBatch.instruments := CurrentBatch.instruments cur ++ [frag r];
                   CurrentBatch.size := CurrentBatch.size cur + blobSize (frag r);
                   CurrentBatch.recordCount := CurrentBatch.recordCount cur + 1 |}
                gs (g ++ [r])) as (gs' & g' & H1 & H2 & H3 & H4 & H5).
    * assumption.
    * unfold holds. cbn [CurrentBatch.instruments CurrentBatch.size
                           CurrentBatch.recordCount].
      rewrite map_app, length_app. cbn [map length].
      unfold accumulated in *. rewrite fragmentsSize_app.
      split_ands; try (rewrite ?Hi, ?Hs, ?Hc; lia); [rewrite Hi; reflexivity|].
      intros Hlen.
      apply andb_false_iff in Hcond as [Hcond|Hcond].
      -- rewrite Z.gtb_ltb in Hcond. apply Z.ltb_ge in Hcond. exact Hcond.
      -- apply Nat.ltb_ge in Hcond. rewrite Hi, length_map in Hcond. lia.
    * apply cutWhenFull_extend; assumption.
    * intros E. destruct g; discriminate E.
    * exists gs', g'. split_ands; try assumption.
      rewrite H3, <- app_assoc. reflexivity.
Qed.

Lemma generateXml_loop_app rs1 :
forall rs2 batches cur,
  generateXml_loop getAttachmentBase64 (rs1 ++ rs2) batches cur
  = generateXml_loop getAttachmentBase64 rs2
      (fst (generateXml_loop getAttachmentBase64 rs1 batches cur))
      (snd (generateXml_loop getAttachmentBase64 rs1 batches cur)).
Proof.
induction rs1 as [|r rest IH]; intros rs2 batches cur; [reflexivity|].
cbn [app generateXml_loop].
destruct ((CurrentBatch.size cur + blobSize (frag r) >? MAX_BATCH_SIZE)
          && (0 <? length (CurrentBatch.instruments cur))%nat); apply IH.
Qed.

Lemma generateXml_loop_extends rs :
forall batches cur,
  exists more,
    fst (generateXml_loop getAttachmentBase64 rs batches cur) = batches ++ more.
Proof.
induction rs as [|r rest IH]; intros batches cur.
- exists []. cbn [generateXml_loop fst]. rewrite app_nil_r. reflexivity.
- cbn [generateXml_loop].
  destruct ((CurrentBatch.size cur + blobSize (frag r) >? MAX_BATCH_SIZE)
            && (0 <? length (CurrentBatch.instruments cur))%nat).
  + destruct (IH (batches ++ [finalizeBatch cur (Z.of_nat (length batches) + 1)])
                {| CurrentBatch.instruments := [] ++ [frag r];
                   CurrentBatch.size := CurrentBatch.size emptyBatch + blobSize (frag r);
                   CurrentBatch.recordCount := 0 + 1 |}) as [more Hm].
    eexists. etransitivity; [exact Hm|]. rewrite <- app_assoc. reflexivity.
  + apply IH.
Qed.

Lemma generateXml_loop_nonempty rs :
forall batches cur,
  rs <> [] ->
  (0 < length (CurrentBatch.instruments
                 (snd (generateXml_loop getAttachmentBase64 rs batches cur))))%nat.
Proof.
induction rs as [|r rest IH]; intros batches cur Hne; [congruence|].
cbn [generateXml_loop].
destruct ((CurrentBatch.size cur + blobSize (frag r) >? MAX_BATCH_SIZE)
          && (0 <? length (CurrentBatch.instruments cur))%nat);
  (destruct rest as [|r' rest'];
   [cbn [generateXml_loop snd CurrentBatch.instruments];
    rewrite length_app; cbn [length]; lia
   | apply IH; discriminate]).
Qed.

End MoreBatching.

(** X1. [generateXml] cuts a batch only when it has to: for two
    consecutive batches, the first record of the later one, added to
    the earlier one, would have taken it over [MAX_BATCH_SIZE]. *)
Theorem batches_cut_when_full :
  forall (getAttachmentBase64 : jsstring -> completion jsval)
         (mappedData : list jsobject),
    exists groups : list (list jsobject),
      concat groups = mappedData
      /\ Forall2 (fun g b =>
           OutputBatch.content b =
             XML_HEADER
             ++ concat (map (fun r => generateInstrumentXml r getAttachmentBase64) g)
             ++ XML_FOOTER
           /\ OutputBatch.size b =
                accumulated (map (fun r => generateInstrumentXml r getAttachmentBase64) g))
           groups (generateXml getAttachmentBase64 mappedData)
      /\ cutWhenFull getAttachmentBase64 groups.
Proof.
  intros getB64 rs.
  destruct (generateXml_loop_cut getB64 rs [] emptyBatch [] [])
    as (gs' & g' & H1 & H2 & H3 & H4 & H5);
    [constructor | apply holds_empty | | reflexivity |].
  { intros k g r t Hk HSk. destruct k; discriminate. }
  unfold generateXml.
  destruct (generateXml_loop getB64 rs [] emptyBatch) as [batches cur].
  cbn [fst snd concat app] in *.
  assert (Hproj : forall gs bs,
             Forall2 (batchOf getB64) gs bs ->
             Forall2 (fun g b =>
               OutputBatch.content b =
                 XML_HEADER
                 ++ concat (map (fun r => generateInstrumentXml r getB64) g)
                 ++ XML_FOOTER
               /\ OutputBatch.size b =
                    accumulated (map (fun r => generateInstrumentXml r getB64) g))
               gs bs).
  { intros gs bs Hf. eapply Forall2_impl; [exact Hf|].
    intros g b (_ & Hc & _ & _ & Hacc & _). auto. }
  destruct (0 <? length (CurrentBatch.instruments cur))%nat eqn:Hlen.
  - apply Nat.ltb_lt in Hlen.
    assert (Hg : g' <> []).
    { intros ->. destruct H2 as (Hi & _). rewrite Hi in Hlen.
      cbn [map length] in Hlen. lia. }
    exists (gs' ++ [g']). split_ands.
    + rewrite concat_app. cbn [concat]. rewrite app_nil_r. exact H3.
    + apply Hproj, Forall2_app; [assumption|].
      constructor; [|constructor]. apply finalize_batchOf; assumption.
    + exact H4.
  - apply Nat.ltb_ge in Hlen.
    assert (Hg : g' = []).
    { destruct H2 as (Hi & _). rewrite Hi, length_map in Hlen.
      destruct g'; [reflexivity|cbn [length] in Hlen; lia]. }
    subst g'. rewrite (H5 eq_refl) in *. exists []. split_ands.
    + rewrite app_nil_r in H3. exact H3.
    + apply Hproj. exact H1.
    + intros k g r t Hk. destruct k; discriminate.
Qed.

(** X2. Records added at the end of the input leave the batches that
    were already closed as they are: all batches of the shorter input
    but its last one come first, unchanged, in the batches of the
    longer input. *)
Theorem closed_batches_are_kept :
  forall (getAttachmentBase64 : jsstring -> completion jsval)
         (mappedData more : list jsobject),
    exists tail,
      generateXml getAttachmentBase64 (mappedData ++ more)
      = removelast (generateXml getAttachmentBase64 mappedData) ++ tail.
Proof.
  intros getB64 rs more.
  assert (Hclosed : removelast (generateXml getB64 rs)
                    = fst (generateXml_loop getB64 rs [] emptyBatch)).
  { unfold generateXml.
    destruct rs as [|r rest]; [reflexivity|].
    pose proof (generateXml_loop_nonempty getB64 (r :: rest) [] emptyBatch
                  ltac:(discriminate)) as Hne.
    destruct (generateXml_loop getB64 (r :: rest) [] emptyBatch) as [bs cur].
    cbn [fst snd] in *. apply Nat.ltb_lt in Hne. rewrite Hne.
    apply removelast_last. }
  rewrite Hclosed. unfold generateXml. rewrite generateXml_loop_app.
  destruct (generateXml_loop getB64 rs [] emptyBatch) as [bs cur]. cbn [fst snd].
  destruct (generateXml_loop_extends getB64 more bs cur) as [t Ht].
  destruct (generateXml_loop getB64 more bs cur) as [bs' cur']. cbn [fst] in Ht.
  subst bs'.
  destruct (0 <? length (CurrentBatch.instruments cur'))%nat.
  - eexists. rewrite <- app_assoc. reflexivity.
  - eexists. reflexivity.
Qed.

(** X3. [generateXml] returns no batch exactly when it is given no
    record (there is no empty document), never more batches than
    records, and every batch holds at least one record. *)
Theorem batch_count_bounds :
  forall (getAttachmentBase64 : jsstring -> completion jsval)
         (mappedData : list jsobject),
    let batches := generateXml getAttachmentBase64 mappedData in
    (batches = [] <-> mappedData = [])
    /\ (length batches <= length mappedData)%nat
    /\ Forall (fun b => 1 <= OutputBatch.recordCount b) batches.
Proof.
  intros getB64 rs batches.
  destruct (generateXml_structure getB64 rs) as (gs & Hcat & Hgs).
  fold batches in Hgs.
  assert (Hlen : length gs = length batches) by (eapply Forall2_length; exact Hgs).
  assert (Hne : Forall (fun g => g <> []) gs).
  { clear Hcat Hlen. induction Hgs as [|g b gs' bs (Hg & _) _ IH]; constructor; assumption. }
  assert (Hle : (length gs <= length (concat gs))%nat).
  { clear Hcat Hlen Hgs. induction Hne as [|g gs' Hg _ IH]; [cbn; lia|].
    cbn [concat length]. rewrite length_app.
    destruct g; [congruence|cbn [length]; lia]. }
  rewrite Hcat in Hle. split_ands.
  - split.
    + intros E. rewrite E in Hlen. destruct gs; [|discriminate].
      rewrite <- Hcat. reflexivity.
    + intros E. rewrite E in Hle. cbn [length] in Hle.
      destruct batches; [reflexivity|cbn [length] in Hlen; lia].
  - lia.
  - eapply Forall_impl; [exact (batchOf_bounds getB64 gs batches Hgs)|].
    intros b [H _]. exact H.
Qed.

(* ------------------------------------------------------------------ *)
(** ** Escaped text and markup *)

Lemma escapeChar_no_markup x :
  Forall (fun c => isMarkup c = false) (escapeChar x).
Proof.
  unfold escapeChar.
  destruct (N.eqb_spec x 38); [repeat constructor|].
  destruct (N.eqb_spec x 60) as [|H60]; [repeat constructor|].
  destruct (N.eqb_spec x 62) as [|H62]; [repeat constructor|].
  destruct (N.eqb_spec x 34) as [|H34]; [repeat constructor|].
  destruct (N.eqb_spec x 39) as [|H39]; [repeat constructor|].
  constructor; [|constructor]. unfold isMarkup.
  rewrite (proj2 (N.eqb_neq x 60)), (proj2 (N.eqb_neq x 62)),
    (proj2 (N.eqb_neq x 34)), (proj2 (N.eqb_neq x 39)) by assumption.
  reflexivity.
Qed.

Lemma escapeXml_as_flat_map v :
  escapeXml v
  = match v with
    | JNull | JUndefined => []
    | _ => flat_map escapeChar (ToString v)
    end.
Proof.
  destruct v as [| |b|n|s|o]; try reflexivity.
  - change (escapeXml (JBool b)) with (escapeXml (JStr (ToString (JBool b)))).
    apply escapeString_flat_map.
  - change (escapeXml (JNum n)) with (escapeXml (JStr (ToString (JNum n)))).
    apply escapeString_flat_map.
  - apply escapeString_flat_map.
Qed.

Lemma escapeXml_Forall_no_markup v :
  Forall (fun c => isMarkup c = false) (escapeXml v).
Proof.
  rewrite escapeXml_as_flat_map.
  assert (H : forall s, Forall (fun c => isMarkup c = false) (flat_map escapeChar s)).
  { induction s as [|x s IH]; [constructor|].
    cbn [flat_map]. apply Forall_app. split; [apply escapeChar_no_markup|exact IH]. }
  destruct v; try apply H; constructor.
Qed.

Lemma countChar_app c a b :
  countChar c (a ++ b) = (countChar c a + countChar c b)%nat.
Proof.
  induction a as [|x a IH]; cbn [countChar app]; [reflexivity|].
  rewrite IH. lia.
Qed.

Lemma countChar_no_markup c s :
  isMarkup c = true ->
  Forall (fun x => isMarkup x = false) s -> countChar c s = 0%nat.
Proof.
  intros Hc. induction 1 as [|x s Hx _ IH]; [reflexivity|].
  cbn [countChar]. rewrite IH.
  destruct (N.eqb_spec x c) as [->|]; [congruence|reflexivity].
Qed.

Lemma countChar_escapeXml c v :
  isMarkup c = true -> countChar c (escapeXml v) = 0%nat.
Proof.
  intros Hc. apply countChar_no_markup; [exact Hc|apply escapeXml_Forall_no_markup].
Qed.

Ltac count_literals :=
  repeat match goal with
         | |- context [countChar ?c (lit ?s)] =>
             let v := eval vm_compute in (countChar c (lit s)) in
             change (countChar c (lit s)) with v
         | |- context [countChar ?c dquote] =>
             let v := eval vm_compute in (countChar c dquote) in
             change (countChar c dquote) with v
         end.

Lemma template_markup c r name body :
  isMarkup c = true ->
  countChar c (instrumentTemplate r name body)
  = (countChar c (instrumentTemplate [] (JStr []) (JStr []))
     + countChar c (ToString body))%nat.
Proof.
  intros Hc.
  assert (Hcases : c = 60%N \/ c = 62%N \/ c = 34%N \/ c = 39%N).
  { unfold isMarkup in Hc. rewrite !orb_true_iff, !N.eqb_eq in Hc. tauto. }
  replace (countChar c (instrumentTemplate [] (JStr []) (JStr [])))
    with (if (c =? 60)%N then 126%nat else if (c =? 62)%N then 126%nat
          else if (c =? 34)%N then 2%nat else 0%nat)
    by (destruct Hcases as [->|[->|[->| ->]]]; vm_compute; reflexivity).
  unfold instrumentTemplate. rewrite !countChar_app.
  rewrite !(countChar_escapeXml c) by exact Hc.
  destruct Hcases as [->|[->|[->| ->]]]; count_literals; cbn [N.eqb Pos.eqb]; lia.
Qed.

(** X4. The text [escapeXml] returns, for any value, holds none of the
    characters [<], [>], double quote and apostrophe. *)
Theorem escapeXml_no_markup :
  forall (v : jsval) (c : codeunit),
    In c (escapeXml v) -> c <> 60%N /\ c <> 62%N /\ c <> 34%N /\ c <> 39%N.
Proof.
  intros v c Hin.
  pose proof (escapeXml_Forall_no_markup v) as H.
  rewrite Forall_forall in H. specialize (H c).
  assert (Hm : isMarkup c = false) by (apply H, list_elem_of_In, Hin).
  unfold isMarkup in Hm. rewrite !orb_false_iff, !N.eqb_neq in Hm. tauto.
Qed.

Lemma escapeXml_no_markup_witness :
  In 38%N (escapeXml (JStr (lit "<a>")))
  /\ (38%N <> 60%N /\ 38%N <> 62%N /\ 38%N <> 34%N /\ 38%N <> 39%N).
Proof.
  split; [vm_compute; auto|].
  apply (escapeXml_no_markup (JStr (lit "<a>")) 38%N). vm_compute. auto.
Defined.

(** X5. The fields of a record add no markup to its fragment: whatever
    the record, a fragment has the [<], [>], double quotes and
    apostrophes of the bare template (126, 126, 2 and 0) and those of
    the attachment data, which is inserted as it is. *)
Theorem fragment_markup :
  forall (record : jsobject) (getAttachmentBase64 : jsstring -> completion jsval),
    let body :=
      ToString (fetchAttachment (jsOr (lookupProp record "attachment") (JStr []))
                  getAttachmentBase64) in
    let fragment := generateInstrumentXml record getAttachmentBase64 in
    countChar 60%N fragment = (126 + countChar 60%N body)%nat
    /\ countChar 62%N fragment = (126 + countChar 62%N body)%nat
    /\ countChar 34%N fragment = (2 + countChar 34%N body)%nat
    /\ countChar 39%N fragment = countChar 39%N body.
Proof.
  intros record getB64 body fragment. subst body fragment.
  unfold generateInstrumentXml.
  split_ands; rewrite template_markup by reflexivity; reflexivity.
Qed.

(* ------------------------------------------------------------------ *)
(** ** More on the validators *)

Section MoreValidatorFacts.

Variable MANDATORY_FIELDS : list string.
Variable displayNames : list (string * string).
Variable partyChecks : string -> jsobject -> jsval -> list Issue * list Issue.

Hypothesis party_rows :
forall who r rn i,
  In i (fst (partyChecks who r rn)) \/ In i (snd (partyChecks who r rn)) ->
  rowNumber i = rn.

Local Abbreviation validateRecord' := (validateRecord MANDATORY_FIELDS displayNames partyChecks).
Local Abbreviation validateAll' := (validateAll MANDATORY_FIELDS displayNames partyChecks).

Lemma row_rownumbers r st es ws i :
validateRecord' r st = Normal (es, ws) ->
In i es \/ In i ws ->
rowNumber i = lookupProp r "_rowNumber".
Proof.
intros H Hi.
apply validateRecord_inv in H as (ae & aw & Ha & -> & ->).
assert (Hatt : forall j, In j ae \/ In j aw -> rowNumber j = lookupProp r "_rowNumber").
{ unfold attachmentCheck in Ha. destruct (truthy _).
  - destruct (callTrim _) as [f|]; cbn [bind] in Ha; [|discriminate].
    destruct (negb _); injection Ha as <- <-; cbn [In];
      intros j Hj; intuition (subst; reflexivity).
  - injection Ha as <- <-. cbn [In]. intros j Hj. intuition (subst; reflexivity). }
rewrite !in_app_iff in Hi.
destruct Hi as [[Hi|[Hi|[Hi|[Hi|Hi]]]]|[Hi|[Hi|[Hi|Hi]]]];
  try (apply Hatt; auto; fail);
  try (eapply party_rows; eauto; fail).
- unfold mandatoryChecks in Hi. apply in_flat_map in Hi as (f & _ & Hi).
  destruct (_ || _); [|destruct Hi]. destruct Hi as [<-|[]]. reflexivity.
- unfold dateChecks in Hi. apply in_flat_map in Hi as (f & _ & Hi).
  destruct (_ && _); [|destruct Hi]. destruct Hi as [<-|[]]. reflexivity.
- unfold numericChecks in Hi. apply in_flat_map in Hi as (f & _ & Hi).
  destruct (_ && _); [|destruct Hi]. destruct Hi as [<-|[]]. reflexivity.
Qed.







Lemma numericChecks_count r rn field :
In field numericFields ->
countIssues INVALID_NUMBER field (numericChecks displayNames r rn)
= if negb (isUndefined (lookupProp r field))
     && negb (isEmptyString (lookupProp r field))
     && parseFloatIsNaN (lookupProp r field)
  then 1%nat else 0%nat.
Proof.
unfold numericChecks, numericFields. cbn [flat_map app].
intros Hin.
repeat (destruct Hin as [<-|Hin];
        [repeat match goal with
                | |- context [if ?b then _ else _] =>
                    lazymatch b with
                    | context [lookupProp] => destruct b
                    end
                end; reflexivity|]).
destruct Hin.
Qed.

End MoreValidatorFacts.

Lemma strict_party_rows who r rn i :
  In i (fst (ValidatorStrict.partyChecks who r rn))
  \/ In i (snd (ValidatorStrict.partyChecks who r rn)) ->
  rowNumber i = rn.
Proof.
  unfold ValidatorStrict.partyChecks. intros H. party_cases H.
  all: intuition (subst; reflexivity).
Qed.

Lemma lenient_party_rows who r rn i :
  In i (fst (ValidatorLenient.partyChecks who r rn))
  \/ In i (snd (ValidatorLenient.partyChecks who r rn)) ->
  rowNumber i = rn.
Proof.
  unfold ValidatorLenient.partyChecks. intros H. party_cases H.
  all: intuition (subst; reflexivity).
Qed.

Lemma row_kinds_of v r st es ws :
  validateRecordOf v r st = Normal (es, ws) ->
  (forall i, In i es ->
     errorType i = MISSING_FIELD \/ errorType i = INVALID_DATE
     \/ errorType i = MISSING_FILE)
  /\ (forall i, In i ws ->
        errorType i = INVALID_NUMBER \/ errorType i = MISSING_ATTACHMENT
        \/ errorType i = MISSING_ID).
Proof.
  destruct v.
  - apply row_kinds;
      [apply strict_party_errors_kind | apply strict_party_warnings_kind].
  - apply row_kinds;
      [apply lenient_party_errors_kind | apply lenient_party_warnings_kind].
Qed.

Lemma in_concat_rows {A} (f : list Issue * list Issue -> list A)
    (rs : list jsobject) rows (P : jsobject -> list Issue * list Issue -> Prop) x :
  Forall2 P rs rows -> In x (concat (map f rows)) ->
  exists r row, In r rs /\ P r row /\ In x (f row).
Proof.
  induction 1 as [|r row rs' rows' Hp _ IH]; cbn [map concat]; [intros []|].
  rewrite in_app_iff. intros [Hx|Hx].
  - exists r, row. split_ands; [left; reflexivity|exact Hp|exact Hx].
  - destruct (IH Hx) as (r' & row' & Hr & Hp' & Hx').
    exists r', row'. split_ands; [right; exact Hr|exact Hp'|exact Hx'].
Qed.

(** X6. The lists of the report and the classes of the rendered list
    agree: every issue among [errors] is of a type [runValidation]
    renders as an error (MISSING_FIELD, INVALID_DATE or MISSING_FILE)
    and every issue among [warnings] of a type it renders as a warning
    (INVALID_NUMBER, MISSING_ATTACHMENT or MISSING_ID); both validators. *)
Theorem severity_matches_display :
  forall (v : validator) (mappedData : list jsobject)
         (attachmentFiles : option (gmap jsstring Attachment)) (rep : Report),
    validateAllOf v mappedData attachmentFiles = Normal rep ->
    (forall i, In i (errors rep) ->
       issueClass i = "error"
       /\ (errorType i = MISSING_FIELD \/ errorType i = INVALID_DATE
           \/ errorType i = MISSING_FILE))
    /\ (forall i, In i (warnings rep) ->
          issueClass i = "warning"
          /\ (errorType i = INVALID_NUMBER \/ errorType i = MISSING_ATTACHMENT
              \/ errorType i = MISSING_ID)).
Proof.
  intros v rs st rep H.
  apply validateAllOf_rows in H as (rows & Hrows & He & Hw & _).
  rewrite He, Hw. split; intros i Hi.
  - destruct (in_concat_rows fst rs rows _ i Hrows Hi) as (r & [es ws] & _ & Hrow & Hin).
    destruct (row_kinds_of v r st es ws Hrow) as [Hk _].
    specialize (Hk i Hin). split; [|exact Hk].
    unfold issueClass. destruct Hk as [->|[->| ->]]; reflexivity.
  - destruct (in_concat_rows snd rs rows _ i Hrows Hi) as (r & [es ws] & _ & Hrow & Hin).
    destruct (row_kinds_of v r st es ws Hrow) as [_ Hk].
    specialize (Hk i Hin). split; [|exact Hk].
    unfold issueClass. destruct Hk as [->|[->| ->]]; reflexivity.
Qed.

Lemma severity_matches_display_witness :
  exists rep,
    validateAllOf Lenient [sampleCompany] None = Normal rep
    /\ (forall i, In i (warnings rep) -> issueClass i = "warning").
Proof.
  eexists. split; [vm_compute; reflexivity|].
  intros i Hi.
  exact (proj1 (proj2 (severity_matches_display Lenient [sampleCompany] None _
                         ltac:(vm_compute; reflexivity)) i Hi)).
Defined.

(** X7. Every issue of a report carries the [_rowNumber] of a record of
    the input; both validators. *)
Theorem issues_carry_row_numbers :
  forall (v : validator) (mappedData : list jsobject)
         (attachmentFiles : option (gmap jsstring Attachment)) (rep : Report)
         (i : Issue),
    validateAllOf v mappedData attachmentFiles = Normal rep ->
    In i (errors rep) \/ In i (warnings rep) ->
    exists r, In r mappedData /\ rowNumber i = lookupProp r "_rowNumber".
Proof.
  intros v rs st rep i H Hi.
  apply validateAllOf_rows in H as (rows & Hrows & He & Hw & _).
  rewrite He, Hw in Hi.
  assert (Hrn : forall r es ws j,
             validateRecordOf v r st = Normal (es, ws) ->
             In j es \/ In j ws -> rowNumber j = lookupProp r "_rowNumber").
  { intros r es ws j. destruct v.
    - apply row_rownumbers, strict_party_rows.
    - apply row_rownumbers, lenient_party_rows. }
  destruct Hi as [Hi|Hi].
  - destruct (in_concat_rows fst rs rows _ i Hrows Hi) as (r & [es ws] & Hr & Hrow & Hin).
    exists r. split; [exact Hr|]. apply (Hrn r es ws i Hrow). left. exact Hin.
  - destruct (in_concat_rows snd rs rows _ i Hrows Hi) as (r & [es ws] & Hr & Hrow & Hin).
    exists r. split; [exact Hr|]. apply (Hrn r es ws i Hrow). right. exact Hin.
Qed.

Lemma issues_carry_row_numbers_witness :
  exists rep,
    validateAllOf Strict [sampleBlank] (Some sampleStore) = Normal rep
    /\ exists r, In r [sampleBlank]
                 /\ rowNumber (missingFileIssue sampleBlank [])
                    = lookupProp r "_rowNumber".
Proof.
  eexists. split; [vm_compute; reflexivity|].
  apply (issues_carry_row_numbers Strict [sampleBlank] (Some sampleStore) _
           (missingFileIssue sampleBlank []) ltac:(vm_compute; reflexivity)).
  left. vm_compute. auto 30.
Defined.









Lemma digit_is_plain c :
  isDigit c = true ->
  isWhiteSpace c = false /\ (c =? 43)%N = false /\ (c =? 45)%N = false.
Proof.
  unfold isDigit. rewrite andb_true_iff, !N.leb_le. intros [H1 H2].
  split_ands.
  - apply not_true_is_false. unfold isWhiteSpace.
    rewrite !orb_true_iff, !andb_true_iff, !N.eqb_eq, !N.leb_le. lia.
  - apply N.eqb_neq. lia.
  - apply N.eqb_neq. lia.
Qed.

Lemma parseFloat_digit_start c s :
  isDigit c = true -> parseFloatIsNaN (JStr (c :: s)) = false.
Proof.
  intros Hd. destruct (digit_is_plain c Hd) as (Hw & Hp & Hm).
  unfold parseFloatIsNaN. cbn [ToString trimStart]. rewrite Hw, Hp, Hm.
  cbn [orb]. rewrite Hd. cbn [orb]. rewrite orb_true_r. reflexivity.
Qed.

Lemma row_numeric_of v r st es ws field :
  validateRecordOf v r st = Normal (es, ws) ->
  In field numericFields ->
  countIssues INVALID_NUMBER field es = 0%nat
  /\ countIssues INVALID_NUMBER field ws
     = (if negb (isUndefined (lookupProp r field))
           && negb (isEmptyString (lookupProp r field))
           && parseFloatIsNaN (lookupProp r field)
        then 1%nat else 0%nat).
Proof.
  intros H Hin. split.
  - destruct (row_kinds_of v r st es ws H) as [Hk _].
    clear H. induction es as [|i es IH]; [reflexivity|].
    cbn [countIssues]. rewrite IH by (intros j Hj; apply Hk; right; exact Hj).
    destruct (Hk i (or_introl eq_refl)) as [->|[->| ->]]; reflexivity.
  - destruct v; cbn [validateRecordOf] in *;
      apply validateRecord_inv in H as (ae & aw & Ha & _ & ->);
      apply attachmentCheck_kinds in Ha as [_ Haw];
      rewrite !countIssues_app, (numericChecks_count _ _ _ _ Hin);
      rewrite (countIssues_other_kind _ _ MISSING_ATTACHMENT aw)
        by (assumption || discriminate);
      rewrite !(countIssues_other_kind _ _ MISSING_ID (snd _))
        by (eauto using strict_party_warnings_kind, lenient_party_warnings_kind
            || discriminate);
      lia.
Qed.

(** X10. For every record of the input of either validator and each
    numeric field: [INVALID_NUMBER] is never an error; a string that
    starts with a digit gives no issue whatever follows the number; an
    absent or empty cell gives none; [null] gives exactly one warning. *)
Theorem numeric_fields_check :
  forall (v : validator) (mappedData : list jsobject)
         (attachmentFiles : option (gmap jsstring Attachment)) (rep : Report),
    validateAllOf v mappedData attachmentFiles = Normal rep ->
    exists rows,
      madeOf rep rows /\ Forall2 numericRule mappedData rows.
Proof.
  intros v rs st rep H.
  apply (report_rule numericRule v rs st rep); [|exact H].
  intros r [es ws] Hrow field Hin. cbn [fst snd].
  destruct (row_numeric_of v r st es ws field Hrow Hin) as [He Hw].
  rewrite Hw. split_ands.
  - exact He.
  - intros c s -> Hd. rewrite (parseFloat_digit_start c s Hd), andb_false_r.
    reflexivity.
  - intros [-> | ->]; reflexivity.
  - intros ->. reflexivity.
  - reflexivity.
Qed.

Lemma numeric_fields_check_witness :
  exists rep,
    validateAllOf Lenient [sampleValid] (Some sampleStore) = Normal rep
    /\ countIssues INVALID_NUMBER "subsidiary" (warnings rep) = 1%nat
    /\ countIssues INVALID_NUMBER "consideration" (warnings rep) = 0%nat.
Proof.
  eexists. split; [vm_compute; reflexivity|].
  destruct (numeric_fields_check Lenient [sampleValid] (Some sampleStore) _
              ltac:(vm_compute; reflexivity)) as (rows & [He Hw] & Hrows).
  inversion Hrows as [|? row1 ? rows1 H1 Hrows1]; subst.
  inversion Hrows1; subst.
  rewrite Hw. cbn [map concat]. rewrite app_nil_r. split.
  - destruct (H1 "subsidiary" ltac:(cbn; auto 10)) as (_ & _ & _ & Hnull & _).
    apply Hnull. reflexivity.
  - destruct (H1 "consideration" ltac:(cbn; auto 10)) as (_ & Hdigit & _).
    apply (Hdigit 49%N (lit "00000.00")); reflexivity.
Defined.

Lemma concat_nil_rows {A} (f : list Issue * list Issue -> list A) rows :
  concat (map f rows) = [] -> Forall (fun row => f row = []) rows.
Proof.
  induction rows as [|row rows IH]; cbn [map concat]; intros H; constructor.
  - destruct (f row); [reflexivity|discriminate].
  - apply IH. destruct (f row); [exact H|discriminate].
Qed.

(** X11. When either validator finds no error, every record that names
    an attachment (a non-empty string) has it in the store under its
    trimmed name, and the fragment [generateXml] renders with the
    resolver of that store carries the stored data as the text of its
    attachment element. *)
Theorem valid_report_embeds_attachments :
  forall (v : validator) (mappedData : list jsobject)
         (m : gmap jsstring Attachment) (rep : Report),
    validateAllOf v mappedData (Some m) = Normal rep ->
    valid rep = true ->
    Forall (embeddedRule m) mappedData.
Proof.
  intros v rs m rep H Hvalid.
  apply validateAllOf_rows in H as (rows & Hrows & He & _ & _ & _ & _ & Hv).
  rewrite Hv in Hvalid. apply Nat.eqb_eq in Hvalid.
  assert (Hnil : errors rep = []) by (destruct (errors rep); [reflexivity|discriminate]).
  rewrite He in Hnil. apply concat_nil_rows in Hnil.
  clear He Hv Hvalid.
  induction Hrows as [|r [es ws] rs' rows' Hrow _ IH]; constructor.
  - inversion Hnil as [|? ? Hes _]; subst. cbn [fst] in Hes. subst es.
    intros s Hs Hne.
    assert (Hin : exists ae aw,
               attachmentCheck r (Some m) (lookupProp r "_rowNumber") = Normal (ae, aw)
               /\ ae = []).
    { destruct v; cbn [validateRecordOf] in Hrow;
        apply validateRecord_inv in Hrow as (ae & aw & Ha & Hes & _);
        exists ae, aw; (split; [exact Ha|]);
        symmetry in Hes; apply app_eq_nil in Hes as [_ Hes];
        apply app_eq_nil in Hes as [_ Hes]; apply app_eq_nil in Hes as [Hes _];
        exact Hes. }
    destruct Hin as (ae & aw & Ha & ->).
    destruct (m !! trim s) as [a|] eqn:Hm.
    + exists a. split; [reflexivity|].
      unfold generateInstrumentXml, fetchAttachment. rewrite Hs.
      destruct s as [|c s]; [congruence|].
      cbn [jsOr truthy callTrim bind]. unfold App.getAttachmentBase64. rewrite Hm.
      reflexivity.
    + rewrite (attachmentCheck_missing_file r (Some m) s Hs Hne) in Ha
        by (unfold storeHas; rewrite Hm; reflexivity).
      discriminate Ha.
  - apply IH. inversion Hnil; assumption.
Qed.

Lemma valid_report_embeds_attachments_witness :
  exists rep,
    validateAllOf Lenient [sampleValid] (Some sampleStore) = Normal rep
    /\ valid rep = true
    /\ generateInstrumentXml sampleValid (App.getAttachmentBase64 sampleStore)
       = instrumentTemplate sampleValid (JStr (lit " present.pdf ")) (JStr (lit "QUJD")).
Proof.
  eexists. split; [vm_compute; reflexivity|]. split; [vm_compute; reflexivity|].
  pose proof (valid_report_embeds_attachments Lenient [sampleValid] sampleStore _
                ltac:(vm_compute; reflexivity) ltac:(vm_compute; reflexivity)) as H.
  inversion H as [|? ? H1 _]; subst.
  destruct (H1 (lit " present.pdf ") eq_refl ltac:(discriminate)) as (a & Ha & Hfrag).
  rewrite Hfrag. f_equal.
  change (trim (lit " present.pdf ")) with (lit "present.pdf") in Ha.
  vm_compute in Ha. injection Ha as <-. reflexivity.
Defined.

(* ------------------------------------------------------------------ *)
(** ** The parser *)












Section MapperFacts.

Variable newDate : jsval -> option DateFields.




End MapperFacts.











Lemma forall_range (P : Z -> bool) (lo : Z) (len : nat) :
  forallb (fun i => P (lo + Z.of_nat i)) (seq 0 len) = true ->
  forall n, lo <= n < lo + Z.of_nat len -> P n = true.
Proof.
  intros H n Hn. rewrite forallb_forall in H.
  replace n with (lo + Z.of_nat (Z.to_nat (n - lo))) by lia.
  apply H. apply in_seq. lia.
Qed.

Lemma twoDigits_range n : 0 <= n <= 99 -> twoDigits n = true.
Proof.
  intros H. apply (forall_range twoDigits 0 100); [vm_compute; reflexivity|lia].
Qed.

Lemma fourDigits_range n : 1000 <= n <= 9999 -> fourDigits n = true.
Proof.
  intros H. apply (forall_range fourDigits 1000 (Z.to_nat 9000)); [vm_compute; reflexivity|lia].
Qed.

Lemma formatDate_parsed newDate value date :
  truthy value = true ->
  match value with JStr _ => true | _ => false end
    && regexTest DATE_REGEX value = false ->
  newDate value = Some date -> plausibleDate date ->
  exists s, formatDate newDate value = JStr s /\ isDDMMYYYY s.
Proof.
  intros Ht Hc Hd (Hday & Hmon & Hyear).
  unfold formatDate. rewrite Ht, Hc, Hd. cbn [negb].
  pose proof (twoDigits_range (getDate date) ltac:(lia)) as H1.
  pose proof (twoDigits_range (getMonth date + 1) ltac:(lia)) as H2.
  pose proof (fourDigits_range (getFullYear date) ltac:(lia)) as H3.
  unfold twoDigits in H1, H2. unfold fourDigits in H3.
  destruct (padStart 2 48%N (numberToString (getDate date)))
    as [|d1 [|d2 [|? ?]]]; try discriminate H1.
  destruct (padStart 2 48%N (numberToString (getMonth date + 1)))
    as [|m1 [|m2 [|? ?]]]; try discriminate H2.
  destruct (numberToString (getFullYear date))
    as [|y1 [|y2 [|y3 [|y4 [|? ?]]]]]; try discriminate H3.
  eexists. split; [reflexivity|].
  exists d1, d2, m1, m2, y1, y2, y3, y4. split; [reflexivity|].
  apply andb_true_iff in H1 as [H1a H1b].
  apply andb_true_iff in H2 as [H2a H2b].
  apply andb_true_iff in H3 as [H3 H3d].
  apply andb_true_iff in H3 as [H3 H3c].
  apply andb_true_iff in H3 as [H3a H3b].
  repeat constructor; assumption.
Qed.

Lemma formatDate_canonical newDate s :
  isDDMMYYYY s -> formatDate newDate (JStr s) = JStr s.
Proof.
  intros Hs. pose proof Hs as Hm. apply DATE_REGEX_matches in Hm.
  unfold formatDate, regexTest. cbn [ToString]. rewrite Hm.
  destruct Hs as (d1 & d2 & m1 & m2 & y1 & y2 & y3 & y4 & -> & _).
  reflexivity.
Qed.






(** X15 (parser.js, [formatDate]).  With an engine whose dates have a
    day of 1 to 31, a month of 0 to 11 and a year of four digits:
    a falsy value gives the empty string; a truthy one gives either text
    of the form DD/MM/YYYY (it had that form already, or the engine could
    read it), or the value itself, unchanged, when it has not that form
    and the engine cannot read it. *)
Theorem formatDate_result :
  forall (newDate : jsval -> option DateFields) (value : jsval),
    (forall date, newDate value = Some date -> plausibleDate date) ->
    (truthy value = false -> formatDate newDate value = JStr [])
    /\ (truthy value = true ->
        (exists s, formatDate newDate value = JStr s /\ isDDMMYYYY s)
        \/ (formatDate newDate value = value
            /\ newDate value = None
            /\ forall s, value = JStr s -> ~ isDDMMYYYY s)).
Proof.
  intros newDate value Hplausible. split.
  - intros Ht. unfold formatDate. rewrite Ht. reflexivity.
  - intros Ht.
    destruct (match value with JStr _ => true | _ => false end
              && regexTest DATE_REGEX value) eqn:Ec.
    + left. apply andb_true_iff in Ec as [Hs Hm].
      destruct value as [| | | |s|]; try discriminate Hs.
      exists s. apply DATE_REGEX_matches in Hm.
      split; [apply formatDate_canonical; exact Hm|exact Hm].
    + destruct (newDate value) as [date|] eqn:Ed.
      * left. apply (formatDate_parsed newDate value date); auto.
      * right. split; [|split; [reflexivity|]].
        -- unfold formatDate. rewrite Ht, Ec, Ed. reflexivity.
        -- intros s -> Hs. apply DATE_REGEX_matches in Hs.
           unfold regexTest in Ec. cbn [ToString andb] in Ec. congruence.
Qed.

Lemma formatDate_result_witness :
  formatDate sampleNewDate (JStr (lit "2024-01-01")) = JStr (lit "01/01/2024")
  /\ exists s, formatDate sampleNewDate (JStr (lit "2024-01-01")) = JStr s
               /\ isDDMMYYYY s.
Proof.
  split; [vm_compute; reflexivity|].
  assert (Hp : forall date,
             sampleNewDate (JStr (lit "2024-01-01")) = Some date -> plausibleDate date).
  { intros date H. vm_compute in H. injection H as <-.
    unfold plausibleDate. cbn. lia. }
  destruct (formatDate_result sampleNewDate (JStr (lit "2024-01-01")) Hp)
    as [_ H].
  destruct (H eq_refl) as [Hs|[Hsame _]].
  - exact Hs.
  - vm_compute in Hsame. discriminate Hsame.
Defined.

(** X16 (parser.js, [formatDate]).  Under the same assumption on the
    engine's dates, formatting is idempotent: what [formatDate] returns
    is returned unchanged when it is formatted again. *)
Theorem formatDate_idempotent :
  forall (newDate : jsval -> option DateFields) (value : jsval),
    (forall date, newDate value = Some date -> plausibleDate date) ->
    formatDate newDate (formatDate newDate value) = formatDate newDate value.
Proof.
  intros newDate value Hplausible.
  destruct (formatDate_result newDate value Hplausible) as [Hf Ht].
  destruct (truthy value) eqn:E.
  - destruct (Ht eq_refl) as [(s & -> & Hs)|(Hsame & _)].
    + apply formatDate_canonical, Hs.
    + rewrite !Hsame. reflexivity.
  - rewrite (Hf eq_refl). reflexivity.
Qed.

Lemma formatDate_idempotent_witness :
  formatDate sampleNewDate (formatDate sampleNewDate (JStr (lit "2024-01-01")))
  = JStr (lit "01/01/2024").
Proof.
  rewrite (formatDate_idempotent sampleNewDate (JStr (lit "2024-01-01"))).
  - vm_compute. reflexivity.
  - intros date H. vm_compute in H. injection H as <-.
    unfold plausibleDate. cbn. lia.
Defined.






(* ------------------------------------------------------------------ *)
(** ** The application *)

Lemma strEqb_eq a b : strEqb a b = true <-> a = b.
Proof.
  revert b. induction a as [|x a IH]; intros [|y b]; cbn [strEqb];
    try (split; [discriminate|congruence]); [tauto|].
  rewrite andb_true_iff, N.eqb_eq, IH. split; [intros [-> ->]|intros [= -> ->]]; auto.
Qed.

Lemma strEqb_refl a : strEqb a a = true.
Proof. apply strEqb_eq. reflexivity. Qed.

Lemma arrayIncludes_In l f : arrayIncludes l f = true <-> In f l.
Proof.
  unfold arrayIncludes. rewrite existsb_exists. split.
  - intros (x & Hx & E). apply strEqb_eq in E. subst. exact Hx.
  - intros H. exists f. split; [exact H|apply strEqb_refl].
Qed.

Lemma arrayIncludes_not_In l f : arrayIncludes l f = false <-> ~ In f l.
Proof.
  rewrite <- arrayIncludes_In. destruct (arrayIncludes l f); split; congruence.
Qed.

Lemma NoDup_snoc {A} (l : list A) (x : A) :
  List.NoDup l -> ~ In x l -> List.NoDup (l ++ [x]).
Proof.
  induction 1 as [|y l Hy Hl IH]; intros Hx; cbn [app].
  - constructor; [intros []|constructor].
  - constructor.
    + rewrite in_app_iff. cbn [In]. intros [H|[H|[]]]; [auto|].
      subst. apply Hx. left. reflexivity.
    + apply IH. intros H. apply Hx. right. exact H.
Qed.

(** One turn of the [forEach] of [extractRequiredAttachments]. *)
Lemma extractRequiredLoop_step r rest required :
  badAttachmentCell r = false ->
  extractRequiredLoop (r :: rest) required
  = extractRequiredLoop rest
      (match requiredName r with
       | Some n => if arrayIncludes required n then required else required ++ [n]
       | None => required
       end).
Proof.
  unfold badAttachmentCell, requiredName. cbn [extractRequiredLoop].
  destruct (lookupProp r "attachment") as [| |b|n|s|o]; intros H.
  - reflexivity.
  - reflexivity.
  - rewrite andb_true_r in H. rewrite H. reflexivity.
  - rewrite andb_true_r in H. rewrite H. reflexivity.
  - destruct s as [|c s]; [reflexivity|].
    cbn [truthy callTrim bind]. destruct (trim (c :: s)) as [|t ts]; [reflexivity|].
    cbn [truthy]. destruct (arrayIncludes required (t :: ts)); reflexivity.
  - discriminate H.
Qed.


Lemma extractRequiredLoop_spec rows :
  forall required,
    existsb badAttachmentCell rows = false ->
    List.NoDup required ->
    exists required',
      extractRequiredLoop rows required = Normal required'
      /\ List.NoDup required'
      /\ forall n, In n required'
           <-> In n required \/ exists r, In r rows /\ requiredName r = Some n.
Proof.
  induction rows as [|r rest IH]; intros required Hb Hnd.
  - exists required. split; [reflexivity|]. split; [exact Hnd|].
    intros n. split; [auto|]. intros [H|(r & [] & _)]. exact H.
  - cbn [existsb] in Hb. apply orb_false_iff in Hb as [Hr Hrest].
    rewrite (extractRequiredLoop_step r rest required Hr).
    set (required1 := match requiredName r with
                      | Some n => if arrayIncludes required n then required
                                  else required ++ [n]
                      | None => required
                      end).
    assert (Hnd1 : List.NoDup required1).
    { subst required1. destruct (requiredName r) as [n|]; [|exact Hnd].
      destruct (arrayIncludes required n) eqn:Ei; [exact Hnd|].
      apply arrayIncludes_not_In in Ei.
      apply NoDup_snoc; assumption. }
    assert (Hin1 : forall n, In n required1
                     <-> In n required \/ requiredName r = Some n).
    { intros n. subst required1. destruct (requiredName r) as [n0|].
      - destruct (arrayIncludes required n0) eqn:Ei.
        + apply arrayIncludes_In in Ei. split; [auto|].
          intros [H|[= <-]]; assumption.
        + rewrite in_app_iff. cbn [In]. split.
          * intros [H|[<-|[]]]; auto.
          * intros [H|[= <-]]; auto.
      - split; [auto|]. intros [H|H]; [exact H|discriminate H]. }
    destruct (IH required1 Hrest Hnd1) as (required' & E & Hnd' & Hin').
    exists required'. split; [exact E|]. split; [exact Hnd'|].
    intros n. rewrite Hin', Hin1. cbn [In]. split.
    + intros [[H|H]|(r' & Hr' & H)]; eauto 6.
    + intros [H|(r' & [<-|Hr'] & H)]; eauto 6.
Qed.

Lemma countStatus_spec required files :
  forall matched missing,
    AppState.countStatus required files matched missing
    = (matched + Z.of_nat (length (List.filter (storeHas (Some files)) required)),
       missing + Z.of_nat (length (List.filter
                                     (fun f => negb (storeHas (Some files) f))
                                     required))).
Proof.
  induction required as [|f rest IH]; intros matched missing.
  - cbn. f_equal; lia.
  - cbn [AppState.countStatus List.filter storeHas].
    destruct (files !! f); rewrite IH; cbn [negb length storeHas]; f_equal; lia.
Qed.

Lemma filter_lengths {A} (p : A -> bool) (l : list A) :
  (length (List.filter p l) + length (List.filter (fun x => negb (p x)) l)
   = length l)%nat.
Proof.
  induction l as [|x l IH]; [reflexivity|].
  cbn [List.filter]. destruct (p x); cbn [negb length]; lia.
Qed.

Lemma filter_none_iff {A} (p : A -> bool) (l : list A) :
  length (List.filter (fun x => negb (p x)) l) = 0%nat <-> forallb p l = true.
Proof.
  induction l as [|x l IH]; [cbn; tauto|].
  cbn [List.filter forallb]. destruct (p x); cbn [negb andb length].
  - exact IH.
  - split; discriminate.
Qed.

Lemma find_app {A} (p : A -> bool) (l1 l2 : list A) :
  find p (l1 ++ l2)
  = match find p l1 with Some x => Some x | None => find p l2 end.
Proof.
  induction l1 as [|x l1 IH]; [reflexivity|].
  cbn [app find]. destruct (p x); [reflexivity|exact IH].
Qed.

Lemma storeFiles_lookup files :
  forall store name,
    AppState.storeFiles files store !! name
    = match lastNamed files name with
      | Some f => Some (entryOf f)
      | None => store !! name
      end.
Proof.
  induction files as [|f rest IH]; intros store name; [reflexivity|].
  cbn [AppState.storeFiles]. rewrite IH.
  unfold lastNamed. cbn [rev]. rewrite find_app.
  destruct (find _ (rev rest)); [reflexivity|].
  cbn [find]. destruct (strEqb (pickedName f) name) eqn:E.
  - apply strEqb_eq in E. subst name. rewrite lookup_insert_eq. reflexivity.
  - rewrite lookup_insert_ne; [reflexivity|].
    intros Heq. rewrite Heq, strEqb_refl in E. discriminate E.
Qed.


Lemma splitOn_no_sep sep s : ~ In sep s -> splitOn sep s = [s].
Proof.
  induction s as [|c s IH]; intros H; [reflexivity|].
  cbn [splitOn]. destruct (N.eqb_spec c sep) as [->|Hne].
  - exfalso. apply H. left. reflexivity.
  - rewrite IH by (intros Hin; apply H; right; exact Hin). reflexivity.
Qed.

Lemma splitOn_first sep header payload :
  ~ In sep header ->
  splitOn sep (header ++ sep :: payload) = header :: splitOn sep payload.
Proof.
  induction header as [|c header IH]; intros H.
  - cbn [app splitOn]. rewrite N.eqb_refl. reflexivity.
  - cbn [app splitOn]. destruct (N.eqb_spec c sep) as [->|Hne].
    + exfalso. apply H. left. reflexivity.
    + rewrite IH by (intros Hin; apply H; right; exact Hin). reflexivity.
Qed.



(** X19 (app.js, [extractRequiredAttachments]).  When no record has an
    attachment cell that is truthy and not text, the function returns
    and leaves in [requiredAttachments] the trimmed names the records ask
    for, each once: a name is listed exactly when some record's cell,
    trimmed, is that name and is not empty.  The store of uploaded files
    is emptied, [matchedCount] is 0 and [missingCount] the number of
    names. *)
Theorem required_attachments_extracted :
  forall (state : AppState.t) (rows : list jsobject),
    AppState.mappedData state = Some rows ->
    existsb badAttachmentCell rows = false ->
    exists state',
      AppState.extractRequiredAttachments state = Normal state'
      /\ List.NoDup (AppState.requiredAttachments state')
      /\ (forall n, In n (AppState.requiredAttachments state')
            <-> exists r, In r rows /\ requiredName r = Some n)
      /\ AppState.attachmentFiles state' = ∅
      /\ AppState.matchedCount state' = 0
      /\ AppState.missingCount state'
         = Z.of_nat (length (AppState.requiredAttachments state'))
      /\ AppState.mappedData state' = Some rows.
Proof.
  intros state rows Hrows Hbad.
  destruct (extractRequiredLoop_spec rows [] Hbad (List.NoDup_nil _))
    as (required & E & Hnd & Hin).
  unfold AppState.extractRequiredAttachments. rewrite Hrows, E. cbn [bind].
  eexists. split; [reflexivity|].
  cbn [AppState.requiredAttachments AppState.attachmentFiles
       AppState.matchedCount AppState.missingCount AppState.mappedData].
  split_ands; auto.
  intros n. rewrite Hin. cbn [In]. tauto.
Qed.

Lemma required_attachments_extracted_witness :
  exists state',
    AppState.extractRequiredAttachments
      {| AppState.mappedData := Some sampleRecords;
         AppState.requiredAttachments := [lit "old.pdf"];
         AppState.attachmentFiles := ∅;
         AppState.matchedCount := 1;
         AppState.missingCount := 0;
         AppState.proceedDisabled := false |} = Normal state'
    /\ AppState.requiredAttachments state' = [lit "a.pdf"; lit "b.pdf"]
    /\ AppState.missingCount state' = 2.
Proof.
  destruct (required_attachments_extracted
              {| AppState.mappedData := Some sampleRecords;
                 AppState.requiredAttachments := [lit "old.pdf"];
                 AppState.attachmentFiles := ∅;
                 AppState.matchedCount := 1;
                 AppState.missingCount := 0;
                 AppState.proceedDisabled := false |}
              sampleRecords eq_refl ltac:(vm_compute; reflexivity))
    as (state' & E & _ & _ & _ & _ & Hm & _).
  exists state'. split; [exact E|].
  assert (Hreq : AppState.requiredAttachments state' = [lit "a.pdf"; lit "b.pdf"]).
  { vm_compute in E. injection E as <-. vm_compute. reflexivity. }
  split; [exact Hreq|]. rewrite Hm, Hreq. reflexivity.
Defined.


(** X21 (app.js, [updateAttachmentStatus] and [updateProceedButton]).
    After the status update, [matchedCount] is the number of required
    names the store has and [missingCount] the number of the others;
    nothing is missing exactly when every required name is stored; and
    the button to the next step is enabled exactly when there is at
    least one record and every required name is stored.  The records,
    the required names and the store are left as they were. *)
Theorem attachment_status_counts :
  forall state : AppState.t,
    let required := AppState.requiredAttachments state in
    let stored := storeHas (Some (AppState.attachmentFiles state)) in
    let state' := AppState.updateAttachmentStatus state in
    AppState.matchedCount state' = Z.of_nat (length (List.filter stored required))
    /\ AppState.matchedCount state' + AppState.missingCount state'
       = Z.of_nat (length required)
    /\ (AppState.missingCount state' = 0 <-> forallb stored required = true)
    /\ (AppState.proceedDisabled state' = false
        <-> (exists rows, AppState.mappedData state = Some rows /\ rows <> [])
            /\ forallb stored required = true)
    /\ AppState.mappedData state' = AppState.mappedData state
    /\ AppState.requiredAttachments state' = required
    /\ AppState.attachmentFiles state' = AppState.attachmentFiles state.
Proof.
  intros state required stored state'. subst state'.
  unfold AppState.updateAttachmentStatus, AppState.updateProceedButton.
  cbn [AppState.mappedData AppState.requiredAttachments AppState.attachmentFiles
       AppState.matchedCount AppState.missingCount AppState.proceedDisabled].
  fold required. rewrite countStatus_spec. cbn [fst snd]. fold stored.
  pose proof (filter_lengths stored required) as Hlen.
  pose proof (filter_none_iff stored required) as Hnone.
  assert (Hmiss : 0 + Z.of_nat (length (List.filter (fun f => negb (stored f)) required)) = 0
                  <-> forallb stored required = true).
  { rewrite <- Hnone. lia. }
  split_ands; try reflexivity; try lia; try exact Hmiss.
  rewrite negb_false_iff, andb_true_iff, orb_true_iff, Z.eqb_eq, Hmiss, Nat.eqb_eq.
  split.
  - intros [Hdata Hok]. split.
    + destruct (AppState.mappedData state) as [rows|]; [|discriminate Hdata].
      exists rows. split; [reflexivity|].
      destruct rows; [discriminate Hdata|discriminate].
    + destruct Hok as [H0|H]; [|exact H].
      destruct required; [reflexivity|discriminate H0].
  - intros [(rows & -> & Hne) Hok]. split; [|right; exact Hok].
    destruct rows; [contradiction|reflexivity].
Qed.

(** X22 (app.js [handleAttachmentUpload] and the resolver of
    [startGeneration], with generator.js [generateInstrumentXml]).
    After an upload, the store holds under a name the text read from
    the last file picked with that name; and the fragment of a record
    whose attachment cell, trimmed, is that name carries that text as
    its attachment data (nothing when the text read is [undefined] or
    empty).  The name under which the file is stored is the file name as
    it is; the record's name is trimmed before it is looked up. *)
Theorem uploaded_file_is_embedded :
  forall (state : AppState.t) (files : list PickedFile) (r : jsobject)
         (s : jsstring) (file : PickedFile),
    lookupProp r "attachment" = JStr s ->
    s <> [] ->
    lastNamed files (trim s) = Some file ->
    let state' := AppState.handleAttachmentUpload state files in
    AppState.attachmentFiles state' !! trim s = Some (entryOf file)
    /\ generateInstrumentXml r
         (App.getAttachmentBase64 (AppState.attachmentFiles state'))
       = instrumentTemplate r (JStr s) (jsOr (readFileAsBase64 file) (JStr [])).
Proof.
  intros state files r s file Hs Hne Hlast state'.
  assert (Hstore : AppState.attachmentFiles state' !! trim s = Some (entryOf file)).
  { subst state'. destruct files as [|f rest]; [discriminate Hlast|].
    unfold AppState.handleAttachmentUpload, AppState.updateAttachmentStatus,
      AppState.updateProceedButton.
    cbn [AppState.attachmentFiles].
    rewrite storeFiles_lookup, Hlast. reflexivity. }
  split; [exact Hstore|].
  unfold generateInstrumentXml, fetchAttachment. rewrite Hs.
  destruct s as [|c s]; [congruence|].
  cbn [jsOr truthy callTrim bind]. unfold App.getAttachmentBase64.
  rewrite Hstore. reflexivity.
Qed.

Lemma uploaded_file_is_embedded_witness :
  let r := [("_rowNumber", JNum 3); ("attachment", JStr (lit " b.pdf "))] in
  let state' := AppState.handleAttachmentUpload initialState sampleFiles in
  AppState.attachmentFiles state' !! lit "b.pdf"
  = Some {| data := JStr (lit "R0hJ"); fileSize := 3 |}
  /\ generateInstrumentXml r
       (App.getAttachmentBase64 (AppState.attachmentFiles state'))
     = instrumentTemplate r (JStr (lit " b.pdf ")) (JStr (lit "R0hJ")).
Proof.
  intros r state'.
  exact (uploaded_file_is_embedded initialState sampleFiles r (lit " b.pdf ")
           {| pickedName := lit "b.pdf";
              dataUrl := lit "data:application/pdf;base64,R0hJ";
              pickedSize := 3 |}
           eq_refl ltac:(discriminate) ltac:(vm_compute; reflexivity)).
Defined.

(** X23 (app.js, [readFileAsBase64]).  What is kept of the data URL of
    a file is the text between its first comma and its second, or its
    end: the whole payload when the payload has no comma, as base64
    text has none; and [undefined] when the URL has no comma at all. *)
Theorem readFileAsBase64_payload :
  forall file : PickedFile,
    (~ In 44%N (dataUrl file) -> readFileAsBase64 file = JUndefined)
    /\ (forall header payload : jsstring,
          dataUrl file = header ++ 44%N :: payload ->
          ~ In 44%N header ->
          (~ In 44%N payload -> readFileAsBase64 file = JStr payload)
          /\ (forall part rest : jsstring,
                payload = part ++ 44%N :: rest -> ~ In 44%N part ->
                readFileAsBase64 file = JStr part)).
Proof.
  intros file. unfold readFileAsBase64. split.
  - intros H. rewrite (splitOn_no_sep 44%N _ H). reflexivity.
  - intros header payload Hurl Hh.
    pose proof (splitOn_first 44%N header payload Hh) as Hsp.
    change (@cons codeunit) with (@cons N) in Hsp. rewrite Hurl, Hsp.
    split.
    + intros Hp. rewrite (splitOn_no_sep 44%N _ Hp). reflexivity.
    + intros part rest Hpay Hp.
      pose proof (splitOn_first 44%N part rest Hp) as Hsp'.
      change (@cons codeunit) with (@cons N) in Hsp'.
      rewrite Hpay, Hsp'. reflexivity.
Qed.



Lemma escapeHtml_cons x s :
  escapeHtml (JStr (x :: s)) = escapeHtmlChar x ++ escapeHtml (JStr s).
Proof.
  unfold escapeHtml, ToString.
  change (replaceAll 38%N (lit "&amp;") (x :: s))
    with ((if (x =? 38)%N then lit "&amp;" else [x])
          ++ replaceAll 38%N (lit "&amp;") s).
  rewrite !replaceAll_app. f_equal.
  unfold escapeHtmlChar.
  destruct (N.eqb_spec x 38) as [->|H38]; [reflexivity|].
  destruct (N.eqb_spec x 60) as [->|H60]; [reflexivity|].
  destruct (N.eqb_spec x 62) as [->|H62]; [reflexivity|].
  destruct (N.eqb_spec x 34) as [->|H34]; [reflexivity|].
  rewrite !replaceAll_single_ne by assumption. reflexivity.
Qed.

Lemma escapeHtml_flat_map s : escapeHtml (JStr s) = flat_map escapeHtmlChar s.
Proof.
  induction s as [|x s IH]; [reflexivity|].
  rewrite escapeHtml_cons, IH. reflexivity.
Qed.

Lemma escapeHtml_as_flat_map v :
  escapeHtml v
  = match v with
    | JNull | JUndefined => []
    | _ => flat_map escapeHtmlChar (ToString v)
    end.
Proof.
  destruct v as [| |b|n|s|o]; try reflexivity.
  - change (escapeHtml (JBool b)) with (escapeHtml (JStr (ToString (JBool b)))).
    apply escapeHtml_flat_map.
  - change (escapeHtml (JNum n)) with (escapeHtml (JStr (ToString (JNum n)))).
    apply escapeHtml_flat_map.
  - apply escapeHtml_flat_map.
Qed.

Lemma escapeHtmlChar_spec x :
  (forall c, In c (escapeHtmlChar x) -> c <> 60%N /\ c <> 62%N /\ c <> 34%N)
  /\ countChar 39%N (escapeHtmlChar x) = countChar 39%N [x]
  /\ forall t, unescapeFrom 0 (escapeHtmlChar x ++ t) = x :: unescapeFrom 0 t.
Proof.
  unfold escapeHtmlChar.
  destruct (N.eqb_spec x 38) as [->|H38];
    [split_ands; [intros c Hc; cbn in Hc; intuition (subst; discriminate)
                 |reflexivity|reflexivity]|].
  destruct (N.eqb_spec x 60) as [->|H60];
    [split_ands; [intros c Hc; cbn in Hc; intuition (subst; discriminate)
                 |reflexivity|reflexivity]|].
  destruct (N.eqb_spec x 62) as [->|H62];
    [split_ands; [intros c Hc; cbn in Hc; intuition (subst; discriminate)
                 |reflexivity|reflexivity]|].
  destruct (N.eqb_spec x 34) as [->|H34];
    [split_ands; [intros c Hc; cbn in Hc; intuition (subst; discriminate)
                 |reflexivity|reflexivity]|].
  split_ands.
  - intros c [<-|[]]. auto.
  - reflexivity.
  - intros t. change ([x] ++ t) with (x :: t).
    cbn [unescapeFrom]. rewrite referenceAt_not_amp by assumption. reflexivity.
Qed.

(** X25 (app.js, [escapeHtml]).  The text put into the page has no
    [<], no [>] and no double quote, whatever the value; apostrophes are
    left as they are, as many as in the text; unescaping gives the text
    back; [null] and [undefined] give the empty string; and [escapeXml]
    of the generator is [escapeHtml] followed by the replacement of the
    apostrophes. *)
Theorem escapeHtml_properties :
  (forall (v : jsval) (c : codeunit),
      In c (escapeHtml v) -> c <> 60%N /\ c <> 62%N /\ c <> 34%N)
  /\ (forall s : jsstring, escapeHtml (JStr s) = flat_map escapeHtmlChar s)
  /\ (forall s : jsstring,
        countChar 39%N (escapeHtml (JStr s)) = countChar 39%N s)
  /\ (forall s : jsstring, xmlUnescape (escapeHtml (JStr s)) = s)
  /\ (forall s : jsstring,
        flat_map escapeChar s
        = replaceAll 39%N (lit "&apos;") (flat_map escapeHtmlChar s))
  /\ escapeHtml JNull = [] /\ escapeHtml JUndefined = [].
Proof.
  split_ands; try reflexivity.
  - intros v c. rewrite escapeHtml_as_flat_map.
    assert (H : forall s, In c (flat_map escapeHtmlChar s) ->
                          c <> 60%N /\ c <> 62%N /\ c <> 34%N).
    { intros s. rewrite in_flat_map. intros (x & _ & Hc).
      apply (proj1 (escapeHtmlChar_spec x) c Hc). }
    destruct v; try apply H; intros [].
  - apply escapeHtml_flat_map.
  - intros s. rewrite escapeHtml_flat_map.
    induction s as [|x s IH]; [reflexivity|].
    cbn [flat_map]. rewrite countChar_app, IH.
    rewrite (proj1 (proj2 (escapeHtmlChar_spec x))).
    change (x :: s) with ([x] ++ s). rewrite countChar_app. reflexivity.
  - intros s. unfold xmlUnescape. rewrite escapeHtml_flat_map.
    induction s as [|x s IH]; [reflexivity|].
    cbn [flat_map]. rewrite (proj2 (proj2 (escapeHtmlChar_spec x))), IH.
    reflexivity.
  - intros s. rewrite <- escapeString_flat_map, <- escapeHtml_flat_map.
    reflexivity.
Qed.







